(** * Task orchestration and agent lifecycle of the n8n deployment project

    A shallow embedding of [src/agents/base_agent.py] (the [BaseAgent]
    lifecycle), [src/agents/orchestrator.py] (the [DevOpsOrchestrator]) and
    of the request validation of [src/ai_devops_orchestrator.py], together
    with the properties of the specification that were checked against it.

    Python objects are mutated in place and methods raise; the embedding
    threads an explicit state through a small state-and-exception monad.
    State changes made before an exception is raised are kept, as in
    Python.  Wall-clock time, uuid generation, [asyncio.sleep], file
    writes and the agents' capabilities are operations of an abstract host
    environment ([Host]), so every theorem holds for all their behaviours.
    [asyncio.gather] is modelled by running the coroutines to completion
    one after the other, in creation order. *)

From Stdlib Require Import String Ascii DecimalString QArith.
From stdpp Require Import base option list gmap strings.

Local Open Scope string_scope.
Local Open Scope nat_scope.
Local Open Scope list_scope.
Local Open Scope stdpp_scope.

(** ** Python exceptions and the state-and-exception monad *)

Inductive ExcClass :=
  | PyException | PyValueError | PyKeyError
  | PyZeroDivisionError | PyNotImplementedError | PyOSError.

(** An instance of (a subclass of) Python's [Exception]; [exn_str] is
    [str(e)]. *)
Record exn := Exn { exn_class : ExcClass; exn_str : string }.

Inductive Exc (A : Type) :=
  | Raise (e : exn)
  | Return (a : A).
Arguments Raise {A} e.
Arguments Return {A} a.

Definition M (S A : Type) : Type := S → Exc A * S.

Global Instance M_ret {S} : MRet (M S) := λ A a s, (Return a, s).
Global Instance M_bind {S} : MBind (M S) := λ A B k m s,
  match m s with
  | (Raise e, s') => (Raise e, s')
  | (Return a, s') => k a s'
  end.

Definition raise {S A} (e : exn) : M S A := λ s, (Raise e, s).
Definition get {S} : M S S := λ s, (Return s, s).
Definition gets {S A} (f : S → A) : M S A := λ s, (Return (f s), s).
Definition modify {S} (f : S → S) : M S unit := λ s, (Return tt, f s).

(** [try: body except Exception as e: handler e] *)
Definition try_except {S A} (body : M S A) (handler : exn → M S A) : M S A :=
  λ s, match body s with
       | (Raise e, s') => handler e s'
       | (Return a, s') => (Return a, s')
       end.

(** [try: body finally: cleanup]; the cleanup code of this program never
    raises, so it is a state update. *)
Definition try_finally {S A} (body : M S A) (cleanup : S → S) : M S A :=
  λ s, let '(r, s') := body s in (r, cleanup s').

(** Python truthiness of a possibly absent string ([None] and the empty
    string are falsy). *)
Definition truthy (o : option string) : bool :=
  match o with
  | Some s => negb (String.eqb s "")
  | None => false
  end.

(** [s.lower()] on ASCII letters. *)
Definition lower_ascii (c : ascii) : ascii :=
  let n := nat_of_ascii c in
  if (65 <=? n) && (n <=? 90) then ascii_of_nat (n + 32) else c.

Fixpoint lower (s : string) : string :=
  match s with
  | EmptyString => EmptyString
  | String c s' => String (lower_ascii c) (lower s')
  end.

(** [needle in hay] on strings. *)
Fixpoint is_substring (needle hay : string) : bool :=
  String.prefix needle hay ||
  match hay with
  | EmptyString => false
  | String _ hay' => is_substring needle hay'
  end.

(** Insertion-ordered dictionaries whose order is observed ([d[k] = v],
    [d.get(k)], [list(d.keys())]). *)
Fixpoint dict_set {V} (k : string) (v : V) (d : list (string * V)) : list (string * V) :=
  match d with
  | [] => [(k, v)]
  | (k', v') :: d' => if String.eqb k' k then (k, v) :: d' else (k', v') :: dict_set k v d'
  end.

Fixpoint dict_get {V} (k : string) (d : list (string * V)) : option V :=
  match d with
  | [] => None
  | (k', v') :: d' => if String.eqb k' k then Some v' else dict_get k d'
  end.

Definition str_of_nat (n : nat) : string := NilZero.string_of_uint (Nat.to_uint n).

(** [repr] of a list of strings, as an f-string prints it (strings without
    quote characters). *)
Definition repr_str (s : string) : string := "'" +:+ s +:+ "'".
Definition repr_list (l : list string) : string :=
  "[" +:+ String.concat ", " (repr_str <$> l) +:+ "]".

(** ** The host environment *)

(** A deployment request as the orchestrator reads it: every key may be
    absent.  The orchestrator reads domain, email, project_name,
    client_name, server_ip, cloudflare_token and deployment_id with
    [request.get(key)], so that for these [None] stands for a key that is
    absent or holds [None] alike.  It reads services, ssh_credentials and
    configuration with a default and uses what it gets as a list or a
    dictionary: for these [None] is an absent key, and a key that holds
    [None] is not a request of this type. *)
Record Request := {
  rq_domain : option string;
  rq_email : option string;
  rq_project_name : option string;
  rq_client_name : option string;
  rq_server_ip : option string;
  rq_ssh_credentials : option (list (string * string));
  rq_cloudflare_token : option string;
  rq_services : option (list string);
  rq_configuration : option (list (string * string));
  rq_deployment_id : option string;
}.

(** Values of the parameter dictionaries built by the orchestrator. *)
Inductive PyVal :=
  | VNone
  | VBool (b : bool)
  | VStr (s : string)
  | VStrList (l : list string)
  | VDict (d : list (string * string))
  | VRequest (r : Request).

Definition Params := list (string * PyVal).

Class Host := {
  World : Type;
  (** Python numbers as [time.time()] and the metrics use them. *)
  Num : Type;
  (** What a capability returns. *)
  Value : Type;
  num_of_nat : nat → Num;
  nadd : Num → Num → Num;
  nsub : Num → Num → Num;
  nmul : Num → Num → Num;
  (** true division, only used with a divisor that is not zero *)
  ndiv : Num → Num → Num;
  nmin : Num → Num → Num;
  is_zero : Num → bool;
  time_time : World → Num * World;
  datetime_now_iso : World → string;
  asyncio_sleep : nat → World → World;
  uuid4 : World → string * World;
  (** [open(path, 'w')] followed by [json.dump] *)
  write_json : string → World → Exc unit * World;
}.

(** [a / b] with Python's [ZeroDivisionError]. *)
Definition py_div `{Host} {S} (a b : Num) : M S Num :=
  if is_zero b then raise (Exn PyZeroDivisionError "float division by zero")
  else mret (ndiv a b).

(** [sum(...)] starts from the integer [0]. *)
Definition py_sum `{Host} (l : list Num) : Num := foldl nadd (num_of_nat 0) l.

(** ** base_agent.py: data *)

Inductive AgentStatus :=
  | IDLE | PLANNING | EXECUTING | VALIDATING | REPORTING | COMPLETED | FAILED | WAITING.

Global Instance AgentStatus_eq_dec : EqDecision AgentStatus.
Proof. solve_decision. Defined.

Inductive TaskPriority := CRITICAL | HIGH | MEDIUM | LOW.

(** A task dictionary as an agent receives it: every key may be absent. *)
Record TaskDict := {
  td_id : option string;
  td_description : option string;
  td_parameters : option Params;
  td_dependencies : option (list string);
}.

Record Step := {
  step_id : nat;
  step_description : string;
  step_function : string;
  step_parameters : Params;
  step_validation : string;
  step_timeout : nat;
}.

Record RollbackStep := {
  rb_step_id : string;
  rb_description : string;
  rb_function : string;
  rb_parameters : Params;
}.

Record ExecutionPlan := {
  ep_task_id : option string;
  ep_agent_id : string;
  ep_steps : list Step;
  ep_dependencies : list string;
  ep_estimated_duration : nat;
  ep_risk_assessment : string;
  ep_rollback_plan : list RollbackStep;
}.

Section Agent.
Context `{H : Host}.

(** One entry of [results] in [execute_with_monitoring]; [sr_recovered] is
    the presence of the key ['recovered'] (always [True] when present). *)
Record StepResult := {
  sr_step_id : nat;
  sr_success : bool;
  sr_result : option Value;
  sr_error : option string;
  sr_duration : Num;
  sr_recovered : bool;
}.

Record ExecResult := {
  er_plan_id : option string;
  er_steps_executed : nat;
  er_steps_successful : nat;
  er_total_duration : Num;
  er_step_results : list StepResult;
}.

Record Validation := {
  v_valid : bool;
  v_errors : list string;
  v_warnings : list string;
  v_checks_performed : list string;
}.

(** The dictionary returned by [perform_agent_validation]: the keys it
    carries are the ones [dict.update] overwrites. *)
Record AgentValidation := {
  av_valid : option bool;
  av_errors : option (list string);
  av_warnings : option (list string);
  av_checks_performed : option (list string);
}.

(** [validation.update(agent_validation)] *)
Definition validation_update (v : Validation) (a : AgentValidation) : Validation :=
  {| v_valid := default (v_valid v) (av_valid a);
     v_errors := default (v_errors v) (av_errors a);
     v_warnings := default (v_warnings v) (av_warnings a);
     v_checks_performed := default (v_checks_performed v) (av_checks_performed a) |}.

(** [BaseAgent.perform_agent_validation] *)
Definition base_perform_agent_validation (result : ExecResult) : AgentValidation :=
  {| av_valid := None;
     av_errors := Some [];
     av_warnings := Some [];
     av_checks_performed := Some ["basic_validation"] |}.

(** [ServerSetupAgent.perform_agent_validation].  It looks up the keys
    ['setup_result'] and ['validation'] of its argument, which is the
    dictionary built by [execute_with_monitoring] and has neither, so all
    four checks fail on every input. *)
Definition server_setup_perform_agent_validation (result : ExecResult) : AgentValidation :=
  {| av_valid := None;
     av_errors := Some ["Docker installation failed";
                        "Portainer installation failed";
                        "Nginx Proxy Manager installation failed";
                        "Overall system health check failed"];
     av_warnings := Some [];
     av_checks_performed := Some ["docker_installation"; "portainer_deployment";
                                  "nginx_proxy_manager_setup"; "firewall_configuration";
                                  "service_accessibility"] |}.

(** [validate_execution], given the agent's [perform_agent_validation]. *)
Definition validate_execution (perform_agent_validation : ExecResult → AgentValidation)
    (result : ExecResult) : Validation :=
  let validation :=
    {| v_valid := true; v_errors := []; v_warnings := []; v_checks_performed := [] |} in
  let validation :=
    if Nat.eqb (er_steps_successful result) 0 then
      {| v_valid := false;
         v_errors := v_errors validation ++ ["No steps were executed successfully"];
         v_warnings := v_warnings validation;
         v_checks_performed := v_checks_performed validation |}
    else validation in
  let agent_validation := perform_agent_validation result in
  validation_update validation agent_validation.

(** *** Agent objects *)

Record Metrics := {
  tasks_completed : nat;
  tasks_failed : nat;
  total_execution_time : Num;
  average_task_time : Num;
  success_rate : Num;
}.

(** An entry of [execution_log] (the logged data is not kept). *)
Record LogEntry := {
  le_timestamp : string;
  le_agent_id : string;
  le_description : string;
}.

(** A [BaseAgent] instance.  The three methods a subclass provides or
    overrides are fields; whatever they keep on the object is part of the
    [World]. *)
Record Agent := {
  agent_id : string;
  agent_name : string;
  agent_description : string;
  (** [hasattr(agent, 'agent_type')] *)
  agent_type : option string;
  execute_primary_function : Params → World → Exc Value * World;
  execute_custom_function : string → Params → World → Exc Value * World;
  perform_agent_validation : ExecResult → AgentValidation;
  status : AgentStatus;
  current_task : option TaskDict;
  completed_tasks : list TaskDict;
  failed_tasks : list TaskDict;
  execution_log : list LogEntry;
  performance_metrics : Metrics;
}.

(** [BaseAgent.execute_custom_function] *)
Definition base_execute_custom_function (function_name : string) (parameters : Params)
    (w : World) : Exc Value * World :=
  (Raise (Exn PyNotImplementedError
            ("Custom function " +:+ function_name +:+ " not implemented")), w).

Definition initial_metrics : Metrics :=
  {| tasks_completed := 0; tasks_failed := 0;
     total_execution_time := num_of_nat 0;
     average_task_time := num_of_nat 0;
     success_rate := num_of_nat 0 |}.

(** [BaseAgent.__init__] for a subclass with the given methods. *)
Definition new_agent (id name description : string) (type : option string)
    (primary : Params → World → Exc Value * World)
    (custom : string → Params → World → Exc Value * World)
    (validation : ExecResult → AgentValidation) : Agent :=
  {| agent_id := id; agent_name := name; agent_description := description;
     agent_type := type;
     execute_primary_function := primary;
     execute_custom_function := custom;
     perform_agent_validation := validation;
     status := IDLE; current_task := None;
     completed_tasks := []; failed_tasks := []; execution_log := [];
     performance_metrics := initial_metrics |}.

Definition set_status (st : AgentStatus) (a : Agent) : Agent :=
  {| agent_id := agent_id a; agent_name := agent_name a;
     agent_description := agent_description a; agent_type := agent_type a;
     execute_primary_function := execute_primary_function a;
     execute_custom_function := execute_custom_function a;
     perform_agent_validation := perform_agent_validation a;
     status := st; current_task := current_task a;
     completed_tasks := completed_tasks a; failed_tasks := failed_tasks a;
     execution_log := execution_log a;
     performance_metrics := performance_metrics a |}.

Definition set_current_task (t : option TaskDict) (a : Agent) : Agent :=
  {| agent_id := agent_id a; agent_name := agent_name a;
     agent_description := agent_description a; agent_type := agent_type a;
     execute_primary_function := execute_primary_function a;
     execute_custom_function := execute_custom_function a;
     perform_agent_validation := perform_agent_validation a;
     status := status a; current_task := t;
     completed_tasks := completed_tasks a; failed_tasks := failed_tasks a;
     execution_log := execution_log a;
     performance_metrics := performance_metrics a |}.

Definition append_completed (t : TaskDict) (a : Agent) : Agent :=
  {| agent_id := agent_id a; agent_name := agent_name a;
     agent_description := agent_description a; agent_type := agent_type a;
     execute_primary_function := execute_primary_function a;
     execute_custom_function := execute_custom_function a;
     perform_agent_validation := perform_agent_validation a;
     status := status a; current_task := current_task a;
     completed_tasks := completed_tasks a ++ [t]; failed_tasks := failed_tasks a;
     execution_log := execution_log a;
     performance_metrics := performance_metrics a |}.

Definition append_failed (t : TaskDict) (a : Agent) : Agent :=
  {| agent_id := agent_id a; agent_name := agent_name a;
     agent_description := agent_description a; agent_type := agent_type a;
     execute_primary_function := execute_primary_function a;
     execute_custom_function := execute_custom_function a;
     perform_agent_validation := perform_agent_validation a;
     status := status a; current_task := current_task a;
     completed_tasks := completed_tasks a; failed_tasks := failed_tasks a ++ [t];
     execution_log := execution_log a;
     performance_metrics := performance_metrics a |}.

Definition append_log (e : LogEntry) (a : Agent) : Agent :=
  {| agent_id := agent_id a; agent_name := agent_name a;
     agent_description := agent_description a; agent_type := agent_type a;
     execute_primary_function := execute_primary_function a;
     execute_custom_function := execute_custom_function a;
     perform_agent_validation := perform_agent_validation a;
     status := status a; current_task := current_task a;
     completed_tasks := completed_tasks a; failed_tasks := failed_tasks a;
     execution_log := execution_log a ++ [e];
     performance_metrics := performance_metrics a |}.

Definition set_metrics (pm : Metrics) (a : Agent) : Agent :=
  {| agent_id := agent_id a; agent_name := agent_name a;
     agent_description := agent_description a; agent_type := agent_type a;
     execute_primary_function := execute_primary_function a;
     execute_custom_function := execute_custom_function a;
     perform_agent_validation := perform_agent_validation a;
     status := status a; current_task := current_task a;
     completed_tasks := completed_tasks a; failed_tasks := failed_tasks a;
     execution_log := execution_log a;
     performance_metrics := pm |}.

(** [update_performance_metrics], on the metrics dictionary. *)
Definition update_performance_metrics (success : bool) (execution_time : Num)
    (pm : Metrics) : Metrics :=
  let completed := if success then S (tasks_completed pm) else tasks_completed pm in
  let failed := if success then tasks_failed pm else S (tasks_failed pm) in
  let total := nadd (total_execution_time pm) execution_time in
  let total_tasks := completed + failed in
  if 0 <? total_tasks then
    {| tasks_completed := completed; tasks_failed := failed;
       total_execution_time := total;
       average_task_time := ndiv total (num_of_nat total_tasks);
       success_rate := ndiv (num_of_nat completed) (num_of_nat total_tasks) |}
  else
    {| tasks_completed := completed; tasks_failed := failed;
       total_execution_time := total;
       average_task_time := average_task_time pm;
       success_rate := success_rate pm |}.

(** *** Results of a task *)

Record PerformanceImpact := {
  execution_efficiency : Num;
  resource_usage : string;
  quality_score : Num;
}.

Record Report := {
  rp_agent_id : string;
  rp_agent_name : string;
  rp_task_id : option string;
  rp_task_description : option string;
  rp_execution_time : Num;
  rp_success : bool;
  rp_steps_completed : nat;
  rp_validation_results : Validation;
  rp_timestamp : string;
  rp_performance_impact : PerformanceImpact;
}.

Record FailureAnalysis := {
  error_category : string;
  likely_causes : list string;
  severity : string;
  impact_assessment : string;
}.

Record ErrorReport := {
  erp_agent_id : string;
  erp_task_id : option string;
  erp_error : string;
  erp_failure_analysis : FailureAnalysis;
  erp_recovery_suggestions : list string;
  erp_timestamp : string;
}.

(** What [process_task] returns: the dictionary with [success: True] and
    the keys [result], [report], [execution_time], or the one with
    [success: False] and the keys [error], [error_report],
    [execution_time]. *)
Inductive TaskResult :=
  | TaskSuccess (result : ExecResult) (report : Report) (execution_time : Num)
  | TaskFailure (error : string) (error_report : ErrorReport) (execution_time : Num).

Definition tr_success (r : TaskResult) : bool :=
  match r with TaskSuccess _ _ _ => true | TaskFailure _ _ _ => false end.

Definition tr_execution_time (r : TaskResult) : Num :=
  match r with TaskSuccess _ _ t => t | TaskFailure _ _ t => t end.

(** The events an agent sends to its [orchestrator_callback] from
    [process_task]. *)
Inductive Event :=
  | task_completed (agent task_id : string) (result : ExecResult) (report : Report)
      (execution_time : Num)
  | task_failed (agent task_id : string) (error : string) (error_report : ErrorReport)
      (execution_time : Num).

End Agent.

(** ** base_agent.py: the task lifecycle *)

Section Lifecycle.
Context `{H : Host} {C : Type}.

(** The state [process_task] runs on: the agent object, the state of
    whoever owns the [orchestrator_callback], and the world. *)
Record AState := { self : Agent; peer : C; world : World }.

(** An [orchestrator_callback]; it acts on its owner's state and on the
    world and may raise. *)
Definition Callback : Type := Event → C * World → Exc unit * (C * World).

Definition with_self (f : Agent → Agent) : M AState unit :=
  modify (λ s, {| self := f (self s); peer := peer s; world := world s |}).

Definition liftW {A} (f : World → A * World) : M AState A :=
  λ s, let '(a, w) := f (world s) in
       (Return a, {| self := self s; peer := peer s; world := w |}).

Definition liftE {A} (f : World → Exc A * World) : M AState A :=
  λ s, let '(r, w) := f (world s) in
       (r, {| self := self s; peer := peer s; world := w |}).

(** [if self.orchestrator_callback: await self.orchestrator_callback(...)] *)
Definition notify (cb : option Callback) (ev : Event) : M AState unit :=
  match cb with
  | None => mret tt
  | Some f =>
      λ s, let '(r, (c, w)) := f ev (peer s, world s) in
           (r, {| self := self s; peer := c; world := w |})
  end.

(** [log_execution_step]: the entry appended to [execution_log]; the
    [json.dumps(data, default=str)] of the log line is taken to return. *)
Definition log_execution_step (description : string) : M AState unit :=
  λ s, (Return tt,
        {| self := append_log {| le_timestamp := datetime_now_iso (world s);
                                 le_agent_id := agent_id (self s);
                                 le_description := description |} (self s);
           peer := peer s; world := world s |}).

Definition generate_execution_steps (a : Agent) (task : TaskDict) : list Step :=
  [ {| step_id := 1;
       step_description := "Execute " +:+ agent_name a +:+ " primary function";
       step_function := "execute_primary_function";
       step_parameters := default [] (td_parameters task);
       step_validation := "Validate " +:+ agent_name a +:+ " execution";
       step_timeout := 300 |} ].

Definition assess_task_risk (task : TaskDict) : string :=
  let complexity := length (default [] (td_parameters task)) in
  let dependencies := length (default [] (td_dependencies task)) in
  if (10 <? complexity) || (5 <? dependencies) then "high"
  else if (5 <? complexity) || (2 <? dependencies) then "medium"
  else "low".

Definition create_rollback_plan (steps : list Step) : list RollbackStep :=
  (λ step, {| rb_step_id := "rollback_" +:+ str_of_nat (step_id step);
              rb_description := "Rollback " +:+ step_description step;
              rb_function := "rollback_" +:+ step_function step;
              rb_parameters := step_parameters step |}) <$> rev steps.

Definition create_execution_plan (a : Agent) (task : TaskDict) : ExecutionPlan :=
  let steps := generate_execution_steps a task in
  {| ep_task_id := td_id task;
     ep_agent_id := agent_id a;
     ep_steps := steps;
     ep_dependencies := default [] (td_dependencies task);
     ep_estimated_duration := length steps * 30;
     ep_risk_assessment := assess_task_risk task;
     ep_rollback_plan := create_rollback_plan steps |}.

(** The dispatch on [step['function']] that [execute_with_monitoring] and
    [attempt_step_recovery] both make. *)
Definition execute_step (step : Step) : M AState Value :=
  a ← gets self;
  if String.eqb (step_function step) "execute_primary_function"
  then liftE (execute_primary_function a (step_parameters step))
  else liftE (execute_custom_function a (step_function step) (step_parameters step)).

Inductive Recovery :=
  | Recovered (result : Value)
  | NotRecovered (error : string).

(** [attempt_step_recovery]: sleep five seconds, retry the step once. *)
Definition attempt_step_recovery (step : Step) (error : string) : M AState Recovery :=
  try_except
    (liftW (λ w, (tt, asyncio_sleep 5 w));;
     result ← execute_step step;
     mret (Recovered result))
    (λ e, mret (NotRecovered (exn_str e))).

(** The body of the [for step in plan['steps']] loop of
    [execute_with_monitoring]: the new value of [results], or the
    exception that leaves the loop. *)
Definition monitor_step (step : Step) (results : list StepResult)
    : M AState (list StepResult) :=
  step_start ← liftW time_time;
  try_except
    (step_result ← execute_step step;
     now ← liftW time_time;
     let step_duration := nsub now step_start in
     let results := results ++ [ {| sr_step_id := step_id step; sr_success := true;
                                    sr_result := Some step_result; sr_error := None;
                                    sr_duration := step_duration;
                                    sr_recovered := false |} ] in
     log_execution_step ("Step " +:+ str_of_nat (step_id step) +:+ " completed");;
     mret results)
    (λ e,
     now ← liftW time_time;
     let step_duration := nsub now step_start in
     recovery_result ← attempt_step_recovery step (exn_str e);
     match recovery_result with
     | Recovered result =>
         mret (results ++ [ {| sr_step_id := step_id step; sr_success := true;
                               sr_result := Some result; sr_error := None;
                               sr_duration := step_duration;
                               sr_recovered := true |} ])
     | NotRecovered _ =>
         raise (Exn PyException
                  ("Step " +:+ str_of_nat (step_id step) +:+
                   " failed and could not be recovered: " +:+ exn_str e))
     end).

Fixpoint monitor_steps (steps : list Step) (results : list StepResult)
    : M AState (list StepResult) :=
  match steps with
  | [] => mret results
  | step :: steps' =>
      results ← monitor_step step results;
      monitor_steps steps' results
  end.

(** The dictionary [execute_with_monitoring] returns after the loop. *)
Definition execution_summary (plan_id : option string) (results : list StepResult)
    : ExecResult :=
  {| er_plan_id := plan_id;
     er_steps_executed := length results;
     er_steps_successful := length (filter (λ r, sr_success r = true) results);
     er_total_duration := py_sum (sr_duration <$> results);
     er_step_results := results |}.

Definition execute_with_monitoring (plan : ExecutionPlan) : M AState ExecResult :=
  results ← monitor_steps (ep_steps plan) [];
  mret (execution_summary (ep_task_id plan) results).

Definition calculate_performance_impact (result : ExecResult) : M AState PerformanceImpact :=
  q ← py_div (num_of_nat 300) (er_total_duration result);
  mret {| execution_efficiency := nmin (num_of_nat 1) q;
          resource_usage := "normal";
          quality_score := if 0 <? er_steps_successful result
                           then num_of_nat 1 else num_of_nat 0 |}.

Definition generate_task_report (task : TaskDict) (result : ExecResult)
    (validation : Validation) : M AState Report :=
  a ← gets self;
  timestamp ← gets (λ s, datetime_now_iso (world s));
  impact ← calculate_performance_impact result;
  mret {| rp_agent_id := agent_id a;
          rp_agent_name := agent_name a;
          rp_task_id := td_id task;
          rp_task_description := td_description task;
          rp_execution_time := er_total_duration result;
          rp_success := v_valid validation;
          rp_steps_completed := er_steps_successful result;
          rp_validation_results := validation;
          rp_timestamp := timestamp;
          rp_performance_impact := impact |}.

Definition analyze_failure (error : string) : FailureAnalysis :=
  {| error_category := "execution_error";
     likely_causes := ["configuration_issue"; "network_timeout"; "permission_error"];
     severity := "medium";
     impact_assessment := "task_specific" |}.

Definition suggest_recovery_actions (error : string) : list string :=
  ["Retry with increased timeout"; "Verify configuration parameters";
   "Check network connectivity"; "Validate permissions"].

Definition handle_task_failure (task : TaskDict) (error : string) : M AState ErrorReport :=
  a ← gets self;
  timestamp ← gets (λ s, datetime_now_iso (world s));
  mret {| erp_agent_id := agent_id a;
          erp_task_id := td_id task;
          erp_error := error;
          erp_failure_analysis := analyze_failure error;
          erp_recovery_suggestions := suggest_recovery_actions error;
          erp_timestamp := timestamp |}.

(** Steps 1 to 4 of the [try] block of [process_task]: plan, execute,
    validate, report. *)
Definition process_task_stages (task : TaskDict) : M AState (ExecResult * Report) :=
  with_self (set_status PLANNING);;
  a ← gets self;
  let execution_plan := create_execution_plan a task in
  log_execution_step "Task planning completed";;
  with_self (set_status EXECUTING);;
  result ← execute_with_monitoring execution_plan;
  with_self (set_status VALIDATING);;
  a ← gets self;
  let validation_result := validate_execution (perform_agent_validation a) result in
  (if v_valid validation_result then mret tt
   else raise (Exn PyException
                 ("Validation failed: " +:+ repr_list (v_errors validation_result))));;
  with_self (set_status REPORTING);;
  report ← generate_task_report task result validation_result;
  mret (result, report).

(** The [try] block of [process_task]: the four stages, then step 5,
    update the metrics and notify the orchestrator. *)
Definition process_task_try (cb : option Callback) (task : TaskDict) (task_id : string)
    (start_time : Num) : M AState TaskResult :=
  '(result, report) ← process_task_stages task;
  now ← liftW time_time;
  let execution_time := nsub now start_time in
  with_self (λ a, set_metrics
                    (update_performance_metrics true execution_time (performance_metrics a)) a);;
  with_self (set_status COMPLETED);;
  with_self (append_completed task);;
  a ← gets self;
  notify cb (task_completed (agent_id a) task_id result report execution_time);;
  mret (TaskSuccess result report execution_time).

(** The [except Exception as e] block of [process_task]. *)
Definition process_task_except (cb : option Callback) (task : TaskDict) (task_id : string)
    (start_time : Num) (e : exn) : M AState TaskResult :=
  now ← liftW time_time;
  let execution_time := nsub now start_time in
  with_self (λ a, set_metrics
                    (update_performance_metrics false execution_time (performance_metrics a)) a);;
  with_self (set_status FAILED);;
  with_self (append_failed task);;
  error_report ← handle_task_failure task (exn_str e);
  a ← gets self;
  notify cb (task_failed (agent_id a) task_id (exn_str e) error_report execution_time);;
  mret (TaskFailure (exn_str e) error_report execution_time).

(** The [finally] block of [process_task]. *)
Definition process_task_finally (s : AState) : AState :=
  let a := set_current_task None (self s) in
  {| self := if decide (status a = FAILED) then a else set_status IDLE a;
     peer := peer s; world := world s |}.

Definition process_task (cb : option Callback) (task : TaskDict) : M AState TaskResult :=
  fresh ← liftW uuid4;
  let task_id := default fresh (td_id task) in
  with_self (set_current_task (Some task));;
  start_time ← liftW time_time;
  try_finally
    (try_except (process_task_try cb task task_id start_time)
                (process_task_except cb task task_id start_time))
    process_task_finally.

End Lifecycle.

(** ** orchestrator.py: data *)

Module DeploymentPhase.
Inductive t :=
  | INITIALIZATION | INFRASTRUCTURE | SERVICES | CONFIGURATION
  | VALIDATION | REPORTING | COMPLETED | FAILED.

Definition value (p : t) : string :=
  match p with
  | INITIALIZATION => "initialization"
  | INFRASTRUCTURE => "infrastructure"
  | SERVICES => "services"
  | CONFIGURATION => "configuration"
  | VALIDATION => "validation"
  | REPORTING => "reporting"
  | COMPLETED => "completed"
  | FAILED => "failed"
  end.
End DeploymentPhase.

Inductive OrchestrationStrategy := SEQUENTIAL | PARALLEL | HYBRID | ADAPTIVE.

(** A task of a phase.  The planner always sets ['id'] and ['agent'],
    which the orchestrator reads with [task['id']] and [task['agent']];
    the other keys are read with [get] and a default. *)
Record Task := {
  tk_id : string;
  tk_agent : string;
  tk_description : string;
  tk_priority : TaskPriority;
  tk_estimated_duration : option nat;
  tk_parameters : option Params;
  tk_dependencies : option (list string);
}.

(** The same dictionary, as the agent that receives it reads it. *)
Definition task_dict (t : Task) : TaskDict :=
  {| td_id := Some (tk_id t);
     td_description := Some (tk_description t);
     td_parameters := tk_parameters t;
     td_dependencies := tk_dependencies t |}.

(** A phase of a plan; [pc_parallel_execution] is
    [phase_config.get('parallel_execution', False)]. *)
Record PhaseConfig := {
  pc_phase : DeploymentPhase.t;
  pc_description : string;
  pc_tasks : list Task;
  pc_parallel_execution : bool;
}.

Record Plan := {
  pl_deployment_id : option string;
  pl_strategy : OrchestrationStrategy;
  pl_phases : list PhaseConfig;
  pl_dependencies : list (string * list string);
  pl_estimated_duration : nat;
  pl_parallel_groups : list (list string);
}.

Record ClientData := {
  cd_domain : option string;
  cd_email : option string;
  cd_project_name : option string;
  cd_client_name : option string;
  cd_server_ip : option string;
  cd_ssh_credentials : list (string * string);
  cd_cloudflare_token : option string;
  cd_services : list string;
  cd_configuration : list (string * string);
}.

(** A line of the orchestrator's log. *)
Inductive LogRecord :=
  | log_info (msg : string)
  | log_warning (msg : string)
  | log_error (msg : string)
  (** info: "Assigning task {task['id']} to agent {agent.name}" *)
  | log_assign (task_id agent_name : string).

(** The task ids of the assignments a log records, oldest first. *)
Definition assigned (log : list LogRecord) : list string :=
  omap (λ r, match r with log_assign id _ => Some id | _ => None end) log.

(** [max(...)] of a generator of integers; on no element it raises
    [ValueError] (the text of the message differs between Python
    versions). *)
Definition py_max {S} (l : list nat) : M S nat :=
  match l with
  | [] => raise (Exn PyValueError "max() arg is an empty sequence")
  | x :: l' => mret (foldl Nat.max x l')
  end.

Section Orchestrator.
Context `{H : Host}.

(** The value stored under a task id in a phase's [task_results]: what
    the agent returned, or [{'success': False, 'error': str(exception)}]. *)
Inductive TaskEntry :=
  | EntryResult (r : TaskResult)
  | EntryError (error : string).

(** [r.get('success', False)] *)
Definition entry_success (e : TaskEntry) : bool :=
  match e with
  | EntryResult r => tr_success r
  | EntryError _ => false
  end.

Record PhaseResult := {
  pr_phase : string;
  pr_parallel_execution : bool;
  pr_task_results : gmap string TaskEntry;
  pr_success : bool;
}.

(** [all(r.get('success', False) for r in results.values())] *)
Definition all_success (results : gmap string TaskEntry) : bool :=
  bool_decide (map_Forall (λ _ e, entry_success e = true) results).

Record Deployment := {
  d_id : string;
  d_request : Request;
  d_start_time : string;
  d_phase : DeploymentPhase.t;
  d_client_data : ClientData;
  d_task_results : list (string * PhaseResult);
  d_status : string;
  d_execution_plan : option Plan;
}.

Record OMetrics := {
  total_deployments : nat;
  successful_deployments : nat;
  failed_deployments : nat;
  average_deployment_time : Num;
  deployment_success_rate : Num;
}.

(** The [DevOpsOrchestrator] object.  [agents] is a dictionary that is
    iterated in insertion order. *)
Record Orchestrator := {
  agents : list (string * Agent);
  active_deployments : gmap string Deployment;
  current_phase : DeploymentPhase.t;
  agent_status : gmap string AgentStatus;
  orchestrator_log : list LogRecord;
  orchestrator_metrics : OMetrics;
}.

Record OState := { orch : Orchestrator; env : World }.

Record FinalReport := {
  fr_deployment_id : string;
  fr_client_data : ClientData;
  (** ['execution_summary']['phases_completed'] and ['success'] *)
  fr_phases_completed : nat;
  fr_success : bool;
  fr_phase_results : list (string * PhaseResult);
  fr_agent_reports : gmap string Report;
}.

Record FailureReport := {
  fl_deployment_id : string;
  fl_failure_time : string;
  fl_error : string;
  phase_at_failure : string;
  completed_phases : list string;
  fl_agent_status : gmap string AgentStatus;
  recovery_suggestions : list string;
  rollback_plan : list string;
}.

(** What [deploy_infrastructure] returns. *)
Inductive DeploymentResult :=
  | DeploymentSuccess (deployment_id : string) (execution_time : Num)
      (result : list (string * PhaseResult)) (final_report : FinalReport)
  | DeploymentFailure (deployment_id : string) (execution_time : Num)
      (error : string) (error_report : FailureReport).

Definition dr_success (r : DeploymentResult) : bool :=
  match r with DeploymentSuccess _ _ _ _ => true | DeploymentFailure _ _ _ _ => false end.

End Orchestrator.

(** ** orchestrator.py: planning *)

Section Planning.
Context {S : Type}.

Definition vopt (o : option string) : PyVal :=
  match o with Some s => VStr s | None => VNone end.

(** [process_client_data]: the client data, or [ValueError] when a
    required field is missing or falsy. *)
Definition process_client_data (request : Request) : M S ClientData :=
  let client_data :=
    {| cd_domain := rq_domain request;
       cd_email := rq_email request;
       cd_project_name := rq_project_name request;
       cd_client_name := rq_client_name request;
       cd_server_ip := rq_server_ip request;
       cd_ssh_credentials := default [] (rq_ssh_credentials request);
       cd_cloudflare_token := rq_cloudflare_token request;
       cd_services := default ["n8n"; "supabase"] (rq_services request);
       cd_configuration := default [] (rq_configuration request) |} in
  let required_fields :=
    [("domain", cd_domain client_data); ("email", cd_email client_data);
     ("project_name", cd_project_name client_data);
     ("server_ip", cd_server_ip client_data)] in
  let missing_fields := fst <$> filter (λ f, truthy (snd f) = false) required_fields in
  match missing_fields with
  | [] => mret client_data
  | _ => raise (Exn PyValueError ("Missing required fields: " +:+ repr_list missing_fields))
  end.

Definition plan_infrastructure_phase (request : Request) : PhaseConfig :=
  {| pc_phase := DeploymentPhase.INFRASTRUCTURE;
     pc_description := "Setup base server infrastructure";
     pc_tasks :=
       [ {| tk_id := "base_server_setup";
            tk_agent := "server_setup_agent";
            tk_description := "Setup Docker, Portainer, and Nginx Proxy Manager";
            tk_priority := CRITICAL;
            tk_estimated_duration := Some 300;
            tk_parameters :=
              Some [("server_ip", vopt (rq_server_ip request));
                    ("ssh_credentials",
                     match rq_ssh_credentials request with
                     | Some d => VDict d | None => VNone end);
                    ("install_docker", VBool true);
                    ("install_portainer", VBool true);
                    ("install_nginx_proxy", VBool true)];
            tk_dependencies := None |} ];
     pc_parallel_execution := false |}.

Definition n8n_task (request : Request) : Task :=
  {| tk_id := "n8n_deployment";
     tk_agent := "n8n_agent";
     tk_description := "Deploy N8N workflow automation platform";
     tk_priority := HIGH;
     tk_estimated_duration := Some 600;
     tk_parameters :=
       Some [("domain", vopt (rq_domain request));
             ("email", vopt (rq_email request));
             ("database_type", VStr "postgres");
             ("async_execution", VBool true)];
     tk_dependencies := None |}.

Definition supabase_task (request : Request) : Task :=
  {| tk_id := "supabase_deployment";
     tk_agent := "supabase_agent";
     tk_description := "Deploy Supabase backend platform";
     tk_priority := HIGH;
     tk_estimated_duration := Some 600;
     tk_parameters :=
       Some [("domain", vopt (rq_domain request));
             ("email", vopt (rq_email request));
             ("generate_keys", VBool true);
             ("async_execution", VBool true)];
     tk_dependencies := None |}.

Definition plan_services_phase (request : Request) : PhaseConfig :=
  let services := default [] (rq_services request) in
  let tasks := [] in
  let tasks := if bool_decide ("n8n" ∈ services) then tasks ++ [n8n_task request] else tasks in
  let tasks := if bool_decide ("supabase" ∈ services)
               then tasks ++ [supabase_task request] else tasks in
  {| pc_phase := DeploymentPhase.SERVICES;
     pc_description := "Deploy core services in parallel";
     pc_tasks := tasks;
     pc_parallel_execution := true |}.

Definition plan_configuration_phase (request : Request) : PhaseConfig :=
  {| pc_phase := DeploymentPhase.CONFIGURATION;
     pc_description := "Configure DNS and proxy settings";
     pc_tasks :=
       [ {| tk_id := "dns_configuration";
            tk_agent := "dns_agent";
            tk_description := "Create DNS records and subdomains";
            tk_priority := HIGH;
            tk_estimated_duration := Some 180;
            tk_parameters :=
              Some [("domain", vopt (rq_domain request));
                    ("server_ip", vopt (rq_server_ip request));
                    ("cloudflare_token", vopt (rq_cloudflare_token request));
                    ("services", VStrList (default [] (rq_services request)))];
            tk_dependencies := None |};
         {| tk_id := "proxy_configuration";
            tk_agent := "proxy_agent";
            tk_description := "Configure Nginx proxy hosts and SSL";
            tk_priority := HIGH;
            tk_estimated_duration := Some 240;
            tk_parameters :=
              Some [("domain", vopt (rq_domain request));
                    ("services", VStrList (default [] (rq_services request)));
                    ("ssl_enabled", VBool true)];
            tk_dependencies := Some ["dns_configuration"] |} ];
     pc_parallel_execution := false |}.

Definition plan_validation_phase (request : Request) : PhaseConfig :=
  {| pc_phase := DeploymentPhase.VALIDATION;
     pc_description := "Validate all services and configurations";
     pc_tasks :=
       [ {| tk_id := "system_validation";
            tk_agent := "validator_agent";
            tk_description := "Comprehensive system validation";
            tk_priority := CRITICAL;
            tk_estimated_duration := Some 300;
            tk_parameters :=
              Some [("services", VStrList (default [] (rq_services request)));
                    ("domain", vopt (rq_domain request));
                    ("validate_ssl", VBool true);
                    ("validate_dns", VBool true);
                    ("validate_services", VBool true)];
            tk_dependencies := None |} ];
     pc_parallel_execution := false |}.

Definition plan_reporting_phase (request : Request) : PhaseConfig :=
  {| pc_phase := DeploymentPhase.REPORTING;
     pc_description := "Generate comprehensive deployment report";
     pc_tasks :=
       [ {| tk_id := "final_report";
            tk_agent := "reporter_agent";
            tk_description := "Create final client report";
            tk_priority := MEDIUM;
            tk_estimated_duration := Some 120;
            tk_parameters :=
              Some [("client_data", VRequest request);
                    ("include_credentials", VBool true);
                    ("include_maintenance_guide", VBool true);
                    ("format", VStr "markdown")];
            tk_dependencies := None |} ];
     pc_parallel_execution := false |}.

Definition determine_optimal_strategy (request : Request) : OrchestrationStrategy :=
  let service_count := length (default [] (rq_services request)) in
  let complexity_score := service_count + length (default [] (rq_configuration request)) in
  if 10 <? complexity_score then ADAPTIVE
  else if 5 <? complexity_score then HYBRID
  else PARALLEL.

Definition calculate_task_dependencies (phases : list PhaseConfig)
    : list (string * list string) :=
  foldl (λ dependencies phase,
           foldl (λ dependencies task,
                    dict_set (tk_id task) (default [] (tk_dependencies task)) dependencies)
                 dependencies (pc_tasks phase))
        [] phases.

Definition identify_parallel_groups (phases : list PhaseConfig) : list (list string) :=
  (λ phase, tk_id <$> pc_tasks phase) <$> filter (λ phase, pc_parallel_execution phase = true) phases.

(** The loop of [estimate_total_duration], from the running total. *)
Fixpoint estimate_phases (phases : list PhaseConfig) (total_duration : nat) : M S nat :=
  match phases with
  | [] => mret total_duration
  | phase :: phases' =>
      let durations := (λ task, default 0 (tk_estimated_duration task)) <$> pc_tasks phase in
      phase_duration ← (if pc_parallel_execution phase
                        then py_max durations
                        else mret (foldl Nat.add 0 durations));
      estimate_phases phases' (total_duration + phase_duration)
  end.

Definition estimate_total_duration (phases : list PhaseConfig) : M S nat :=
  estimate_phases phases 0.

Definition create_master_execution_plan (request : Request) : M S Plan :=
  let strategy := determine_optimal_strategy request in
  let phases := [] in
  let phases := phases ++ [plan_infrastructure_phase request] in
  let phases := phases ++ [plan_services_phase request] in
  let phases := phases ++ [plan_configuration_phase request] in
  let phases := phases ++ [plan_validation_phase request] in
  let phases := phases ++ [plan_reporting_phase request] in
  let dependencies := calculate_task_dependencies phases in
  let parallel_groups := identify_parallel_groups phases in
  estimated_duration ← estimate_total_duration phases;
  mret {| pl_deployment_id := rq_deployment_id request;
          pl_strategy := strategy;
          pl_phases := phases;
          pl_dependencies := dependencies;
          pl_estimated_duration := estimated_duration;
          pl_parallel_groups := parallel_groups |}.

End Planning.

(** ** ai_devops_orchestrator.py: request validation *)

(** A key of the dictionary a caller passes to [AIDevOpsTeam]: absent,
    present with the value [None], or present with a value;
    [request.get(key, default)] tells the first two apart. *)
Inductive Slot (A : Type) :=
  | Absent
  | HoldsNone
  | Holds (a : A).
Arguments Absent {A}.
Arguments HoldsNone {A}.
Arguments Holds {A} a.

(** [request.get(key)] and [request.get(key, default)]; the result [None]
    is Python's [None]. *)
Definition slot_get {A} (slot : Slot A) : option A :=
  match slot with
  | Holds a => Some a
  | Absent | HoldsNone => None
  end.

Definition slot_get_or {A} (default : A) (slot : Slot A) : option A :=
  match slot with
  | Absent => Some default
  | HoldsNone => None
  | Holds a => Some a
  end.

(** The key of a dictionary literal ['key': value], whose value may be
    [None]. *)
Definition slot_of {A} (value : option A) : Slot A :=
  match value with
  | Some a => Holds a
  | None => HoldsNone
  end.

Record RequestDict := {
  rd_domain : Slot string;
  rd_email : Slot string;
  rd_project_name : Slot string;
  rd_client_name : Slot string;
  rd_server_ip : Slot string;
  rd_ssh_credentials : Slot (list (string * string));
  rd_cloudflare_token : Slot string;
  rd_services : Slot (list string);
  rd_configuration : Slot (list (string * string));
  rd_deployment_id : Slot string;
}.

(** [AIDevOpsTeam.validate_deployment_request]; [today] and [now] are the
    two [strftime] strings it uses for the defaults.  The subscripts
    [request['domain']], [request['email']] and [request['server_ip']] are
    reached only when these keys hold a non-empty value. *)
Definition validate_deployment_request {S} (today now : string) (request : RequestDict)
    : M S RequestDict :=
  let required_fields :=
    [("domain", slot_get (rd_domain request)); ("email", slot_get (rd_email request));
     ("server_ip", slot_get (rd_server_ip request))] in
  let missing_fields := fst <$> filter (λ f, truthy (snd f) = false) required_fields in
  match missing_fields with
  | [] =>
      mret {| rd_domain := slot_of (slot_get (rd_domain request));
              rd_email := slot_of (slot_get (rd_email request));
              rd_server_ip := slot_of (slot_get (rd_server_ip request));
              rd_project_name :=
                slot_of (slot_get_or ("project_" +:+ today) (rd_project_name request));
              rd_client_name :=
                slot_of (slot_get_or "Default Client" (rd_client_name request));
              rd_services :=
                slot_of (slot_get_or ["n8n"; "supabase"] (rd_services request));
              rd_ssh_credentials := slot_of (slot_get_or [] (rd_ssh_credentials request));
              rd_cloudflare_token := slot_of (slot_get (rd_cloudflare_token request));
              rd_configuration := slot_of (slot_get_or [] (rd_configuration request));
              rd_deployment_id :=
                slot_of (slot_get_or ("deploy_" +:+ now) (rd_deployment_id request)) |}
  | _ => raise (Exn PyValueError ("Missing required fields: " +:+ repr_list missing_fields))
  end.

(** The dictionary that has the keys a [Request] has. *)
Definition slot_if_present {A} (value : option A) : Slot A :=
  match value with
  | Some a => Holds a
  | None => Absent
  end.

Definition request_dict (request : Request) : RequestDict :=
  {| rd_domain := slot_if_present (rq_domain request);
     rd_email := slot_if_present (rq_email request);
     rd_project_name := slot_if_present (rq_project_name request);
     rd_client_name := slot_if_present (rq_client_name request);
     rd_server_ip := slot_if_present (rq_server_ip request);
     rd_ssh_credentials := slot_if_present (rq_ssh_credentials request);
     rd_cloudflare_token := slot_if_present (rq_cloudflare_token request);
     rd_services := slot_if_present (rq_services request);
     rd_configuration := slot_if_present (rq_configuration request);
     rd_deployment_id := slot_if_present (rq_deployment_id request) |}.

(** A dictionary as the orchestrator reads it (see [Request]); there is
    none when services, ssh_credentials or configuration holds [None]. *)
Definition orchestrator_request (request : RequestDict) : option Request :=
  match rd_ssh_credentials request, rd_services request, rd_configuration request with
  | HoldsNone, _, _ | _, HoldsNone, _ | _, _, HoldsNone => None
  | _, _, _ =>
      Some {| rq_domain := slot_get (rd_domain request);
              rq_email := slot_get (rd_email request);
              rq_project_name := slot_get (rd_project_name request);
              rq_client_name := slot_get (rd_client_name request);
              rq_server_ip := slot_get (rd_server_ip request);
              rq_ssh_credentials := slot_get (rd_ssh_credentials request);
              rq_cloudflare_token := slot_get (rd_cloudflare_token request);
              rq_services := slot_get (rd_services request);
              rq_configuration := slot_get (rd_configuration request);
              rq_deployment_id := slot_get (rd_deployment_id request) |}
  end.

(** ** orchestrator.py: execution *)

Section Execution.
Context `{H : Host}.

(** The part of the orchestrator its [handle_agent_callback] acts on. *)
Definition Board : Type := gmap string AgentStatus * list LogRecord.

Definition set_agents (ags : list (string * Agent)) (o : Orchestrator) : Orchestrator :=
  {| agents := ags; active_deployments := active_deployments o;
     current_phase := current_phase o; agent_status := agent_status o;
     orchestrator_log := orchestrator_log o;
     orchestrator_metrics := orchestrator_metrics o |}.

Definition set_active_deployments (ds : gmap string Deployment) (o : Orchestrator)
    : Orchestrator :=
  {| agents := agents o; active_deployments := ds;
     current_phase := current_phase o; agent_status := agent_status o;
     orchestrator_log := orchestrator_log o;
     orchestrator_metrics := orchestrator_metrics o |}.

Definition set_current_phase (p : DeploymentPhase.t) (o : Orchestrator) : Orchestrator :=
  {| agents := agents o; active_deployments := active_deployments o;
     current_phase := p; agent_status := agent_status o;
     orchestrator_log := orchestrator_log o;
     orchestrator_metrics := orchestrator_metrics o |}.

Definition set_board (b : Board) (o : Orchestrator) : Orchestrator :=
  {| agents := agents o; active_deployments := active_deployments o;
     current_phase := current_phase o; agent_status := fst b;
     orchestrator_log := snd b;
     orchestrator_metrics := orchestrator_metrics o |}.

Definition set_agent_status (id : string) (st : AgentStatus) (o : Orchestrator)
    : Orchestrator :=
  set_board (<[id := st]> (agent_status o), orchestrator_log o) o.

Definition add_log (r : LogRecord) (o : Orchestrator) : Orchestrator :=
  set_board (agent_status o, orchestrator_log o ++ [r]) o.

Definition set_orchestrator_metrics (m : OMetrics) (o : Orchestrator) : Orchestrator :=
  {| agents := agents o; active_deployments := active_deployments o;
     current_phase := current_phase o; agent_status := agent_status o;
     orchestrator_log := orchestrator_log o;
     orchestrator_metrics := m |}.

Definition with_orch (f : Orchestrator → Orchestrator) : M OState unit :=
  modify (λ s, {| orch := f (orch s); env := env s |}).

Definition liftOW {A} (f : World → A * World) : M OState A :=
  λ s, let '(a, w) := f (env s) in (Return a, {| orch := orch s; env := w |}).

Definition liftOE {A} (f : World → Exc A * World) : M OState A :=
  λ s, let '(r, w) := f (env s) in (r, {| orch := orch s; env := w |}).

Definition log (r : LogRecord) : M OState unit := with_orch (add_log r).

(** [handle_agent_callback] on the two events of [process_task], with
    [handle_task_completion], [handle_task_failure] and
    [handle_task_recovery] inlined. *)
Definition handle_agent_callback : Callback (C := Board) :=
  λ ev '((st, lg), w),
    match ev with
    | task_completed agent task_id _ _ _ =>
        (Return tt,
         ((<[agent := IDLE]> st,
           lg ++ [log_info ("Task " +:+ task_id +:+ " completed by agent " +:+ agent)]), w))
    | task_failed agent task_id error _ _ =>
        (Return tt,
         ((<[agent := FAILED]> st,
           lg ++ [log_error ("Task " +:+ task_id +:+ " failed on agent " +:+ agent +:+
                             ": " +:+ error);
                  log_warning ("Task recovery needed: " +:+ task_id)]), w))
    end.

(** [register_agent]; the callback it installs on the agent is
    [handle_agent_callback], which [execute_agent_task] passes on. *)
Definition register_agent (agent : Agent) (o : Orchestrator) : Orchestrator :=
  add_log (log_info ("Registered agent: " +:+ agent_name agent +:+
                     " (" +:+ agent_id agent +:+ ")"))
    (set_agent_status (agent_id agent) IDLE
       (set_agents (dict_set (agent_id agent) agent (agents o)) o)).

Definition type_mapping : list (string * string) :=
  [("server_setup_agent", "server_setup");
   ("n8n_agent", "n8n_deployment");
   ("supabase_agent", "supabase_deployment");
   ("dns_agent", "dns_manager");
   ("proxy_agent", "proxy_configurator");
   ("validator_agent", "system_validator");
   ("reporter_agent", "final_reporter")].

Definition find_agent_by_type (o : Orchestrator) (type : string) : option string :=
  let target_type := default type (dict_get type type_mapping) in
  fst <$> find (λ '(id, agent),
                  bool_decide (agent_type agent = Some target_type)
                  || is_substring target_type (lower (agent_name agent)))
               (agents o).

Definition check_task_dependencies (task : Task) (completed_tasks : gmap string TaskEntry)
    : bool :=
  forallb (λ dep, match completed_tasks !! dep with
                  | None => false
                  | Some r => entry_success r
                  end)
          (default [] (tk_dependencies task)).

(** [await agent.process_task(task)] for the agent object stored under
    [id]: runs on that object, the orchestrator's board and the world, and
    leaves the mutated object in the registry. *)
Definition call_process_task (id : string) (agent : Agent) (task : Task)
    : M OState TaskResult :=
  λ s, let o := orch s in
       let '(r, s') := process_task (Some handle_agent_callback) (task_dict task)
                         {| self := agent;
                            peer := (agent_status o, orchestrator_log o);
                            world := env s |} in
       (r, {| orch := set_agents (dict_set id (self s') (agents o)) (set_board (peer s') o);
              env := world s' |}).

Definition execute_agent_task (id : string) (task : Task) : M OState TaskResult :=
  o ← gets orch;
  match dict_get id (agents o) with
  | None => raise (Exn PyException ("Agent " +:+ id +:+ " not found"))
  | Some agent =>
      log (log_assign (tk_id task) (agent_name agent));;
      with_orch (set_agent_status id EXECUTING);;
      try_except
        (result ← call_process_task id agent task;
         with_orch (set_agent_status id IDLE);;
         mret result)
        (λ e, with_orch (set_agent_status id FAILED);; raise e)
  end.

(** [asyncio.gather] with [return_exceptions=True]: every
    coroutine runs, and what it returns or raises is collected. *)
Fixpoint gather (coroutines : list (string * Task)) : M OState (list (Exc TaskResult)) :=
  match coroutines with
  | [] => mret []
  | (id, task) :: coroutines' =>
      r ← (λ s, let '(r, s') := execute_agent_task id task s in (Return r, s'));
      rs ← gather coroutines';
      mret (r :: rs)
  end.

(** The entry stored for one gathered result. *)
Definition entry_of (r : Exc TaskResult) : TaskEntry :=
  match r with
  | Raise e => EntryError (exn_str e)
  | Return result => EntryResult result
  end.

(** The coroutines [execute_parallel_phase] creates: one for each task
    whose agent is found ([if agent_id:]). *)
Definition task_coroutines (o : Orchestrator) (tasks : list Task) : list (string * Task) :=
  omap (λ task, match find_agent_by_type o (tk_agent task) with
                | Some id => if truthy (Some id) then Some (id, task) else None
                | None => None
                end) tasks.

(** The "Process results" loop: the i-th gathered result is stored under
    the id of the i-th task of the phase. *)
Definition collect_results (tasks : list Task) (task_results : list (Exc TaskResult))
    : gmap string TaskEntry :=
  foldl (λ results '(task, result), <[tk_id task := entry_of result]> results)
        ∅ (zip tasks task_results).

Definition execute_parallel_phase (deployment_id : string) (phase_config : PhaseConfig)
    : M OState PhaseResult :=
  let tasks := pc_tasks phase_config in
  o ← gets orch;
  task_results ← gather (task_coroutines o tasks);
  let results := collect_results tasks task_results in
  mret {| pr_phase := DeploymentPhase.value (pc_phase phase_config);
          pr_parallel_execution := true;
          pr_task_results := results;
          pr_success := all_success results |}.

(** The [for task in tasks] loop of [execute_sequential_phase]. *)
Fixpoint sequential_tasks (tasks : list Task) (results : gmap string TaskEntry)
    : M OState (gmap string TaskEntry) :=
  match tasks with
  | [] => mret results
  | task :: tasks' =>
      (if check_task_dependencies task results then mret tt
       else raise (Exn PyException ("Dependencies not met for task " +:+ tk_id task)));;
      o ← gets orch;
      match find_agent_by_type o (tk_agent task) with
      | Some id =>
          if truthy (Some id) then
            task_result ← execute_agent_task id task;
            let results := <[tk_id task := EntryResult task_result]> results in
            match task_result with
            | TaskSuccess _ _ _ => sequential_tasks tasks' results
            | TaskFailure error _ _ =>
                raise (Exn PyException
                         ("Task " +:+ tk_id task +:+ " failed: " +:+ error))
            end
          else raise (Exn PyException ("No agent found for type " +:+ tk_agent task))
      | None => raise (Exn PyException ("No agent found for type " +:+ tk_agent task))
      end
  end.

Definition execute_sequential_phase (deployment_id : string) (phase_config : PhaseConfig)
    : M OState PhaseResult :=
  results ← sequential_tasks (pc_tasks phase_config) ∅;
  mret {| pr_phase := DeploymentPhase.value (pc_phase phase_config);
          pr_parallel_execution := false;
          pr_task_results := results;
          pr_success := true |}.

Definition set_deployment_phase (p : DeploymentPhase.t) (d : Deployment) : Deployment :=
  {| d_id := d_id d; d_request := d_request d; d_start_time := d_start_time d;
     d_phase := p; d_client_data := d_client_data d;
     d_task_results := d_task_results d; d_status := d_status d;
     d_execution_plan := d_execution_plan d |}.

Definition set_deployment_result (k : string) (r : PhaseResult) (d : Deployment)
    : Deployment :=
  {| d_id := d_id d; d_request := d_request d; d_start_time := d_start_time d;
     d_phase := d_phase d; d_client_data := d_client_data d;
     d_task_results := dict_set k r (d_task_results d); d_status := d_status d;
     d_execution_plan := d_execution_plan d |}.

Definition set_deployment_plan (p : Plan) (d : Deployment) : Deployment :=
  {| d_id := d_id d; d_request := d_request d; d_start_time := d_start_time d;
     d_phase := d_phase d; d_client_data := d_client_data d;
     d_task_results := d_task_results d; d_status := d_status d;
     d_execution_plan := Some p |}.

(** A mutation of the deployment object stored under [deployment_id]. *)
Definition with_deployment (deployment_id : string) (f : Deployment → Deployment)
    : M OState unit :=
  with_orch (λ o, set_active_deployments (alter f deployment_id (active_deployments o)) o).

(** The [for phase_config in plan['phases']] loop of
    [execute_deployment_phases]. *)
Fixpoint deployment_phases (deployment_id : string) (phases : list PhaseConfig)
    (results : list (string * PhaseResult)) : M OState (list (string * PhaseResult)) :=
  match phases with
  | [] => mret results
  | phase_config :: phases' =>
      let phase := pc_phase phase_config in
      with_orch (set_current_phase phase);;
      with_deployment deployment_id (set_deployment_phase phase);;
      log (log_info ("Starting phase: " +:+ DeploymentPhase.value phase));;
      results ← try_except
        (phase_result ← (if pc_parallel_execution phase_config
                         then execute_parallel_phase deployment_id phase_config
                         else execute_sequential_phase deployment_id phase_config);
         let results := dict_set (DeploymentPhase.value phase) phase_result results in
         with_deployment deployment_id
           (set_deployment_result (DeploymentPhase.value phase) phase_result);;
         log (log_info ("Phase " +:+ DeploymentPhase.value phase +:+
                        " completed successfully"));;
         mret results)
        (λ e,
         log (log_error ("Phase " +:+ DeploymentPhase.value phase +:+ " failed: " +:+
                         exn_str e));;
         raise (Exn PyException
                  ("Deployment failed in phase " +:+ DeploymentPhase.value phase +:+
                   ": " +:+ exn_str e)));
      deployment_phases deployment_id phases' results
  end.

Definition execute_deployment_phases (deployment_id : string) (plan : Plan)
    : M OState (list (string * PhaseResult)) :=
  o ← gets orch;
  match active_deployments o !! deployment_id with
  | None => raise (Exn PyKeyError (repr_str deployment_id))
  | Some _ => deployment_phases deployment_id (pl_phases plan) []
  end.

End Execution.

(** ** orchestrator.py: a whole deployment *)

Section Deployment.
Context `{H : Host}.

Definition create_client_data_file (deployment_id : string) (client_data : ClientData)
    : M OState unit :=
  let file_path := "reports/client_data_" +:+ deployment_id +:+ ".json" in
  liftOE (write_json file_path);;
  log (log_info ("Created client data file: " +:+ file_path)).

Definition initialize_deployment (deployment_id : string) (request : Request)
    : M OState Deployment :=
  start_time ← gets (λ s, datetime_now_iso (env s));
  client_data ← process_client_data request;
  let deployment :=
    {| d_id := deployment_id; d_request := request; d_start_time := start_time;
       d_phase := DeploymentPhase.INITIALIZATION; d_client_data := client_data;
       d_task_results := []; d_status := "initializing"; d_execution_plan := None |} in
  create_client_data_file deployment_id client_data;;
  mret deployment.

(** The agent reports [generate_final_report] extracts: one for every
    task result that has a ['report'] key. *)
Definition collect_agent_reports (results : list (string * PhaseResult))
    : gmap string Report :=
  foldl (λ agent_reports '(_, phase_result),
           map_fold (λ task_id task_result agent_reports,
                       match task_result with
                       | EntryResult (TaskSuccess _ report _) =>
                           <[task_id := report]> agent_reports
                       | _ => agent_reports
                       end)
                    agent_reports (pr_task_results phase_result))
        ∅ results.

(** [generate_final_report]; the blocks of fixed text it adds (service
    credentials, access information, maintenance and troubleshooting
    guides) are left out. *)
Definition generate_final_report (deployment_id : string)
    (results : list (string * PhaseResult)) : M OState FinalReport :=
  o ← gets orch;
  match active_deployments o !! deployment_id with
  | None => raise (Exn PyKeyError (repr_str deployment_id))
  | Some deployment =>
      let final_report :=
        {| fr_deployment_id := deployment_id;
           fr_client_data := d_client_data deployment;
           fr_phases_completed := length results;
           fr_success := forallb (λ r, pr_success (snd r)) results;
           fr_phase_results := results;
           fr_agent_reports := collect_agent_reports results |} in
      liftOE (write_json ("reports/final_report_" +:+ deployment_id +:+ ".json"));;
      mret final_report
  end.

Definition generate_recovery_suggestions (error : string) : list string :=
  ["Review error logs for specific failure points";
   "Verify server connectivity and credentials";
   "Check service dependencies and prerequisites";
   "Retry deployment with corrected parameters";
   "Contact support with deployment ID and error details"].

Definition generate_rollback_plan (deployment_id : string) : list string :=
  ["Stop all running Docker containers";
   "Remove created DNS records";
   "Clean up temporary files and configurations";
   "Restore server to pre-deployment state";
   "Document lessons learned for future deployments"].

Definition handle_deployment_failure (deployment_id error : string) (s : OState)
    : FailureReport :=
  let o := orch s in
  {| fl_deployment_id := deployment_id;
     fl_failure_time := datetime_now_iso (env s);
     fl_error := error;
     phase_at_failure := DeploymentPhase.value (current_phase o);
     completed_phases :=
       match active_deployments o !! deployment_id with
       | Some deployment => fst <$> d_task_results deployment
       | None => []
       end;
     fl_agent_status := agent_status o;
     recovery_suggestions := generate_recovery_suggestions error;
     rollback_plan := generate_rollback_plan deployment_id |}.

(** The orchestrator's own [update_performance_metrics]. *)
Definition update_deployment_metrics (success : bool) (execution_time : Num) (m : OMetrics)
    : OMetrics :=
  let total := S (total_deployments m) in
  let successful := if success then S (successful_deployments m)
                    else successful_deployments m in
  {| total_deployments := total;
     successful_deployments := successful;
     failed_deployments := if success then failed_deployments m
                           else S (failed_deployments m);
     average_deployment_time :=
       ndiv (nadd (nmul (average_deployment_time m) (num_of_nat (total - 1))) execution_time)
            (num_of_nat total);
     deployment_success_rate := ndiv (num_of_nat successful) (num_of_nat total) |}.

(** The [try] block of [deploy_infrastructure]. *)
Definition deploy_infrastructure_try (deployment_id : string) (start_time : Num)
    (deployment_request : Request) : M OState DeploymentResult :=
  log (log_info ("Starting deployment " +:+ deployment_id));;
  deployment ← initialize_deployment deployment_id deployment_request;
  with_orch (λ o, set_active_deployments
                    (<[deployment_id := deployment]> (active_deployments o)) o);;
  execution_plan ← create_master_execution_plan deployment_request;
  with_deployment deployment_id (set_deployment_plan execution_plan);;
  result ← execute_deployment_phases deployment_id execution_plan;
  final_report ← generate_final_report deployment_id result;
  now ← liftOW time_time;
  let execution_time := nsub now start_time in
  with_orch (λ o, set_orchestrator_metrics
                    (update_deployment_metrics true execution_time (orchestrator_metrics o)) o);;
  log (log_info ("Deployment " +:+ deployment_id +:+ " completed successfully"));;
  mret (DeploymentSuccess deployment_id execution_time result final_report).

(** The [except Exception as e] block of [deploy_infrastructure]. *)
Definition deploy_infrastructure_except (deployment_id : string) (start_time : Num)
    (e : exn) : M OState DeploymentResult :=
  now ← liftOW time_time;
  let execution_time := nsub now start_time in
  with_orch (λ o, set_orchestrator_metrics
                    (update_deployment_metrics false execution_time (orchestrator_metrics o)) o);;
  error_report ← gets (handle_deployment_failure deployment_id (exn_str e));
  log (log_error ("Deployment " +:+ deployment_id +:+ " failed: " +:+ exn_str e));;
  mret (DeploymentFailure deployment_id execution_time (exn_str e) error_report).

Definition deploy_infrastructure (deployment_request : Request) : M OState DeploymentResult :=
  deployment_id ← liftOW uuid4;
  start_time ← liftOW time_time;
  try_except (deploy_infrastructure_try deployment_id start_time deployment_request)
             (deploy_infrastructure_except deployment_id start_time).

(** [DevOpsOrchestrator.__init__] *)
Definition new_orchestrator : Orchestrator :=
  {| agents := []; active_deployments := ∅;
     current_phase := DeploymentPhase.INITIALIZATION;
     agent_status := ∅; orchestrator_log := [];
     orchestrator_metrics :=
       {| total_deployments := 0; successful_deployments := 0; failed_deployments := 0;
          average_deployment_time := num_of_nat 0;
          deployment_success_rate := num_of_nat 0 |} |}.

End Deployment.

(** ** orchestrator.py: status updates *)

(** [AgentStatus.value] and the lookup [AgentStatus(value)], which is
    [None] where Python raises [ValueError]. *)
Definition agent_status_value (st : AgentStatus) : string :=
  match st with
  | IDLE => "idle" | PLANNING => "planning" | EXECUTING => "executing"
  | VALIDATING => "validating" | REPORTING => "reporting" | COMPLETED => "completed"
  | FAILED => "failed" | WAITING => "waiting"
  end.

Definition agent_status_of_value (v : string) : option AgentStatus :=
  find (λ st, String.eqb (agent_status_value st) v)
       [IDLE; PLANNING; EXECUTING; VALIDATING; REPORTING; COMPLETED; FAILED; WAITING].

(** [handle_status_update] on [{'agent_id': ..., 'status': ...}], either
    key possibly absent. *)
Definition handle_status_update `{H : Host} (agent_id status : option string)
    : M OState unit :=
  if truthy agent_id && truthy status then
    match agent_status_of_value (default "" status) with
    | Some st => with_orch (set_agent_status (default "" agent_id) st)
    | None => raise (Exn PyValueError
                       (repr_str (default "" status) +:+ " is not a valid AgentStatus"))
    end
  else mret tt.

(** ** ai_devops_orchestrator.py: the services a report lists *)

(** The chain of [if 'n8n' in task_id: ... elif ...] of
    [extract_deployed_services]. *)
Definition deployed_service (task_id : string) : option string :=
  if is_substring "n8n" task_id then Some "N8N Workflow Automation"
  else if is_substring "supabase" task_id then Some "Supabase Backend Platform"
  else if is_substring "portainer" task_id then Some "Portainer Container Management"
  else if is_substring "nginx" task_id || is_substring "proxy" task_id
       then Some "Nginx Proxy Manager"
  else None.

(** [extract_deployed_services]; it returns [list(set(...))], a list in
    no particular order, which is a set here. *)
Definition extract_deployed_services `{H : Host} (final_report : FinalReport)
    : gset string :=
  foldl (λ deployed_services '(_, phase_result),
           if pr_success phase_result then
             map_fold (λ task_id task_result deployed_services,
                         if entry_success task_result then
                           match deployed_service task_id with
                           | Some service => {[service]} ∪ deployed_services
                           | None => deployed_services
                           end
                         else deployed_services)
                      deployed_services (pr_task_results phase_result)
           else deployed_services)
        ∅ (fr_phase_results final_report).

(** ** core/ai_integration.py: the decision history *)

(** [l[-n:]] for an integer [n >= 0]: the last [n] elements, and the
    whole list for [n = 0]. *)
Definition py_last {A} (n : nat) (l : list A) : list A :=
  if n =? 0 then l else drop (length l - n) l.

Section DecisionHistory.
(** What a decision record carries besides the agent id (timestamp,
    context, decision). *)
Context {D : Type}.

Record DecisionRecord := { dr_agent_id : string; dr_payload : D }.

(** The two fields of [AIIntegration] that [update_decision_history]
    maintains; an agent context is its list of decisions. *)
Record Decisions := {
  decision_history : list DecisionRecord;
  agent_contexts : gmap string (list DecisionRecord);
}.

Definition update_decision_history (agent_id : string) (payload : D) (st : Decisions)
    : Decisions :=
  let decision_record := {| dr_agent_id := agent_id; dr_payload := payload |} in
  let history := decision_history st ++ [decision_record] in
  let history := if 100 <? length history then py_last 100 history else history in
  let decisions := default [] (agent_contexts st !! agent_id) ++ [decision_record] in
  let decisions := if 20 <? length decisions then py_last 20 decisions else decisions in
  {| decision_history := history;
     agent_contexts := <[agent_id := decisions]> (agent_contexts st) |}.


End DecisionHistory.

(** ** A concrete host, to run the embedding on *)

Module Demo.

(** A clock and a count of the capability calls made so far. *)
Record DemoWorld := { clock : nat; attempts : nat }.

Definition qnum (n : nat) : Q := inject_Z (Z.of_nat n).

Section WithRate.
(** The clock advances by [rate] seconds at every reading and whenever a
    capability runs; with [rate = 0] it stands still. *)
Variable rate : nat.

Definition tick (n : nat) (w : DemoWorld) : DemoWorld :=
  {| clock := clock w + n * rate; attempts := attempts w |}.

#[local] Instance host : Host := {|
  World := DemoWorld;
  Num := Q;
  Value := string;
  num_of_nat := qnum;
  nadd := λ a b, Qred (Qplus a b);
  nsub := λ a b, Qred (Qminus a b);
  nmul := λ a b, Qred (Qmult a b);
  ndiv := λ a b, Qred (Qdiv a b);
  nmin := λ a b, if Qle_bool a b then a else b;
  is_zero := λ a, Qeq_bool a 0;
  time_time := λ w, (qnum (clock w), tick 1 w);
  datetime_now_iso := λ w, "T" +:+ str_of_nat (clock w);
  asyncio_sleep := tick;
  uuid4 := λ w, ("uuid-" +:+ str_of_nat (clock w), w);
  write_json := λ _ w, (Return tt, w);
|}.

Definition called (w : DemoWorld) : DemoWorld :=
  {| clock := clock w + rate; attempts := attempts w + 1 |}.

(** Capabilities: one that returns, one that raises, one that raises on
    the first call made in the world and returns afterwards. *)
Definition succeeds (v : string) (p : Params) (w : DemoWorld) : Exc string * DemoWorld :=
  (Return v, called w).

Definition fails (msg : string) (p : Params) (w : DemoWorld) : Exc string * DemoWorld :=
  (Raise (Exn PyException msg), called w).

Definition flaky (v : string) (p : Params) (w : DemoWorld) : Exc string * DemoWorld :=
  if attempts w =? 0 then (Raise (Exn PyException "connection refused"), called w)
  else (Return v, called w).

(** Raises on the first two calls made in the world. *)
Definition fails_twice (v : string) (p : Params) (w : DemoWorld) : Exc string * DemoWorld :=
  if attempts w <? 2 then (Raise (Exn PyException "connection refused"), called w)
  else (Return v, called w).

Definition agent (id name : string) (type : option string)
    (primary : Params → DemoWorld → Exc string * DemoWorld) : Agent :=
  new_agent id name name type primary base_execute_custom_function
    base_perform_agent_validation.

(** The server setup agent, with its capability as a parameter. *)
Definition server_setup_agent (primary : Params → DemoWorld → Exc string * DemoWorld)
    : Agent :=
  new_agent "server_setup" "Base Server Setup Agent"
    "Sets up base server infrastructure with Docker, Portainer, and Nginx Proxy Manager"
    (Some "server_setup") primary
    base_execute_custom_function server_setup_perform_agent_validation.

Definition w0 : DemoWorld := {| clock := 0; attempts := 0 |}.

Definition standalone (a : Agent) : AState (C := unit) :=
  {| self := a; peer := tt; world := w0 |}.

(** An orchestrator with the seven agents of the team registered; the
    capabilities of the N8N agent and of the DNS agent are parameters. *)
Definition team (n8n dns : Params → DemoWorld → Exc string * DemoWorld) : Orchestrator :=
  foldl (λ o a, register_agent a o) new_orchestrator
    [agent "server_setup" "Base Server Setup Agent" (Some "server_setup") (succeeds "server");
     agent "dns_manager" "Cloudflare DNS Manager Agent" (Some "dns_manager") dns;
     agent "proxy_configurator" "Nginx Proxy Configurator Agent" (Some "proxy_configurator")
       (succeeds "proxy");
     agent "n8n_deployment" "N8N Deployment Agent" (Some "n8n_deployment") n8n;
     agent "supabase_deployment" "Supabase Deployment Agent" (Some "supabase_deployment")
       (succeeds "supabase");
     agent "system_validator" "System Validator Agent" (Some "system_validator")
       (succeeds "validated");
     agent "final_reporter" "Final Report Agent" (Some "final_reporter") (succeeds "report")].

(** An orchestrator on which no N8N agent is registered. *)
Definition partial_team : Orchestrator :=
  foldl (λ o a, register_agent a o) new_orchestrator
    [agent "server_setup" "Base Server Setup Agent" (Some "server_setup") (succeeds "server");
     agent "supabase_deployment" "Supabase Deployment Agent" (Some "supabase_deployment")
       (succeeds "supabase")].

Definition start (o : Orchestrator) : OState := {| orch := o; env := w0 |}.

End WithRate.

Definition simple_task (id : string) : TaskDict :=
  {| td_id := Some id; td_description := Some "demo"; td_parameters := None;
     td_dependencies := None |}.

Definition demo_task (id agent : string) : Task :=
  {| tk_id := id; tk_agent := agent; tk_description := "demo"; tk_priority := HIGH;
     tk_estimated_duration := Some 60; tk_parameters := None; tk_dependencies := None |}.

(** A parallel phase with three tasks, for three different agents. *)
Definition fan_out_phase : PhaseConfig :=
  {| pc_phase := DeploymentPhase.SERVICES;
     pc_description := "three tasks";
     pc_tasks := [demo_task "t1" "server_setup_agent"; demo_task "t2" "n8n_agent";
                  demo_task "t3" "supabase_agent"];
     pc_parallel_execution := true |}.

(** The request of the end-to-end scenario, as
    [validate_deployment_request] hands it to the orchestrator on
    2025-01-01. *)
Definition validated_request : Request :=
  {| rq_domain := Some "example.com";
     rq_email := Some "a@example.com";
     rq_project_name := Some "project_20250101";
     rq_client_name := Some "Default Client";
     rq_server_ip := Some "10.0.0.5";
     rq_ssh_credentials := Some [];
     rq_cloudflare_token := None;
     rq_services := Some ["n8n"];
     rq_configuration := Some [];
     rq_deployment_id := Some "deploy_20250101_000000" |}.

(** The dictionary [validate_deployment_request] returns for the scenario
    request on 2025-01-01: every key is present, cloudflare_token holds
    [None]. *)
Definition validated_dict : RequestDict :=
  {| rd_domain := Holds "example.com";
     rd_email := Holds "a@example.com";
     rd_project_name := Holds "project_20250101";
     rd_client_name := Holds "Default Client";
     rd_server_ip := Holds "10.0.0.5";
     rd_ssh_credentials := Holds [];
     rd_cloudflare_token := HoldsNone;
     rd_services := Holds ["n8n"];
     rd_configuration := Holds [];
     rd_deployment_id := Holds "deploy_20250101_000000" |}.

(** A complete request that asks for both services, and one that names
    no service. *)
Definition both_services_request : Request :=
  {| rq_domain := Some "example.com";
     rq_email := Some "a@example.com";
     rq_project_name := Some "demo";
     rq_client_name := None;
     rq_server_ip := Some "10.0.0.5";
     rq_ssh_credentials := None;
     rq_cloudflare_token := None;
     rq_services := Some ["n8n"; "supabase"];
     rq_configuration := None;
     rq_deployment_id := None |}.

Definition no_services_request : Request :=
  {| rq_domain := Some "example.com";
     rq_email := Some "a@example.com";
     rq_project_name := Some "demo";
     rq_client_name := None;
     rq_server_ip := Some "10.0.0.5";
     rq_ssh_credentials := None;
     rq_cloudflare_token := None;
     rq_services := None;
     rq_configuration := None;
     rq_deployment_id := None |}.

(** The request of the end-to-end scenario. *)
Definition scenario_request : Request :=
  {| rq_domain := Some "example.com";
     rq_email := Some "a@example.com";
     rq_project_name := None;
     rq_client_name := None;
     rq_server_ip := Some "10.0.0.5";
     rq_ssh_credentials := None;
     rq_cloudflare_token := None;
     rq_services := Some ["n8n"];
     rq_configuration := None;
     rq_deployment_id := None |}.

End Demo.

(** * Vocabulary of the properties *)

(** A computation that returns in every state. *)
Definition total {S A} (m : M S A) : Prop := ∀ s, ∃ a s', m s = (Return a, s').

Section Vocabulary.
Context `{H : Host} {C : Type}.
Implicit Types (s : AState (C := C)) (cb : option (Callback (C := C))).

(** A callback that returns whenever it is called. *)
Definition callback_total cb : Prop :=
  match cb with
  | None => True
  | Some f => ∀ ev c, ∃ c', f ev c = (Return tt, c')
  end.

Definition metrics_of s : Metrics := performance_metrics (self s).

(** The books of an agent: what [process_task] keeps about its tasks. *)
Definition ledger (a : Agent)
    : Metrics * list TaskDict * list TaskDict * option TaskDict :=
  (performance_metrics a, completed_tasks a, failed_tasks a, current_task a).

(** What an agent is given at its creation. *)
Definition methods (a : Agent) :=
  (agent_id a, agent_name a, agent_description a, agent_type a,
   execute_primary_function a, execute_custom_function a, perform_agent_validation a).

(** Everything of an agent but its status and its log. *)
Definition fixed (a : Agent) := (methods a, ledger a).

(** A computation that leaves a component [f] of the state alone,
    whatever else it does and whether it returns or raises. *)
Definition keeps {X A} (f : AState (C := C) → X) (m : M (AState (C := C)) A) : Prop :=
  ∀ s, f (m s).2 = f s.

(** The state [s] with the world replaced. *)
Definition at_world s (w : World) : AState (C := C) :=
  {| self := self s; peer := peer s; world := w |}.

(** The two shapes of the dictionary [process_task] returns. *)
Definition success_shaped (r : TaskResult) : Prop :=
  ∃ result report execution_time, r = TaskSuccess result report execution_time.

Definition failure_shaped (r : TaskResult) : Prop :=
  ∃ error error_report execution_time, r = TaskFailure error error_report execution_time.

(** What the metrics are after calls that returned [history], from fresh
    metrics. *)
Definition metrics_from (history : list TaskResult) (m : Metrics) : Prop :=
  let N := length history in
  tasks_completed m = length (filter (λ r, tr_success r = true) history)
  ∧ tasks_completed m + tasks_failed m = N
  ∧ total_execution_time m = foldl nadd (num_of_nat 0) (tr_execution_time <$> history)
  ∧ (0 < N →
     success_rate m = ndiv (num_of_nat (tasks_completed m)) (num_of_nat N)
     ∧ average_task_time m = ndiv (total_execution_time m) (num_of_nat N)).

(** [calls cb s0 history s]: the state [s] is reached from [s0] by calls
    of [process_task] on the agent, which returned [history], oldest
    first.  Between two calls the callback's owner and the world may
    change in any way. *)
Inductive calls cb : AState → list TaskResult → AState → Prop :=
  | calls_none s : calls cb s [] s
  | calls_more s0 s1 s1' s2 history task r :
      calls cb s0 history s1 →
      self s1' = self s1 →
      process_task cb task s1' = (Return r, s2) →
      calls cb s0 (history ++ [r]) s2.

End Vocabulary.

(** The capability call a step makes on agent [a], as a function of the
    world. *)
Definition step_call `{H : Host} (a : Agent) (step : Step) : World → Exc Value * World :=
  if String.eqb (step_function step) "execute_primary_function"
  then execute_primary_function a (step_parameters step)
  else execute_custom_function a (step_function step) (step_parameters step).

(** The entry of the step results for a step that succeeded on the
    retry. *)
Definition recovered_entry `{H : Host} (step : Step) (result : Value) (duration : Num)
    : StepResult :=
  {| sr_step_id := step_id step; sr_success := true; sr_result := Some result;
     sr_error := None; sr_duration := duration; sr_recovered := true |}.

(** The exception that ends a task whose step failed twice. *)
Definition unrecovered `{H : Host} (step : Step) (e : exn) : exn :=
  Exn PyException ("Step " +:+ str_of_nat (step_id step) +:+
                   " failed and could not be recovered: " +:+ exn_str e).

(** The single step of the plan [create_execution_plan] builds. *)
Definition primary_step `{H : Host} (a : Agent) (task : TaskDict) : Step :=
  {| step_id := 1;
     step_description := "Execute " +:+ agent_name a +:+ " primary function";
     step_function := "execute_primary_function";
     step_parameters := default [] (td_parameters task);
     step_validation := "Validate " +:+ agent_name a +:+ " execution";
     step_timeout := 300 |}.

(** The callbacks this program installs on an agent: none (the default of
    [BaseAgent.__init__]), or the orchestrator's [handle_agent_callback]
    ([register_agent]). *)
Inductive installed `{H : Host} : ∀ {C : Type}, option (Callback (C := C)) → Prop :=
  | installed_none C : installed (C := C) None
  | installed_by_register_agent : installed (C := Board) (Some handle_agent_callback).

(** The validations this program gives its agents: the one of
    [BaseAgent], which agents inherit, and the one of
    [ServerSetupAgent]. *)
Inductive provided `{H : Host} : (ExecResult → AgentValidation) → Prop :=
  | provided_by_base_agent : provided base_perform_agent_validation
  | provided_by_server_setup_agent : provided server_setup_perform_agent_validation.

(** The result recorded for [A] when it runs as the first task of a
    sequential phase started in [o]; there is none when its dependencies
    are not met, when no agent is found for it, or when the dispatch
    raises. *)
Definition first_task_result `{H : Host} (A : Task) (o : OState) : option TaskResult :=
  if check_task_dependencies A ∅ then
    match find_agent_by_type (orch o) (tk_agent A) with
    | Some id =>
        if truthy (Some id) then
          match (execute_agent_task id A o).1 with
          | Return task_result => Some task_result
          | Raise _ => None
          end
        else None
    | None => None
    end
  else None.

(** The three errors that end a sequential phase at task [A]. *)
Definition dependencies_not_met (A : Task) : exn :=
  Exn PyException ("Dependencies not met for task " +:+ tk_id A).

Definition no_agent_found (A : Task) : exn :=
  Exn PyException ("No agent found for type " +:+ tk_agent A).

Definition task_failed_error (A : Task) (error : string) : exn :=
  Exn PyException ("Task " +:+ tk_id A +:+ " failed: " +:+ error).

(** A task whose logical agent name resolves to a registered agent, as
    [execute_parallel_phase] and [execute_sequential_phase] test it. *)
Definition resolves `{H : Host} (orc : Orchestrator) (task : Task) : Prop :=
  ∃ id, find_agent_by_type orc (tk_agent task) = Some id ∧ truthy (Some id) = true.

(** The state in which [execute_agent_task] calls [process_task] on the
    agent registered under [id]: the assignment is logged and the agent
    is EXECUTING on the board. *)
Definition agent_call `{H : Host} (id : string) (agent : Agent) (task : Task) (o : OState)
    : AState (C := Board) :=
  let orc := set_agent_status id EXECUTING
               (add_log (log_assign (tk_id task) (agent_name agent)) (orch o)) in
  {| self := agent; peer := (agent_status orc, orchestrator_log orc); world := env o |}.

(** [dispatched orc tasks o results o']: from the state [o], each task of
    [tasks] in turn was given, by [execute_agent_task], to the agent that
    [find_agent_by_type] finds for it in [orc]; [results] are the
    dictionaries the [process_task] of these agents returned, in this
    order, and the state is then [o']. *)
Inductive dispatched `{H : Host} (orc : Orchestrator)
    : list Task → OState → list TaskResult → OState → Prop :=
  | dispatched_nil o : dispatched orc [] o [] o
  | dispatched_cons task tasks id agent o r o1 results o' :
      find_agent_by_type orc (tk_agent task) = Some id →
      dict_get id (agents (orch o)) = Some agent →
      (process_task (Some handle_agent_callback) (task_dict task)
         (agent_call id agent task o)).1 = Return r →
      execute_agent_task id task o = (Return r, o1) →
      dispatched orc tasks o1 results o' →
      dispatched orc (task :: tasks) o (r :: results) o'.

(** The three risk ratings, in order. *)
Definition risk_rank (risk : string) : nat :=
  if String.eqb risk "low" then 0 else if String.eqb risk "medium" then 1 else 2.

(** The agents [find_agent_by_type] accepts for a target type: by their
    [agent_type] attribute, or by their lower-cased name containing it. *)
Definition agent_matches `{H : Host} (target_type : string) (agent : Agent) : Prop :=
  agent_type agent = Some target_type
  ∨ is_substring target_type (lower (agent_name agent)) = true.

(** What the dispatch of tasks leaves alone on the orchestrator: its
    deployments, its current phase and its metrics. *)
Definition quiet `{H : Host} (orc : Orchestrator) :=
  (active_deployments orc, current_phase orc, orchestrator_metrics orc).

(** A computation of the orchestrator that leaves a component [f] of its
    state alone, whether it returns or raises. *)
Definition okeeps `{H : Host} {X A} (f : OState → X) (m : M OState A) : Prop :=
  ∀ o, f (m o).2 = f o.

(** The error with which [execute_deployment_phases] wraps the error of a
    phase. *)
Definition phase_failed (phase : DeploymentPhase.t) (cause : exn) : exn :=
  Exn PyException ("Deployment failed in phase " +:+ DeploymentPhase.value phase +:+
                   ": " +:+ exn_str cause).

(** A computation that counts a deployment in the orchestrator's metrics
    exactly once when it returns, as a success, and not at all when it
    raises. *)
Definition counts_success `{H : Host} (m : M OState DeploymentResult) : Prop :=
  ∀ o, match m o with
       | (Return r, o') =>
           dr_success r = true
           ∧ ∃ t, orchestrator_metrics (orch o')
                  = update_deployment_metrics true t (orchestrator_metrics (orch o))
       | (Raise _, o') => orchestrator_metrics (orch o') = orchestrator_metrics (orch o)
       end.

(** The estimated durations of the tasks of a phase, and the estimate
    for the phase: the longest task of a parallel phase, the sum of the
    tasks of a sequential one. *)
Definition task_estimates (phase : PhaseConfig) : list nat :=
  (λ task, default 0 (tk_estimated_duration task)) <$> pc_tasks phase.

Definition phase_estimate (phase : PhaseConfig) : nat :=
  if pc_parallel_execution phase then max_list (task_estimates phase)
  else sum_list (task_estimates phase).

(** The last [n] elements of a list. *)
Definition lastn {A} (n : nat) (l : list A) : list A := drop (length l - n) l.

(** The decisions of a run of [update_decision_history] calls, oldest
    first, and the state they leave when recorded from nothing. *)
Definition records {D} (events : list (string * D)) : list (DecisionRecord (D := D)) :=
  (λ e, {| dr_agent_id := e.1; dr_payload := e.2 |}) <$> events.

Definition record_all {D} (events : list (string * D)) : Decisions (D := D) :=
  foldl (λ st e, update_decision_history e.1 e.2 st)
        {| decision_history := []; agent_contexts := ∅ |} events.

(** * Properties *)

(** ** Running monadic code *)

Lemma run_bind {S A B} (m : M S A) (k : A → M S B) (s : S) :
  (m ≫= k) s = match m s with
               | (Raise e, s') => (Raise e, s')
               | (Return a, s') => k a s'
               end.
Proof. reflexivity. Qed.

Lemma total_ret {S A} (a : A) : total (S := S) (mret a).
Proof. intros s. by exists a, s. Qed.

Lemma total_bind {S A B} (m : M S A) (k : A → M S B) :
  total m → (∀ a, total (k a)) → total (m ≫= k).
Proof.
  intros Hm Hk s. destruct (Hm s) as (a & s' & Hms).
  rewrite run_bind, Hms. apply Hk.
Qed.

Lemma total_try_except {S A} (body : M S A) (handler : exn → M S A) :
  (∀ e, total (handler e)) → total (try_except body handler).
Proof.
  intros Hh s. unfold try_except.
  destruct (body s) as [[e|a] s']; [apply Hh | by exists a, s'].
Qed.

Lemma total_try_finally {S A} (body : M S A) (cleanup : S → S) :
  total body → total (try_finally body cleanup).
Proof.
  intros Hb s. unfold try_finally. destruct (Hb s) as (a & s' & ->).
  by exists a, (cleanup s').
Qed.

Lemma total_modify {S} (f : S → S) : total (modify f).
Proof. intros s. by exists tt, (f s). Qed.

Lemma total_gets {S A} (f : S → A) : total (gets f).
Proof. intros s. by exists (f s), s. Qed.

(** ** The agent lifecycle *)

Section LifecycleFacts.
Context `{H : Host} {C : Type}.
Implicit Types (s : AState (C := C)) (cb : option (Callback (C := C))).

Lemma run_with_self (f : Agent → Agent) s :
  with_self f s = (Return tt, {| self := f (self s); peer := peer s; world := world s |}).
Proof. reflexivity. Qed.

Lemma run_gets_state {A} (f : AState (C := C) → A) s : gets f s = (Return (f s), s).
Proof. reflexivity. Qed.

Lemma run_ret_state {A} (a : A) s : (mret a : M AState A) s = (Return a, s).
Proof. reflexivity. Qed.

Lemma run_liftW {A} (f : World → A * World) s :
  liftW f s = (Return (f (world s)).1,
               {| self := self s; peer := peer s; world := (f (world s)).2 |}).
Proof. unfold liftW. by destruct (f (world s)). Qed.

Lemma run_handle_task_failure task error s :
  handle_task_failure task error s
  = (Return {| erp_agent_id := agent_id (self s);
               erp_task_id := td_id task;
               erp_error := error;
               erp_failure_analysis := analyze_failure error;
               erp_recovery_suggestions := suggest_recovery_actions error;
               erp_timestamp := datetime_now_iso (world s) |}, s).
Proof. reflexivity. Qed.

(** A callback leaves the agent object alone. *)
Lemma notify_self cb ev s r s' : notify cb ev s = (r, s') → self s' = self s.
Proof.
  destruct cb as [f|]; simpl.
  - destruct (f ev (peer s, world s)) as [? [? ?]]. by intros [= _ <-].
  - by intros [= _ <-].
Qed.

Lemma total_liftW {A} (f : World → A * World) : total (liftW (C := C) f).
Proof.
  intros s. unfold liftW. destruct (f (world s)) as [a w]. eauto.
Qed.

Lemma total_notify cb ev : callback_total cb → total (notify cb ev).
Proof.
  intros Hcb s. destruct cb as [f|]; simpl; [|by eauto].
  destruct (Hcb ev (peer s, world s)) as ([c w] & Hf). rewrite Hf. eauto.
Qed.

Lemma total_process_task_except cb task task_id start_time e :
  callback_total cb → total (process_task_except cb task task_id start_time e).
Proof.
  intros Hcb. unfold process_task_except, handle_task_failure, with_self.
  repeat first
    [ apply total_bind; [|intros ?]
    | apply total_liftW | apply total_modify | apply total_gets
    | apply total_ret | by apply total_notify ].
Qed.

Lemma total_process_task cb task : callback_total cb → total (process_task cb task).
Proof.
  intros Hcb. unfold process_task, with_self.
  repeat first
    [ apply total_bind; [|intros ?]
    | apply total_liftW | apply total_modify
    | apply total_try_finally, total_try_except; intros ?;
      by apply total_process_task_except ].
Qed.

End LifecycleFacts.

Lemma handle_agent_callback_total `{H : Host} :
  callback_total (Some handle_agent_callback).
Proof.
  intros ev [[st lg] w]. destruct ev; simpl; eauto.
Qed.

(** *** What a call of [process_task] does to the metrics *)

Section FrameFacts.
Context `{H : Host} {C X : Type} (f : AState (C := C) → X).
Implicit Types (s : AState (C := C)) (cb : option (Callback (C := C))).

(** The component depends neither on the status of the agent, nor on its
    log, nor on the world. *)
Hypothesis Hf : ∀ s s',
  fixed (self s') = fixed (self s) → peer s' = peer s → f s' = f s.

Lemma keeps_ret {A} (a : A) : keeps f (mret a).
Proof. by intros s. Qed.

Lemma keeps_raise {A} e : keeps f (raise (A := A) e).
Proof. by intros s. Qed.

Lemma keeps_bind {A B} (m : M _ A) (k : A → M _ B) :
  keeps f m → (∀ a, keeps f (k a)) → keeps f (m ≫= k).
Proof.
  intros Hm Hk s. rewrite run_bind. specialize (Hm s).
  destruct (m s) as [[e|a] s1]; simpl in *; [done|]. by rewrite Hk.
Qed.

Lemma keeps_try_except {A} (body : M _ A) handler :
  keeps f body → (∀ e, keeps f (handler e)) → keeps f (try_except body handler).
Proof.
  intros Hb Hh s. unfold try_except. specialize (Hb s).
  destruct (body s) as [[e|a] s1]; simpl in *; [|done]. by rewrite Hh.
Qed.

Lemma keeps_liftW {A} (g : World → A * World) : keeps f (liftW g).
Proof. intros s. unfold liftW. destruct (g (world s)). by apply Hf. Qed.

Lemma keeps_liftE {A} (g : World → Exc A * World) : keeps f (liftE g).
Proof. intros s. unfold liftE. destruct (g (world s)). by apply Hf. Qed.

Lemma keeps_gets {A} (g : AState (C := C) → A) : keeps f (gets g).
Proof. by intros s. Qed.

Lemma keeps_with_self (g : Agent → Agent) :
  (∀ a, fixed (g a) = fixed a) → keeps f (with_self g).
Proof. intros Hg s. apply Hf; [apply Hg | done]. Qed.

Lemma keeps_log_execution_step d : keeps f (log_execution_step d).
Proof. intros s. by apply Hf. Qed.

Lemma keeps_py_div a b : keeps f (py_div a b).
Proof. intros s. unfold py_div. by destruct (is_zero b). Qed.

Ltac keeps_tac :=
  repeat first
    [ apply keeps_ret | apply keeps_raise | apply keeps_liftW | apply keeps_liftE
    | apply keeps_gets | apply keeps_log_execution_step
    | apply keeps_py_div
    | apply keeps_with_self; by intros []
    | apply keeps_try_except; [|intros ?]
    | apply keeps_bind; [|intros ?]
    | match goal with |- keeps _ (if ?b then _ else _) => destruct b end
    | match goal with |- keeps _ (match ?r with Recovered _ => _ | NotRecovered _ => _ end) =>
        destruct r end ].

Lemma keeps_execute_step step : keeps f (execute_step step).
Proof. unfold execute_step. keeps_tac. Qed.

Lemma keeps_attempt_step_recovery step error : keeps f (attempt_step_recovery step error).
Proof. unfold attempt_step_recovery. keeps_tac; apply keeps_execute_step. Qed.

Lemma keeps_monitor_step step results : keeps f (monitor_step step results).
Proof.
  unfold monitor_step.
  keeps_tac; first [apply keeps_execute_step | apply keeps_attempt_step_recovery].
Qed.

Lemma keeps_monitor_steps steps results : keeps f (monitor_steps steps results).
Proof.
  revert results. induction steps as [|step steps IH]; intros results; simpl.
  - apply keeps_ret.
  - apply keeps_bind; [apply keeps_monitor_step | intros ?; apply IH].
Qed.

Lemma keeps_execute_with_monitoring plan : keeps f (execute_with_monitoring plan).
Proof.
  unfold execute_with_monitoring. keeps_tac. apply keeps_monitor_steps.
Qed.

Lemma keeps_generate_task_report task result validation :
  keeps f (generate_task_report task result validation).
Proof. unfold generate_task_report, calculate_performance_impact. keeps_tac. Qed.

Lemma keeps_handle_task_failure task error : keeps f (handle_task_failure task error).
Proof. unfold handle_task_failure. keeps_tac. Qed.

(** Steps 1 to 4 of [process_task] change neither the metrics nor the
    callback's owner. *)
Lemma keeps_process_task_stages task : keeps f (process_task_stages task).
Proof.
  unfold process_task_stages.
  keeps_tac; first [apply keeps_execute_with_monitoring | apply keeps_generate_task_report].
Qed.

Lemma keeps_run {A} (m : M _ A) s r s' : keeps f m → m s = (r, s') → f s' = f s.
Proof. intros Hm Hr. specialize (Hm s). by rewrite Hr in Hm. Qed.

End FrameFacts.

Section CallFacts.
Context `{H : Host} {C : Type}.
Implicit Types (s : AState (C := C)) (cb : option (Callback (C := C))).

Lemma metrics_frame s s' :
  fixed (self s') = fixed (self s) → peer s' = peer s → metrics_of s' = metrics_of s.
Proof. unfold fixed, ledger, metrics_of. intros Hfix _. congruence. Qed.

Lemma keeps_notify cb ev : keeps metrics_of (notify cb ev).
Proof.
  intros s. destruct cb as [g|]; simpl; [|done].
  by destruct (g ev (peer s, world s)) as [r [c w]].
Qed.

(** The [try] block either raises with the metrics untouched, or returns
    a success and has counted it once. *)
Lemma process_task_try_metrics cb task task_id start_time s :
  callback_total cb →
  ∃ r s', process_task_try cb task task_id start_time s = (r, s') ∧
    match r with
    | Raise _ => metrics_of s' = metrics_of s
    | Return tr =>
        tr_success tr = true ∧
        metrics_of s' = update_performance_metrics true (tr_execution_time tr) (metrics_of s)
    end.
Proof.
  intros Hcb. unfold process_task_try. rewrite run_bind.
  destruct (process_task_stages task s) as [[e|[result report]] s1] eqn:Hstages.
  - eexists _, _. split; [done|].
    by eapply keeps_run; [apply keeps_process_task_stages, metrics_frame|].
  - apply (keeps_run metrics_of) in Hstages;
      [|apply keeps_process_task_stages, metrics_frame].
    rewrite run_bind, run_liftW.
    do 3 (rewrite run_bind, run_with_self; cbn [self peer world]).
    rewrite run_bind, run_gets_state, run_bind. cbn [self peer world].
    match goal with |- context [notify cb ?ev ?st] =>
      destruct (total_notify cb ev Hcb st) as ([] & s3 & Hn);
      pose proof (keeps_notify cb ev st) as Hk; rewrite Hn in Hk |- * end.
    eexists _, _. split; [done|]. split; [done|].
    simpl in Hk. rewrite Hk. unfold metrics_of in *. simpl. by rewrite Hstages.
Qed.

(** The [except] block returns a failure and counts it once. *)
Lemma process_task_except_metrics cb task task_id start_time e s :
  callback_total cb →
  ∃ error_report t s',
    process_task_except cb task task_id start_time e s
      = (Return (TaskFailure (exn_str e) error_report t), s') ∧
    status (self s') = FAILED ∧
    metrics_of s' = update_performance_metrics false t (metrics_of s).
Proof.
  intros Hcb. unfold process_task_except. rewrite run_bind, run_liftW.
  do 3 (rewrite run_bind, run_with_self; cbn [self peer world]).
  rewrite run_bind, run_handle_task_failure, run_bind, run_gets_state, run_bind.
  cbn [self peer world].
  match goal with |- context [notify cb ?ev ?st] =>
    destruct (total_notify cb ev Hcb st) as ([] & s3 & Hn);
    pose proof (keeps_notify cb ev st) as Hk;
    pose proof (notify_self _ _ _ _ _ Hn) as Hself;
    rewrite Hn in Hk |- * end.
  eexists _, _, _. split; [done|]. rewrite Hself. split; [done|].
  simpl in Hk. by rewrite Hk.
Qed.

Lemma process_task_finally_metrics s : metrics_of (process_task_finally s) = metrics_of s.
Proof. unfold process_task_finally, metrics_of. simpl. by case_decide. Qed.

(** One call of [process_task] returns, and updates the metrics exactly
    once, with the outcome and the execution time it reports. *)
Lemma process_task_metrics cb task s :
  callback_total cb →
  ∃ tr s', process_task cb task s = (Return tr, s') ∧
    metrics_of s' =
      update_performance_metrics (tr_success tr) (tr_execution_time tr) (metrics_of s).
Proof.
  intros Hcb. unfold process_task.
  rewrite run_bind, run_liftW, run_bind, run_with_self, run_bind, run_liftW.
  cbn [self peer world]. unfold try_finally, try_except.
  match goal with |- context [process_task_try cb task ?id ?st ?s0] =>
    destruct (process_task_try_metrics cb task id st s0 Hcb) as (r & s1 & Htry & Hr);
    rewrite Htry end.
  destruct r as [e|tr].
  - match goal with |- context [process_task_except cb task ?id ?st e s1] =>
      destruct (process_task_except_metrics cb task id st e s1 Hcb)
        as (er & t & s2 & Hex & Hst & Hm); rewrite Hex end.
    eexists _, _. split; [done|].
    by rewrite process_task_finally_metrics, Hm, Hr.
  - destruct Hr as [Hs Hm]. eexists _, _. split; [done|].
    by rewrite process_task_finally_metrics, Hm, Hs.
Qed.

End CallFacts.

Lemma installed_total `{H : Host} {C} (cb : option (Callback (C := C))) :
  installed cb → callback_total cb.
Proof.
  intros [C'|]; [exact I | apply handle_agent_callback_total].
Qed.

(** *** Validation *)

(** C4 (the code departs from the claim).  With the validation of
    [BaseAgent], [validate_execution] is valid exactly when at least one
    step succeeded, as the claim says; but the errors list it returns is
    empty on every input: the message "No steps were executed
    successfully" that the base check appends is replaced by the agent's
    own (empty) list when [dict.update] merges the two. *)
Theorem validate_execution_base `{H : Host} (result : ExecResult) :
  let validation := validate_execution base_perform_agent_validation result in
  v_valid validation = negb (er_steps_successful result =? 0)
  ∧ v_errors validation = []
  ∧ "No steps were executed successfully" ∉ v_errors validation.
Proof.
  unfold validate_execution. simpl.
  destruct (er_steps_successful result =? 0); simpl; repeat split; apply not_elem_of_nil.
Qed.

(** The same for [ServerSetupAgent]: its four errors replace the base
    check's message. *)
Lemma validate_execution_server_setup `{H : Host} (result : ExecResult) :
  "No steps were executed successfully"
    ∉ v_errors (validate_execution server_setup_perform_agent_validation result).
Proof.
  unfold validate_execution. simpl.
  destruct (er_steps_successful result =? 0); simpl;
    rewrite !not_elem_of_cons; repeat split; try discriminate; apply not_elem_of_nil.
Qed.

(** *** [process_task] never raises *)

(** C5.  Whatever the task and whatever the agent's capability does
    (return or raise, on the first call and on the retry), [process_task]
    returns, and what it returns is exactly one of the success-shaped and
    the failure-shaped dictionary; this holds for an agent without
    callback and for an agent registered with the orchestrator. *)
Theorem process_task_never_raises `{H : Host} :
  (∀ (C : Type) (task : TaskDict) (s : AState (C := C)),
     ∃ r s', process_task None task s = (Return r, s')
             ∧ (success_shaped r ∧ ¬ failure_shaped r
                ∨ failure_shaped r ∧ ¬ success_shaped r))
  ∧ (∀ (task : TaskDict) (s : AState (C := Board)),
     ∃ r s', process_task (Some handle_agent_callback) task s = (Return r, s')
             ∧ (success_shaped r ∧ ¬ failure_shaped r
                ∨ failure_shaped r ∧ ¬ success_shaped r)).
Proof.
  assert (∀ r : TaskResult,
            success_shaped r ∧ ¬ failure_shaped r
            ∨ failure_shaped r ∧ ¬ success_shaped r) as Hshape.
  { intros [result report t|error error_report t].
    - left. split; [by eexists _, _, _|]. by intros (? & ? & ? & ?).
    - right. split; [by eexists _, _, _|]. by intros (? & ? & ? & ?). }
  split.
  - intros C task s.
    destruct (total_process_task None task I s) as (r & s' & Hr). eauto.
  - intros task s.
    destruct (total_process_task _ task handle_agent_callback_total s) as (r & s' & Hr).
    eauto.
Qed.

(** *** Metrics *)

Section MetricsInvariant.
Context `{H : Host} {C : Type}.
Implicit Types (s : AState (C := C)) (cb : option (Callback (C := C))).

Lemma metrics_from_update history m r :
  metrics_from history m →
  metrics_from (history ++ [r])
    (update_performance_metrics (tr_success r) (tr_execution_time r) m).
Proof.
  intros (Hc & Hn & Ht & _). unfold metrics_from, update_performance_metrics.
  rewrite filter_app, !length_app, fmap_app, foldl_app. simpl.
  rewrite filter_cons, filter_nil.
  destruct (tr_success r) eqn:Hr; simpl.
  - split; [lia|]. split; [lia|]. split; [congruence|].
    intros _. split; f_equal; f_equal; lia.
  - replace (tasks_completed m + S (tasks_failed m))
      with (S (tasks_completed m + tasks_failed m)) by lia. simpl.
    split; [lia|]. split; [lia|]. split; [congruence|].
    intros _. split; f_equal; f_equal; lia.
Qed.

Lemma calls_metrics cb s0 history s :
  callback_total cb →
  metrics_of s0 = initial_metrics →
  calls cb s0 history s →
  metrics_from history (metrics_of s).
Proof.
  intros Hcb Hinit Hcalls. induction Hcalls as [s|s0 s1 s1' s2 history task r _ IH Hself Hcall].
  - rewrite Hinit. unfold metrics_from. simpl. repeat split; lia.
  - destruct (process_task_metrics cb task s1' Hcb) as (tr & s' & Hrun & Hm).
    rewrite Hcall in Hrun. injection Hrun as <- <-. rewrite Hm.
    replace (metrics_of s1') with (metrics_of s1) by (unfold metrics_of; by rewrite Hself).
    by apply metrics_from_update, IH.
Qed.

End MetricsInvariant.

(** C9.  After any sequence of N calls of [process_task] on an agent
    whose metrics started fresh, whatever mix of successes and failures
    they returned: [tasks_completed] is the number of successes,
    [tasks_completed + tasks_failed = N], [total_execution_time] is the
    sum of the N execution times, and for N > 0 [success_rate] is
    [tasks_completed / N] and [average_task_time] is
    [total_execution_time / N]. *)
Theorem metrics_after_calls `{H : Host} {C : Type} (cb : option (Callback (C := C)))
    (s0 s : AState (C := C)) (history : list TaskResult) :
  installed cb →
  metrics_of s0 = initial_metrics →
  calls cb s0 history s →
  let m := metrics_of s in
  let N := length history in
  tasks_completed m = length (filter (λ r, tr_success r = true) history)
  ∧ tasks_completed m + tasks_failed m = N
  ∧ total_execution_time m = foldl nadd (num_of_nat 0) (tr_execution_time <$> history)
  ∧ (0 < N →
     success_rate m = ndiv (num_of_nat (tasks_completed m)) (num_of_nat N)
     ∧ average_task_time m = ndiv (total_execution_time m) (num_of_nat N)).
Proof.
  intros Hcb Hinit Hcalls. apply (calls_metrics cb s0 history s); auto using installed_total.
Qed.

(** Two calls on an agent without callback, started with fresh
    metrics. *)
Lemma metrics_after_calls_witness :
  ∃ (s : AState (H := Demo.host 1) (C := unit)) (history : list TaskResult),
    calls None (Demo.standalone 1 (Demo.agent 1 "a" "A" None (Demo.fails_twice 1 "ok")))
      history s
    ∧ length history = 2
    ∧ tasks_completed (metrics_of s) + tasks_failed (metrics_of s) = 2
    ∧ success_rate (metrics_of s)
      = ndiv (num_of_nat (tasks_completed (metrics_of s))) (num_of_nat 2).
Proof.
  set (s0 := Demo.standalone 1 (Demo.agent 1 "a" "A" None (Demo.fails_twice 1 "ok"))).
  destruct (total_process_task None (Demo.simple_task "t1") I s0) as (r1 & s1 & H1).
  destruct (total_process_task None (Demo.simple_task "t2") I s1) as (r2 & s2 & H2).
  assert (calls None s0 ([] ++ [r1] ++ [r2]) s2) as Hcalls.
  { rewrite app_assoc. eapply calls_more; [|reflexivity|exact H2].
    eapply calls_more; [apply calls_none|reflexivity|exact H1]. }
  pose proof (metrics_after_calls None s0 s2 _ (installed_none _) eq_refl Hcalls) as Hm.
  cbv zeta in Hm. destruct Hm as (_ & Hn & _ & Hrate).
  exists s2, [r1; r2]. split; [exact Hcalls|]. split; [reflexivity|].
  split; [exact Hn|]. apply Hrate. simpl. lia.
Defined.

(** An agent whose capability raises twice and then returns: its first
    task fails after the retry, its second task succeeds, and the success
    rate is one half. *)
Example metrics_after_a_failure_and_a_success :
  match process_task (C := unit) None (Demo.simple_task "t1")
          (Demo.standalone 1 (Demo.agent 1 "a" "A" None (Demo.fails_twice 1 "ok"))) with
  | (Return r1, s1) =>
      match process_task None (Demo.simple_task "t2") s1 with
      | (Return r2, s2) =>
          tr_success r1 = false ∧ tr_success r2 = true
          ∧ tasks_completed (metrics_of s2) = 1 ∧ tasks_failed (metrics_of s2) = 1
          ∧ success_rate (metrics_of s2) = (1 # 2)%Q
      | _ => False
      end
  | _ => False
  end.
Proof. vm_compute. repeat split. Qed.

(** *** Recovery of a failed step *)

Section Recovery.
Context `{H : Host} {C : Type}.
Implicit Types (s : AState (C := C)) (cb : option (Callback (C := C))).

Lemma run_liftE {A} (f : World → Exc A * World) s :
  liftE f s = ((f (world s)).1, at_world s (f (world s)).2).
Proof. unfold liftE, at_world. by destruct (f (world s)). Qed.

Lemma run_execute_step step s :
  execute_step step s
  = ((step_call (self s) step (world s)).1,
     at_world s (step_call (self s) step (world s)).2).
Proof.
  unfold execute_step, step_call. rewrite run_bind, run_gets_state.
  destruct (String.eqb _ _); by rewrite run_liftE.
Qed.

(** [attempt_step_recovery] sleeps five seconds, makes the step's call
    once more, and reports what the call did. *)
Lemma run_attempt_step_recovery step error s :
  let retry := step_call (self s) step (asyncio_sleep 5 (world s)) in
  attempt_step_recovery step error s
  = (Return match retry.1 with
            | Return v => Recovered v
            | Raise e => NotRecovered (exn_str e)
            end,
     at_world s retry.2).
Proof.
  unfold attempt_step_recovery, try_except. rewrite run_bind.
  unfold liftW at 1. rewrite run_bind, run_execute_step. cbn [self peer world].
  by destruct (step_call (self s) step (asyncio_sleep 5 (world s))) as [[e|v] w].
Qed.

(** One step of the loop whose call raises: what the loop body does is
    decided by one retry, made five seconds after the failure. *)
Lemma monitor_step_raised step results s e :
  let t0 := (time_time (world s)).1 in
  let first := step_call (self s) step (time_time (world s)).2 in
  first.1 = Raise e →
  let t1 := (time_time first.2).1 in
  let retry := step_call (self s) step (asyncio_sleep 5 (time_time first.2).2) in
  monitor_step step results s
  = (match retry.1 with
     | Return v => Return (results ++ [recovered_entry step v (nsub t1 t0)])
     | Raise _ => Raise (unrecovered step e)
     end,
     at_world s retry.2).
Proof.
  intros t0 first Hfirst t1 retry. unfold monitor_step.
  rewrite run_bind, run_liftW. cbn [self peer world]. unfold try_except at 1.
  rewrite run_bind, run_execute_step. cbn [self peer world]. fold first. rewrite Hfirst.
  rewrite run_bind, run_liftW. cbn [self peer world at_world].
  rewrite run_bind, run_attempt_step_recovery. cbn [self peer world at_world]. fold retry.
  by destruct (retry.1).
Qed.

(** The results of the steps run so far are kept by the rest of the
    loop. *)
Lemma monitor_steps_extends steps results s final s' :
  monitor_steps steps results s = (Return final, s') → ∃ more, final = results ++ more.
Proof.
  revert results s. induction steps as [|step steps IH]; intros results s; simpl.
  - intros [= <- <-]. exists []. by rewrite app_nil_r.
  - rewrite run_bind. destruct (monitor_step step results s) as [[e|results1] s1] eqn:Hstep;
      [done|]. intros Hrest. apply IH in Hrest as [more ->].
    assert (∃ r, results1 = results ++ [r]) as [r ->].
    { unfold monitor_step in Hstep. rewrite run_bind, run_liftW in Hstep.
      unfold try_except in Hstep. rewrite run_bind, run_execute_step in Hstep.
      destruct (step_call _ _ _).1.
      - rewrite run_bind, run_liftW, run_bind, run_attempt_step_recovery in Hstep.
        cbn [self peer world at_world] in Hstep.
        destruct (step_call _ _ _).1; [done|]. injection Hstep as <- _. eauto.
      - rewrite run_bind, run_liftW in Hstep. injection Hstep as <- _. eauto. }
    exists (r :: more). by rewrite <- app_assoc.
Qed.

End Recovery.

Section TaskRecovery.
Context `{H : Host} {C : Type}.
Implicit Types (s : AState (C := C)) (cb : option (Callback (C := C))).

Lemma run_log_execution_step d s :
  log_execution_step d s
  = (Return tt,
     {| self := append_log {| le_timestamp := datetime_now_iso (world s);
                              le_agent_id := agent_id (self s);
                              le_description := d |} (self s);
        peer := peer s; world := world s |}).
Proof. reflexivity. Qed.

(** What the four stages of [process_task] do when the capability raises
    on the first call: one retry decides. *)
Lemma process_task_stages_raised task s e :
  let a := self s in
  let cap := execute_primary_function a (default [] (td_parameters task)) in
  let t0 := (time_time (world s)).1 in
  let first := cap (time_time (world s)).2 in
  provided (perform_agent_validation a) →
  first.1 = Raise e →
  let t1 := (time_time first.2).1 in
  let retry := cap (asyncio_sleep 5 (time_time first.2).2) in
  match retry.1 with
  | Return v =>
      let result := execution_summary (td_id task)
                      [recovered_entry (primary_step a task) v (nsub t1 t0)] in
      if is_zero (er_total_duration result)
      then ∃ s', process_task_stages task s
                 = (Raise (Exn PyZeroDivisionError "float division by zero"), s')
                 ∧ world s' = retry.2
      else ∃ report s', process_task_stages task s = (Return (result, report), s')
                        ∧ world s' = retry.2
  | Raise _ =>
      ∃ s', process_task_stages task s = (Raise (unrecovered (primary_step a task) e), s')
            ∧ world s' = retry.2
  end.
Proof.
  intros a cap t0 first Hprovided Hfirst t1 retry. unfold process_task_stages.
  rewrite run_bind, run_with_self, run_bind, run_gets_state.
  rewrite run_bind, run_log_execution_step, run_bind, run_with_self.
  cbn [self peer world].
  unfold execute_with_monitoring, create_execution_plan, generate_execution_steps.
  cbn [ep_steps ep_task_id monitor_steps].
  rewrite !run_bind.
  match goal with |- context [monitor_step ?st ?rs ?s0] =>
    pose proof (monitor_step_raised st rs s0 e) as Hstep end.
  cbn [self peer world] in Hstep.
  change (step_call _ _) with cap in Hstep.
  specialize (Hstep Hfirst). fold first t0 t1 retry in Hstep.
  rewrite Hstep. clear Hstep.
  destruct (retry.1) as [e2|v].
  - eexists. split; [reflexivity|]. reflexivity.
  - rewrite !run_ret_state. cbn [app].
    change (recovered_entry _ v (nsub t1 t0))
      with (recovered_entry (primary_step a task) v (nsub t1 t0)).
    set (result := execution_summary _ _) in *.
    rewrite run_bind, run_with_self, run_bind, run_gets_state.
    cbn [self peer world at_world].
    change (perform_agent_validation _) with (perform_agent_validation a).
    assert (v_valid (validate_execution (perform_agent_validation a) result) = true) as ->
      by by destruct Hprovided.
    rewrite run_bind, run_ret_state, run_bind, run_with_self.
    unfold generate_task_report, calculate_performance_impact, py_div.
    destruct (is_zero (er_total_duration result)).
    + eexists. split; reflexivity.
    + eexists _, _. split; reflexivity.
Qed.

(** The same for a whole call of [process_task]. *)
Lemma process_task_raised cb task s e :
  callback_total cb →
  let a := self s in
  let cap := execute_primary_function a (default [] (td_parameters task)) in
  let t_start := (time_time (uuid4 (world s)).2).1 in
  let w := (time_time (uuid4 (world s)).2).2 in
  let t0 := (time_time w).1 in
  let first := cap (time_time w).2 in
  provided (perform_agent_validation a) →
  first.1 = Raise e →
  let t1 := (time_time first.2).1 in
  let retry := cap (asyncio_sleep 5 (time_time first.2).2) in
  let t_end := (time_time retry.2).1 in
  match retry.1 with
  | Return v =>
      let result := execution_summary (td_id task)
                      [recovered_entry (primary_step a task) v (nsub t1 t0)] in
      if is_zero (er_total_duration result)
      then ∃ error_report s',
             process_task cb task s
             = (Return (TaskFailure "float division by zero" error_report
                          (nsub t_end t_start)), s')
             ∧ status (self s') = FAILED
      else ∃ report s',
             process_task cb task s
             = (Return (TaskSuccess result report (nsub t_end t_start)), s')
  | Raise _ =>
      ∃ error_report s',
        process_task cb task s
        = (Return (TaskFailure (exn_str (unrecovered (primary_step a task) e))
                     error_report (nsub t_end t_start)), s')
  end.
Proof.
  intros Hcb a cap t_start w t0 first Hprovided Hfirst t1 retry t_end. unfold process_task.
  rewrite run_bind, run_liftW, run_bind, run_with_self, run_bind, run_liftW.
  cbn [self peer world]. fold t_start w.
  unfold try_finally, try_except, process_task_try. rewrite run_bind.
  match goal with |- context [process_task_stages task ?s0] =>
    pose proof (process_task_stages_raised task s0 e) as Hstages end.
  cbn [self peer world] in Hstages.
  change (execute_primary_function _ _) with cap in Hstages.
  specialize (Hstages Hprovided Hfirst). fold first t0 t1 retry in Hstages.
  change (primary_step _ task) with (primary_step a task) in Hstages.
  destruct (retry.1) as [e2|v].
  - destruct Hstages as (s1 & -> & Hw).
    unfold process_task_except. rewrite run_bind, run_liftW, Hw. fold t_end.
    do 3 (rewrite run_bind, run_with_self; cbn [self peer world]).
    rewrite run_bind, run_handle_task_failure, run_bind, run_gets_state, run_bind.
    cbn [self peer world].
    match goal with |- context [notify cb ?ev ?st] =>
      destruct (total_notify cb ev Hcb st) as ([] & s3 & ->) end.
    by eexists _, _.
  - cbv zeta in Hstages |- *.
    destruct (is_zero (er_total_duration _)).
    + destruct Hstages as (s1 & -> & Hw).
      unfold process_task_except. rewrite run_bind, run_liftW, Hw. fold t_end.
      do 3 (rewrite run_bind, run_with_self; cbn [self peer world]).
      rewrite run_bind, run_handle_task_failure, run_bind, run_gets_state, run_bind.
      cbn [self peer world].
      match goal with |- context [notify cb ?ev ?st] =>
        destruct (total_notify cb ev Hcb st) as ([] & s3 & Hn);
        pose proof (notify_self _ _ _ _ _ Hn) as Hself; rewrite Hn end.
      eexists _, _. split; [reflexivity|].
      unfold process_task_finally. cbn [self status set_current_task].
      rewrite Hself. by rewrite decide_True.
    + destruct Hstages as (report & s1 & -> & Hw).
      rewrite run_bind, run_liftW, Hw. fold t_end.
      do 3 (rewrite run_bind, run_with_self; cbn [self peer world]).
      rewrite run_bind, run_gets_state, run_bind. cbn [self peer world].
      match goal with |- context [notify cb ?ev ?st] =>
        destruct (total_notify cb ev Hcb st) as ([] & s3 & ->) end.
      by eexists _, _.
Qed.

End TaskRecovery.

(** C8.  When the first execution of a step raises, exactly one recovery
    is attempted: [asyncio.sleep(5)], then the step's call once more, and
    nothing else touches the world.  If the retry returns, the step's
    entry is appended with [success: True] and [recovered: True], the loop
    goes on with the remaining steps, and the entry is in the final list
    whenever the loop completes.  If the retry raises too, the loop raises
    at once an error that names the step and carries the first failure,
    no further step runs, and [process_task] returns the failure with
    that error.  For the task built by [process_task] (one step), on an
    agent with a validation of this program, a retry that returns ends
    the task with [success: True] when the duration measured for the
    step is not zero; when it is zero the report's [300 / total_duration]
    raises, and the task ends with [success: False], error
    "float division by zero", the agent FAILED, against the claim. *)
Theorem step_recovery_once `{H : Host} {C : Type} (cb : option (Callback (C := C))) :
  installed cb →
  (∀ (step : Step) (rest : list Step) (results : list StepResult)
     (s : AState (C := C)) (e : exn),
     let t0 := (time_time (world s)).1 in
     let first := step_call (self s) step (time_time (world s)).2 in
     first.1 = Raise e →
     let t1 := (time_time first.2).1 in
     let retry := step_call (self s) step (asyncio_sleep 5 (time_time first.2).2) in
     match retry.1 with
     | Return v =>
         let entry := recovered_entry step v (nsub t1 t0) in
         monitor_steps (step :: rest) results s
         = monitor_steps rest (results ++ [entry]) (at_world s retry.2)
         ∧ ∀ final s', monitor_steps (step :: rest) results s = (Return final, s') →
                       entry ∈ final
     | Raise _ =>
         monitor_steps (step :: rest) results s
         = (Raise (unrecovered step e), at_world s retry.2)
     end)
  ∧ (∀ (task : TaskDict) (s : AState (C := C)) (e : exn),
     let a := self s in
     let cap := execute_primary_function a (default [] (td_parameters task)) in
     let t_start := (time_time (uuid4 (world s)).2).1 in
     let w := (time_time (uuid4 (world s)).2).2 in
     let t0 := (time_time w).1 in
     let first := cap (time_time w).2 in
     provided (perform_agent_validation a) →
     first.1 = Raise e →
     let t1 := (time_time first.2).1 in
     let retry := cap (asyncio_sleep 5 (time_time first.2).2) in
     let t_end := (time_time retry.2).1 in
     match retry.1 with
     | Return v =>
         let result := execution_summary (td_id task)
                         [recovered_entry (primary_step a task) v (nsub t1 t0)] in
         if is_zero (er_total_duration result)
         then ∃ error_report s',
                process_task cb task s
                = (Return (TaskFailure "float division by zero" error_report
                             (nsub t_end t_start)), s')
                ∧ status (self s') = FAILED
         else ∃ report s',
                process_task cb task s
                = (Return (TaskSuccess result report (nsub t_end t_start)), s')
     | Raise _ =>
         ∃ error_report s',
           process_task cb task s
           = (Return (TaskFailure (exn_str (unrecovered (primary_step a task) e))
                        error_report (nsub t_end t_start)), s')
     end).
Proof.
  intros Hcb. split.
  - intros step rest results s e t0 first Hfirst t1 retry.
    pose proof (monitor_step_raised step results s e Hfirst) as Hstep.
    fold t0 first t1 retry in Hstep. simpl monitor_steps. rewrite run_bind, Hstep.
    destruct (retry.1) as [e2|v]; [done|]. split; [done|].
    intros final s' Hrest. apply monitor_steps_extends in Hrest as [more ->].
    rewrite !elem_of_app, list_elem_of_singleton. auto.
  - intros task s e. apply process_task_raised. by apply installed_total.
Qed.

(** With the validation of [BaseAgent], a result with a recovered step is
    always accepted. *)
Lemma recovered_result_valid `{H : Host} plan_id step v duration :
  v_valid (validate_execution base_perform_agent_validation
             (execution_summary plan_id [recovered_entry step v duration])) = true.
Proof. reflexivity. Qed.

(** An agent whose capability fails once and then works, on a clock that
    stands still: the retry returns, and the task ends in failure. *)
Lemma step_recovery_once_witness :
  ∃ error_report t (s' : AState (H := Demo.host 0) (C := unit)),
    process_task None (Demo.simple_task "t1")
      (Demo.standalone 0 (Demo.agent 0 "a" "A" None (Demo.flaky 0 "ok")))
    = (Return (TaskFailure "float division by zero" error_report t), s')
    ∧ status (self s') = FAILED.
Proof.
  destruct (step_recovery_once (H := Demo.host 0) None (installed_none unit))
    as [_ Htask].
  destruct (Htask (Demo.simple_task "t1")
              (Demo.standalone 0 (Demo.agent 0 "a" "A" None (Demo.flaky 0 "ok")))
              (Exn PyException "connection refused") provided_by_base_agent eq_refl)
    as (error_report & s' & Hrun & Hstatus).
  by eexists _, _, _.
Defined.

(** The same agent on a clock that advances: the capability is called
    twice, the task ends in success with one step, marked recovered.  On
    the clock that stands still the two calls are made just the same. *)
Example recovered_task_on_two_clocks :
  match process_task (H := Demo.host 1) (C := unit) None (Demo.simple_task "t1")
          (Demo.standalone 1 (Demo.agent 1 "a" "A" None (Demo.flaky 1 "ok"))) with
  | (Return (TaskSuccess result _ _), s') =>
      (λ r, (sr_success r, sr_recovered r)) <$> er_step_results result = [(true, true)]
      ∧ Demo.attempts (world s') = 2 ∧ status (self s') = IDLE
  | _ => False
  end
  ∧ match process_task (H := Demo.host 0) (C := unit) None (Demo.simple_task "t1")
            (Demo.standalone 0 (Demo.agent 0 "a" "A" None (Demo.flaky 0 "ok"))) with
    | (Return (TaskFailure error _ _), s') =>
        error = "float division by zero"
        ∧ Demo.attempts (world s') = 2 ∧ status (self s') = FAILED
    | _ => False
    end.
Proof. vm_compute. repeat split. Qed.

(** The report divides by the measured duration of the steps
    ([300 / total_duration]): on a clock that does not advance, a task
    whose only step succeeded at once still ends in failure. *)
Example report_needs_a_duration :
  match process_task (C := unit) None (Demo.simple_task "t1")
          (Demo.standalone 0 (Demo.agent 0 "a" "A" None (Demo.succeeds 0 "ok"))) with
  | (Return (TaskFailure error _ _), _) => error = "float division by zero"
  | _ => False
  end.
Proof. vm_compute. reflexivity. Qed.

(** ** The orchestrator *)

Section DispatchFacts.
Context `{H : Host}.
Implicit Types (s : AState (C := Board)) (o : OState).

Lemma assigned_app (l1 l2 : list LogRecord) : assigned (l1 ++ l2) = assigned l1 ++ assigned l2.
Proof. unfold assigned. apply omap_app. Qed.

Lemma peer_frame s s' :
  fixed (self s') = fixed (self s) → peer s' = peer s → peer s' = peer s.
Proof. done. Qed.

(** What the orchestrator's callback does to its log: it adds lines that
    are not assignments. *)
Lemma run_notify_orchestrator ev s :
  ∃ st extra,
    notify (Some handle_agent_callback) ev s
    = (Return tt, {| self := self s; peer := (st, (peer s).2 ++ extra); world := world s |})
    ∧ assigned extra = [].
Proof.
  unfold notify. destruct (peer s) as [st lg] eqn:Hp. destruct ev; simpl;
    eexists _, _; (split; [reflexivity|reflexivity]).
Qed.

(** A call of [process_task] on a registered agent returns, and adds to
    the orchestrator's log only lines that are not assignments. *)
Lemma process_task_board task s :
  ∃ tr s' extra,
    process_task (Some handle_agent_callback) task s = (Return tr, s')
    ∧ (peer s').2 = (peer s).2 ++ extra ∧ assigned extra = [].
Proof.
  unfold process_task.
  rewrite run_bind, run_liftW, run_bind, run_with_self, run_bind, run_liftW.
  cbn [self peer world]. unfold try_finally, try_except, process_task_try.
  rewrite run_bind.
  match goal with |- context [process_task_stages task ?s0] =>
    destruct (process_task_stages task s0) as [[e|[result report]] s1] eqn:Hstages;
    (apply (keeps_run peer) in Hstages; [|apply keeps_process_task_stages, peer_frame]) end;
    cbn [peer] in Hstages.
  - unfold process_task_except. rewrite run_bind, run_liftW.
    do 3 (rewrite run_bind, run_with_self; cbn [self peer world]).
    rewrite run_bind, run_handle_task_failure, run_bind, run_gets_state, run_bind.
    cbn [self peer world].
    match goal with |- context [notify _ ?ev ?st] =>
      destruct (run_notify_orchestrator ev st) as (st' & extra & -> & Hextra) end.
    cbn [self peer world]. rewrite Hstages.
    eexists _, _, extra. split; [reflexivity|]. split; [|done].
    unfold process_task_finally. by cbn [peer snd].
  - rewrite run_bind, run_liftW.
    do 3 (rewrite run_bind, run_with_self; cbn [self peer world]).
    rewrite run_bind, run_gets_state, run_bind. cbn [self peer world].
    match goal with |- context [notify _ ?ev ?st] =>
      destruct (run_notify_orchestrator ev st) as (st' & extra & -> & Hextra) end.
    cbn [self peer world]. rewrite Hstages.
    eexists _, _, extra. split; [reflexivity|]. split; [|done].
    unfold process_task_finally. by cbn [peer snd].
Qed.

Lemma run_with_orch (f : Orchestrator → Orchestrator) o :
  with_orch f o = (Return tt, {| orch := f (orch o); env := env o |}).
Proof. reflexivity. Qed.

Lemma run_gets_orch {A} (f : OState → A) o : gets f o = (Return (f o), o).
Proof. reflexivity. Qed.

(** [execute_agent_task] on an agent of the registry returns what the
    agent returns, and logs one assignment, of this task. *)
Lemma execute_agent_task_registered id agent task o :
  dict_get id (agents (orch o)) = Some agent →
  ∃ tr o', execute_agent_task id task o = (Return tr, o')
           ∧ assigned (orchestrator_log (orch o'))
             = assigned (orchestrator_log (orch o)) ++ [tk_id task].
Proof.
  intros Hagent. unfold execute_agent_task. rewrite run_bind, run_gets_orch, Hagent.
  unfold log. rewrite run_bind, run_with_orch, run_bind, run_with_orch.
  cbn [orch env]. unfold try_except. rewrite run_bind. unfold call_process_task.
  cbn [orch env].
  match goal with |- context [process_task _ ?t ?st] =>
    destruct (process_task_board t st) as (tr & s' & extra & -> & Hlog & Hextra) end.
  cbn [peer snd] in Hlog.
  rewrite run_bind, run_with_orch. cbn [orch env].
  eexists _, _. split; [reflexivity|].
  cbn [orch orchestrator_log set_agent_status set_board set_agents add_log snd fst].
  rewrite Hlog. cbn [orchestrator_log set_agent_status set_board add_log snd fst].
  rewrite !assigned_app, Hextra. simpl. by rewrite app_nil_r.
Qed.

Lemma execute_agent_task_unregistered id task o :
  dict_get id (agents (orch o)) = None →
  execute_agent_task id task o
  = (Raise (Exn PyException ("Agent " +:+ id +:+ " not found")), o).
Proof.
  intros Hagent. unfold execute_agent_task. by rewrite run_bind, run_gets_orch, Hagent.
Qed.

(** The id [find_agent_by_type] returns is a key of the registry. *)
Lemma find_agent_by_type_registered orc type id :
  find_agent_by_type orc type = Some id → is_Some (dict_get id (agents orc)).
Proof.
  unfold find_agent_by_type. generalize (default type (dict_get type type_mapping)).
  intros target. induction (agents orc) as [|[id' a] ags IH]; simpl; [done|].
  destruct (bool_decide _ || _).
  - intros [= <-]. by rewrite String.eqb_refl.
  - intros Hfind. destruct (String.eqb id' id); [done|]. by apply IH.
Qed.

End DispatchFacts.

(** *** Sequential phases *)

(** One turn of the loop of a sequential phase. *)
Lemma sequential_tasks_cons `{H : Host} (A : Task) (rest : list Task)
    (results : gmap string TaskEntry) (o : OState) :
  sequential_tasks (A :: rest) results o
  = if check_task_dependencies A results then
      match find_agent_by_type (orch o) (tk_agent A) with
      | Some id =>
          if truthy (Some id) then
            match execute_agent_task id A o with
            | (Raise e, o') => (Raise e, o')
            | (Return (TaskSuccess result report t), o') =>
                sequential_tasks rest
                  (<[tk_id A := EntryResult (TaskSuccess result report t)]> results) o'
            | (Return (TaskFailure error _ _), o') => (Raise (task_failed_error A error), o')
            end
          else (Raise (no_agent_found A), o)
      | None => (Raise (no_agent_found A), o)
      end
    else (Raise (dependencies_not_met A), o).
Proof.
  cbn [sequential_tasks]. rewrite run_bind.
  destruct (check_task_dependencies A results); [|done].
  cbn [mret M_ret]. rewrite run_bind, run_gets_orch.
  destruct (find_agent_by_type (orch o) (tk_agent A)) as [id|]; [|done].
  destruct (truthy (Some id)); [|done]. rewrite run_bind.
  by destruct (execute_agent_task id A o) as [[e|[result report t|error error_report t]] o'].
Qed.

(** C6.  In a sequential phase with tasks [A; B], if the result recorded
    for A is not a success (a failure, or no result at all), the phase
    raises, with the dependency, no-agent or task-failed error of A, and
    B is never dispatched: the phase ends in the very state that running
    A alone ends in, and the only assignment it can have logged is A's.
    This holds whatever B's dependencies are, hence when B depends on
    A. *)
Theorem dependency_gating `{H : Host} (deployment_id : string) (phase_config : PhaseConfig)
    (A B : Task) (o : OState) :
  pc_tasks phase_config = [A; B] →
  tr_success <$> first_task_result A o ≠ Some true →
  ∃ e o' dispatched,
    execute_sequential_phase deployment_id phase_config o = (Raise e, o')
    ∧ sequential_tasks [A] ∅ o = (Raise e, o')
    ∧ assigned (orchestrator_log (orch o'))
      = assigned (orchestrator_log (orch o)) ++ dispatched
    ∧ (dispatched = [] ∨ dispatched = [tk_id A])
    ∧ (e = dependencies_not_met A ∨ e = no_agent_found A
       ∨ ∃ error, e = task_failed_error A error).
Proof.
  intros Htasks Hfirst. unfold execute_sequential_phase. rewrite Htasks.
  rewrite run_bind, !sequential_tasks_cons. unfold first_task_result in Hfirst.
  destruct (check_task_dependencies A ∅).
  2:{ exists (dependencies_not_met A), o, []. rewrite app_nil_r. by eauto 10. }
  destruct (find_agent_by_type (orch o) (tk_agent A)) as [id|] eqn:Hfind.
  2:{ exists (no_agent_found A), o, []. rewrite app_nil_r. by eauto 10. }
  destruct (truthy (Some id)).
  2:{ exists (no_agent_found A), o, []. rewrite app_nil_r. by eauto 10. }
  destruct (find_agent_by_type_registered _ _ _ Hfind) as [agent Hagent].
  destruct (execute_agent_task_registered id agent A o Hagent) as (tr & o' & Hrun & Hlog).
  rewrite Hrun in Hfirst |- *. cbn [fst] in Hfirst.
  destruct tr as [result report t|error error_report t]; [done|].
  exists (task_failed_error A error), o', [tk_id A]. by eauto 10.
Qed.

(** The Configuration phase of the scenario, with a DNS agent whose
    capability keeps raising. *)
Lemma dependency_gating_witness :
  let phase_config := plan_configuration_phase Demo.scenario_request in
  let o : OState (H := Demo.host 1) :=
    Demo.start 1 (Demo.team 1 (Demo.succeeds 1 "n8n") (Demo.fails 1 "dns down")) in
  ∃ A B,
    pc_tasks phase_config = [A; B]
    ∧ tk_dependencies B = Some [tk_id A]
    ∧ ∃ e o' dispatched,
        execute_sequential_phase "d" phase_config o = (Raise e, o')
        ∧ sequential_tasks [A] ∅ o = (Raise e, o')
        ∧ assigned (orchestrator_log (orch o'))
          = assigned (orchestrator_log (orch o)) ++ dispatched
        ∧ (dispatched = [] ∨ dispatched = [tk_id A])
        ∧ (e = dependencies_not_met A ∨ e = no_agent_found A
           ∨ ∃ error, e = task_failed_error A error).
Proof.
  intros phase_config o. eexists _, _. split; [reflexivity|]. split; [reflexivity|].
  eapply (dependency_gating (H := Demo.host 1) "d" phase_config); [reflexivity|].
  vm_compute. discriminate.
Defined.

(** There the proxy task is not dispatched: the only assignment logged is
    the one of the DNS task. *)
Example proxy_not_dispatched :
  match execute_sequential_phase "d" (plan_configuration_phase Demo.scenario_request)
          (Demo.start 1 (Demo.team 1 (Demo.succeeds 1 "n8n") (Demo.fails 1 "dns down"))) with
  | (Raise e, o') =>
      exn_str e
      = "Task dns_configuration failed: Step 1 failed and could not be recovered: dns down"
      ∧ assigned (orchestrator_log (orch o')) = ["dns_configuration"]
  | _ => False
  end.
Proof. vm_compute. repeat split. Qed.

(** *** Parallel phases *)

Section FanIn.
Context `{H : Host}.
Implicit Types (o : OState) (results : gmap string TaskEntry)
  (l : list (Task * Exc TaskResult)).

Local Abbreviation store :=
  (λ results '(task, result), <[tk_id task := entry_of result]> results).

Lemma store_other l results k :
  k ∉ (λ p, tk_id p.1) <$> l → foldl store results l !! k = results !! k.
Proof.
  revert results. induction l as [|[task r] l IH]; intros results; [done|].
  rewrite fmap_cons, not_elem_of_cons. intros [Hk Hl]. simpl.
  rewrite IH by done. by rewrite lookup_insert_ne.
Qed.

Lemma store_lookup l results i task r :
  NoDup ((λ p, tk_id p.1) <$> l) → l !! i = Some (task, r) →
  foldl store results l !! tk_id task = Some (entry_of r).
Proof.
  revert results i. induction l as [|[task0 r0] l IH]; intros results i; [done|].
  rewrite fmap_cons, NoDup_cons. intros [Hhd Hnd]. destruct i as [|i]; simpl.
  - intros [= -> ->]. rewrite store_other by done. apply lookup_insert_eq.
  - by apply IH.
Qed.

Lemma store_origin l results k entry :
  foldl store results l !! k = Some entry →
  (∃ task r, (task, r) ∈ l ∧ tk_id task = k ∧ entry_of r = entry)
  ∨ results !! k = Some entry.
Proof.
  revert results. induction l as [|[task0 r0] l IH]; intros results; simpl; [by right|].
  intros Hk. apply IH in Hk as [(task & r & Hin & Hid & He)|Hk].
  - left. exists task, r. split; [by right|done].
  - destruct (decide (tk_id task0 = k)) as [<-|Hne].
    + rewrite lookup_insert_eq in Hk. injection Hk as <-.
      left. exists task0, r0. split; [by left|done].
    + rewrite lookup_insert_ne in Hk by done. by right.
Qed.

Lemma store_dom l results :
  dom (foldl store results l) = list_to_set ((λ p, tk_id p.1) <$> l) ∪ dom results.
Proof.
  revert results. induction l as [|[task r] l IH]; intros results; simpl.
  - by rewrite (left_id_L ∅ (∪)).
  - by rewrite IH, dom_insert_L, (assoc_L (∪)), (comm_L (∪) _ {[tk_id task]}).
Qed.

Lemma zip_keys (tasks : list Task) (outcomes : list (Exc TaskResult)) :
  length outcomes = length tasks →
  (λ p : Task * Exc TaskResult, tk_id p.1) <$> zip tasks outcomes = tk_id <$> tasks.
Proof.
  revert outcomes. induction tasks as [|task tasks IH]; intros [|r outcomes]; try done.
  simpl. intros [= Hlen]. by rewrite IH.
Qed.

(** The success flag of a parallel phase is the conjunction of the
    entries stored for the gathered results. *)
Lemma all_success_collect tasks outcomes :
  NoDup (tk_id <$> tasks) → length outcomes = length tasks →
  all_success (collect_results tasks outcomes)
  = forallb (λ r, entry_success (entry_of r)) outcomes.
Proof.
  intros Hnd Hlen. unfold all_success, collect_results.
  pose proof (zip_keys tasks outcomes Hlen) as Hkeys.
  apply eq_bool_prop_intro. rewrite bool_decide_spec, forallb_True.
  rewrite <- (snd_zip tasks outcomes) at 2 by lia. rewrite Forall_fmap.
  rewrite Forall_forall. unfold map_Forall. split.
  - intros Hall [task r] Hin. simpl.
    apply list_elem_of_lookup in Hin as [i Hi]. apply Is_true_true.
    apply (Hall (tk_id task)). eapply store_lookup; [by rewrite Hkeys|done].
  - intros Hall k entry Hk. apply store_origin in Hk as [(task & r & Hin & <- & <-)|Hk].
    + apply Is_true_true. by apply (Hall (task, r)).
    + by rewrite lookup_empty in Hk.
Qed.

(** Every coroutine is run, and its outcome collected. *)
Lemma gather_length coroutines o :
  ∃ outcomes o', gather coroutines o = (Return outcomes, o')
                 ∧ length outcomes = length coroutines.
Proof.
  revert o. induction coroutines as [|[id task] coroutines IH]; intros o; simpl.
  - by eexists _, _.
  - rewrite run_bind. destruct (execute_agent_task id task o) as [r o1].
    rewrite run_bind. destruct (IH o1) as (outcomes & o2 & -> & Hlen).
    eexists _, _. split; [reflexivity|]. simpl. by rewrite Hlen.
Qed.

(** When every task resolves, there is one coroutine for each task, in
    the order of the tasks. *)
Lemma task_coroutines_resolved orc tasks :
  (∀ task, task ∈ tasks → resolves orc task) →
  (task_coroutines orc tasks).*2 = tasks.
Proof.
  induction tasks as [|task tasks IH]; intros Hres; [done|].
  unfold task_coroutines in *. cbn [omap list_omap].
  destruct (Hres task) as (id & -> & ->); [by left|].
  rewrite fmap_cons. cbn [snd]. f_equal. apply IH. intros t Ht. apply Hres. by right.
Qed.

(** A parallel phase returns, whatever its tasks do. *)
Lemma execute_parallel_phase_returns deployment_id phase_config o :
  ∃ pr o', execute_parallel_phase deployment_id phase_config o = (Return pr, o').
Proof.
  unfold execute_parallel_phase. rewrite run_bind, run_gets_orch, run_bind.
  destruct (gather_length (task_coroutines (orch o) (pc_tasks phase_config)) o)
    as (outcomes & o' & -> & _).
  by eexists _, _.
Qed.

End FanIn.

(** There the second task fails: the phase reports failure and keeps the
    successful results of the first and the third task. *)
Example fan_in_with_a_failed_sibling :
  match execute_parallel_phase "d" Demo.fan_out_phase
          (Demo.start 1 (Demo.team 1 (Demo.fails 1 "boom") (Demo.succeeds 1 "dns"))) with
  | (Return pr, o') =>
      pr_success pr = false
      ∧ entry_success (H := Demo.host 1) <$> (pr_task_results pr !! "t1") = Some true
      ∧ entry_success (H := Demo.host 1) <$> (pr_task_results pr !! "t2") = Some false
      ∧ entry_success (H := Demo.host 1) <$> (pr_task_results pr !! "t3") = Some true
  | _ => False
  end.
Proof. vm_compute. repeat split. Qed.

(** *** Tasks whose agent is not registered *)

(** In a sequential phase, a task that is reached with its dependencies
    met and whose agent name does not resolve ends the phase with the
    "No agent found" error, before anything is dispatched. *)
Lemma sequential_unresolved `{H : Host} (A : Task) (rest : list Task)
    (results : gmap string TaskEntry) (o : OState) :
  check_task_dependencies A results = true →
  ¬ resolves (orch o) A →
  sequential_tasks (A :: rest) results o = (Raise (no_agent_found A), o).
Proof.
  intros Hdeps Hres. rewrite sequential_tasks_cons, Hdeps.
  destruct (find_agent_by_type (orch o) (tk_agent A)) as [id|] eqn:Hfind; [|done].
  destruct (truthy (Some id)) eqn:Hid; [|done]. destruct Hres. by exists id.
Qed.

(** C3 (the code departs from the claim).  A parallel Services phase with
    the tasks n8n_deployment and supabase_deployment, on an orchestrator
    where no agent resolves for "n8n_agent": the phase does not fail and
    records no "no agent found" error.  The N8N task is skipped, only the
    Supabase task is dispatched, its successful result is stored under
    the id n8n_deployment (the results are matched to the tasks by
    position), nothing is stored under supabase_deployment, and the phase
    reports [success: True]. *)
Theorem parallel_unresolved_task_skipped :
  find_agent_by_type (Demo.partial_team 1) "n8n_agent" = None
  ∧ tk_id <$> pc_tasks (plan_services_phase Demo.both_services_request)
    = ["n8n_deployment"; "supabase_deployment"]
  ∧ match execute_parallel_phase "d" (plan_services_phase Demo.both_services_request)
            (Demo.start 1 (Demo.partial_team 1)) with
    | (Return pr, o') =>
        pr_success pr = true
        ∧ assigned (orchestrator_log (orch o')) = ["supabase_deployment"]
        ∧ entry_success (H := Demo.host 1) <$> (pr_task_results pr !! "n8n_deployment")
          = Some true
        ∧ pr_task_results pr !! "supabase_deployment" = None
    | _ => False
    end.
Proof. vm_compute. repeat split. Qed.

(** *** Deployments *)

(** C1 (the code departs from the claim).  The validated scenario
    request, on an orchestrator with all seven agents registered and an
    N8N agent whose capability always raises: the parallel Services phase
    ends with [success: False], yet the deployment is not aborted.  The
    Configuration, Validation and Reporting tasks are dispatched after
    it, and [deploy_infrastructure] returns [success: True], with a final
    report whose execution summary says [success: False]. *)
Theorem failed_parallel_phase_not_aborted :
  match deploy_infrastructure Demo.validated_request
          (Demo.start 1 (Demo.team 1 (Demo.fails 1 "boom") (Demo.succeeds 1 "dns"))) with
  | (Return (DeploymentSuccess id t result final_report), o') =>
      (λ r, (r.1, pr_success r.2)) <$> result
      = [("infrastructure", true); ("services", false); ("configuration", true);
         ("validation", true); ("reporting", true)]
      ∧ fr_success final_report = false
      ∧ assigned (orchestrator_log (orch o'))
        = ["base_server_setup"; "n8n_deployment"; "dns_configuration";
           "proxy_configuration"; "system_validation"; "final_report"]
  | _ => False
  end.
Proof. vm_compute. repeat split. Qed.

(** The sibling path: the same failing agent in a sequential phase ends
    the phase, and with it the deployment, at once. *)
Lemma failed_sequential_phase_aborts :
  match deploy_infrastructure Demo.validated_request
          (Demo.start 1 (Demo.team 1 (Demo.succeeds 1 "n8n") (Demo.fails 1 "dns down"))) with
  | (Return (DeploymentFailure id t error error_report), o') =>
      phase_at_failure error_report = "configuration"
      ∧ completed_phases error_report = ["infrastructure"; "services"]
      ∧ assigned (orchestrator_log (orch o'))
        = ["base_server_setup"; "n8n_deployment"; "dns_configuration"]
  | _ => False
  end.
Proof. vm_compute. repeat split. Qed.

Section DeployFacts.
Context `{H : Host}.
Implicit Types (o : OState).

Lemma run_liftOW {A} (f : World → A * World) o :
  liftOW f o = (Return (f (env o)).1, {| orch := orch o; env := (f (env o)).2 |}).
Proof. unfold liftOW. by destruct (f (env o)). Qed.

(** The [except] block of [deploy_infrastructure] returns the failure
    result, with the phase that was current when the exception came. *)
Lemma deploy_infrastructure_except_returns id start_time e o :
  ∃ t error_report o',
    deploy_infrastructure_except id start_time e o
    = (Return (DeploymentFailure id t (exn_str e) error_report), o')
    ∧ fl_error error_report = exn_str e
    ∧ phase_at_failure error_report = DeploymentPhase.value (current_phase (orch o)).
Proof.
  unfold deploy_infrastructure_except, log.
  rewrite run_bind, run_liftOW, run_bind, run_with_orch, run_bind, run_gets_orch.
  rewrite run_bind, run_with_orch. by eexists _, _, _.
Qed.

(** A deployment whose [try] block raises returns a failure. *)
Lemma deploy_infrastructure_failure request o e o1 :
  deploy_infrastructure_try (uuid4 (env o)).1
    (time_time (uuid4 (env o)).2).1 request
    {| orch := orch o; env := (time_time (uuid4 (env o)).2).2 |} = (Raise e, o1) →
  ∃ id t error_report o',
    deploy_infrastructure request o
    = (Return (DeploymentFailure id t (exn_str e) error_report), o')
    ∧ phase_at_failure error_report = DeploymentPhase.value (current_phase (orch o1)).
Proof.
  intros Htry. unfold deploy_infrastructure.
  rewrite run_bind, run_liftOW, run_bind, run_liftOW. cbn [orch env].
  unfold try_except. rewrite Htry.
  match goal with |- context [deploy_infrastructure_except ?id ?st e o1] =>
    destruct (deploy_infrastructure_except_returns id st e o1)
      as (t & fr & o' & -> & _ & Hphase) end.
  by eexists _, _, _, _.
Qed.

(** The plan of a request that asks for N8N only. *)
Lemma plan_for_n8n {S} (request : Request) (s : S) :
  rq_services request = Some ["n8n"] →
  ∃ plan, create_master_execution_plan request s = (Return plan, s)
          ∧ pc_phase <$> pl_phases plan
            = [DeploymentPhase.INFRASTRUCTURE; DeploymentPhase.SERVICES;
               DeploymentPhase.CONFIGURATION; DeploymentPhase.VALIDATION;
               DeploymentPhase.REPORTING]
          ∧ pl_phases plan !! 1 = Some (plan_services_phase request)
          ∧ tk_id <$> pc_tasks (plan_services_phase request) = ["n8n_deployment"].
Proof.
  intros Hs.
  unfold create_master_execution_plan, estimate_total_duration, plan_services_phase.
  rewrite Hs. eexists. split; [reflexivity|]. by repeat split.
Qed.

(** Without the services n8n and supabase, planning raises: the duration
    of the parallel Services phase is the maximum over no task. *)
Lemma plan_without_services {S} (request : Request) (s : S) :
  pc_tasks (plan_services_phase request) = [] →
  create_master_execution_plan request s
  = (Raise (Exn PyValueError "max() arg is an empty sequence"), s).
Proof.
  intros Htasks. unfold create_master_execution_plan, estimate_total_duration.
  cbn [app estimate_phases]. rewrite !run_bind.
  cbn [pc_parallel_execution plan_infrastructure_phase mret M_ret].
  change (pc_parallel_execution (plan_services_phase request)) with true.
  cbn iota. by rewrite Htasks.
Qed.

End DeployFacts.

(** *** The end-to-end scenario *)

(** The top-level validation requires domain, email and server_ip, and
    nothing else. *)
Lemma validate_deployment_request_accepts {S} (today now : string) (request : RequestDict)
    (s : S) :
  truthy (slot_get (rd_domain request)) = true →
  truthy (slot_get (rd_email request)) = true →
  truthy (slot_get (rd_server_ip request)) = true →
  ∃ validated, validate_deployment_request today now request s = (Return validated, s)
               ∧ rd_project_name validated
                 = slot_of (slot_get_or ("project_" +:+ today) (rd_project_name request)).
Proof.
  intros Hd He Hi. unfold validate_deployment_request. simpl.
  rewrite !filter_cons, filter_nil. simpl. rewrite Hd, He, Hi. simpl.
  eexists. split; reflexivity.
Qed.

(** C2, against the claim as stated.  The orchestrator's own validation
    does not pass for the scenario request, because it also requires
    project_name; a deployment of this request fails before planning,
    with "initialization", not "services", as the phase at failure.  And
    for the request as the top-level validation hands it on, a deployment
    whose N8N capability raises does not return [success: False]. *)
Lemma scenario_counterexample :
  (process_client_data Demo.scenario_request tt).1
  = Raise (Exn PyValueError "Missing required fields: ['project_name']")
  ∧ match deploy_infrastructure Demo.scenario_request
            (Demo.start 1 (Demo.team 1 (Demo.fails 1 "boom") (Demo.succeeds 1 "dns"))) with
    | (Return (DeploymentFailure id t error error_report), o') =>
        error = "Missing required fields: ['project_name']"
        ∧ phase_at_failure error_report = "initialization"
        ∧ phase_at_failure error_report ≠ "services"
        ∧ assigned (orchestrator_log (orch o')) = []
    | _ => False
    end
  ∧ (validate_deployment_request "20250101" "20250101_000000"
       (request_dict Demo.scenario_request) tt).1
    = Return Demo.validated_dict
  ∧ orchestrator_request Demo.validated_dict = Some Demo.validated_request
  ∧ match deploy_infrastructure Demo.validated_request
            (Demo.start 1 (Demo.team 1 (Demo.fails 1 "boom") (Demo.succeeds 1 "dns"))) with
    | (Return r, _) => dr_success r = true
    | _ => False
    end.
Proof. vm_compute. repeat split. discriminate. Qed.

(** C2, amended.  For the scenario request: the orchestrator's
    [process_client_data] rejects it, since project_name is required
    too, so that [deploy_infrastructure] called with it returns a failure
    whose phase at failure is the phase the orchestrator was in
    ("initialization" for a new one); the top-level
    [validate_deployment_request] accepts it and fills in project_name,
    and [process_client_data] accepts what it returns; the master
    execution plan of the request, validated or not, has exactly the five
    phases, and its Services phase has exactly one task, n8n_deployment. *)
Theorem scenario_validation_and_plan `{H : Host} :
  (∀ o : OState,
     process_client_data Demo.scenario_request o
     = (Raise (Exn PyValueError "Missing required fields: ['project_name']"), o))
  ∧ (∀ o : OState,
       ∃ id t error_report o',
         deploy_infrastructure Demo.scenario_request o
         = (Return (DeploymentFailure id t "Missing required fields: ['project_name']"
                      error_report), o')
         ∧ phase_at_failure error_report = DeploymentPhase.value (current_phase (orch o)))
  ∧ DeploymentPhase.value (current_phase new_orchestrator) = "initialization"
  ∧ (∀ (today now : string) (o : OState),
       ∃ validated_dict validated client_data,
         validate_deployment_request today now (request_dict Demo.scenario_request) o
         = (Return validated_dict, o)
         ∧ orchestrator_request validated_dict = Some validated
         ∧ rq_project_name validated = Some ("project_" +:+ today)
         ∧ rq_services validated = Some ["n8n"]
         ∧ process_client_data validated o = (Return client_data, o))
  ∧ (∀ (request : Request) (o : OState),
       rq_services request = Some ["n8n"] →
       ∃ plan,
         create_master_execution_plan request o = (Return plan, o)
         ∧ pc_phase <$> pl_phases plan
           = [DeploymentPhase.INFRASTRUCTURE; DeploymentPhase.SERVICES;
              DeploymentPhase.CONFIGURATION; DeploymentPhase.VALIDATION;
              DeploymentPhase.REPORTING]
         ∧ pl_phases plan !! 1 = Some (plan_services_phase request)
         ∧ tk_id <$> pc_tasks (plan_services_phase request) = ["n8n_deployment"]).
Proof.
  split; [done|]. split; [|split; [done|split]].
  - intros o.
    destruct (deploy_infrastructure_failure Demo.scenario_request o
                (Exn PyValueError "Missing required fields: ['project_name']")
                {| orch := add_log (log_info ("Starting deployment " +:+ (uuid4 (env o)).1))
                             (orch o);
                   env := (time_time (uuid4 (env o)).2).2 |} eq_refl)
      as (id & t & fr & o' & Hrun & Hphase).
    by eexists _, _, _, _.
  - intros today now o. eexists _, _, _. split; [reflexivity|]. split; [reflexivity|].
    by repeat split.
  - intros request o Hs. by apply plan_for_n8n.
Qed.

(** *** Requests without services *)

(** C10.  For a request whose services list is empty or absent, the
    Services phase is planned with no task, [create_master_execution_plan]
    raises the [ValueError] of [max] over an empty sequence, and
    [deploy_infrastructure] returns a failure result, in every state of
    the orchestrator and of the world. *)
Theorem plan_fails_without_services `{H : Host} (request : Request) :
  default [] (rq_services request) = [] →
  pc_tasks (plan_services_phase request) = []
  ∧ (∀ o : OState,
       create_master_execution_plan request o
       = (Raise (Exn PyValueError "max() arg is an empty sequence"), o))
  ∧ (∀ o : OState,
       ∃ id t error error_report o',
         deploy_infrastructure request o
         = (Return (DeploymentFailure id t error error_report), o')).
Proof.
  intros Hs.
  assert (pc_tasks (plan_services_phase request) = []) as Htasks.
  { unfold plan_services_phase. by rewrite Hs. }
  split; [done|]. split; [intros o; by apply plan_without_services|].
  intros o.
  destruct (deploy_infrastructure_try (uuid4 (env o)).1 (time_time (uuid4 (env o)).2).1
              request {| orch := orch o; env := (time_time (uuid4 (env o)).2).2 |})
    as [[e|r] o1] eqn:Htry.
  - destruct (deploy_infrastructure_failure request o e o1 Htry)
      as (id & t & fr & o' & Hrun & _). by eexists _, _, _, _, _.
  - exfalso. revert Htry. unfold deploy_infrastructure_try, log.
    rewrite run_bind, run_with_orch, run_bind.
    destruct (initialize_deployment _ request _) as [[e|deployment] o2]; [done|].
    rewrite run_bind, run_with_orch, run_bind.
    by rewrite (plan_without_services request _ Htasks).
Qed.

(** A complete request without a services list, on a new orchestrator. *)
Lemma plan_fails_without_services_witness :
  pc_tasks (plan_services_phase Demo.no_services_request) = []
  ∧ (∀ o : OState (H := Demo.host 1),
       create_master_execution_plan Demo.no_services_request o
       = (Raise (Exn PyValueError "max() arg is an empty sequence"), o))
  ∧ (∀ o : OState (H := Demo.host 1),
       ∃ id t error error_report o',
         deploy_infrastructure Demo.no_services_request o
         = (Return (DeploymentFailure id t error error_report), o')).
Proof.
  apply (plan_fails_without_services (H := Demo.host 1) Demo.no_services_request).
  reflexivity.
Defined.

(** There the deployment fails with the error of [max], before any phase
    has started. *)
Example deployment_without_services :
  match deploy_infrastructure (H := Demo.host 1) Demo.no_services_request
          (Demo.start 1 new_orchestrator) with
  | (Return (DeploymentFailure id t error error_report), o') =>
      error = "max() arg is an empty sequence"
      ∧ phase_at_failure error_report = "initialization"
  | _ => False
  end.
Proof. vm_compute. repeat split. Qed.

(** * Further properties of the code *)

(** ** Risk rating of a task *)

(** X1.  [assess_task_risk] rates every task "low", "medium" or "high",
    and a task with at least as many parameters and at least as many
    dependencies as another is never rated lower. *)
Theorem assess_task_risk_monotone (t1 t2 : TaskDict) :
  length (default [] (td_parameters t1)) ≤ length (default [] (td_parameters t2)) →
  length (default [] (td_dependencies t1)) ≤ length (default [] (td_dependencies t2)) →
  assess_task_risk t1 ∈ ["low"; "medium"; "high"]
  ∧ risk_rank (assess_task_risk t1) ≤ risk_rank (assess_task_risk t2).
Proof.
  unfold assess_task_risk. intros Hp Hd.
  generalize dependent (length (default [] (td_parameters t1))).
  generalize dependent (length (default [] (td_parameters t2))).
  generalize dependent (length (default [] (td_dependencies t1))).
  generalize dependent (length (default [] (td_dependencies t2))).
  intros d2 d1 Hd p2 p1 Hp.
  destruct (10 <? p1) eqn:E1, (5 <? d1) eqn:E2, (5 <? p1) eqn:E3, (2 <? d1) eqn:E4,
           (10 <? p2) eqn:E5, (5 <? d2) eqn:E6, (5 <? p2) eqn:E7, (2 <? d2) eqn:E8;
    simpl; (split; [set_solver|]); try (unfold risk_rank; simpl; lia);
    repeat match goal with
           | E : (_ <? _) = true |- _ => apply Nat.ltb_lt in E
           | E : (_ <? _) = false |- _ => apply Nat.ltb_ge in E
           end; lia.
Qed.

Lemma assess_task_risk_monotone_witness :
  assess_task_risk (Demo.simple_task "t") ∈ ["low"; "medium"; "high"]
  ∧ risk_rank (assess_task_risk (Demo.simple_task "t"))
    ≤ risk_rank (assess_task_risk (task_dict (n8n_task Demo.scenario_request))).
Proof.
  apply (assess_task_risk_monotone (Demo.simple_task "t")
           (task_dict (n8n_task Demo.scenario_request))); simpl; lia.
Defined.

(** ** The agent registry *)

Lemma dict_get_set {V} (k k' : string) (v : V) (d : list (string * V)) :
  dict_get k' (dict_set k v d) = if decide (k' = k) then Some v else dict_get k' d.
Proof.
  induction d as [|[k0 v0] d IH]; simpl.
  - case_decide as Hk; [subst; by rewrite String.eqb_refl|].
    destruct (String.eqb k k') eqn:E; [|done]. apply String.eqb_eq in E. by subst.
  - destruct (String.eqb k0 k) eqn:E0; simpl.
    + apply String.eqb_eq in E0 as ->.
      case_decide as Hk; [subst; by rewrite String.eqb_refl|].
      destruct (String.eqb k k') eqn:E; [|done]. apply String.eqb_eq in E. by subst.
    + destruct (String.eqb k0 k') eqn:E1; [|done].
      apply String.eqb_eq in E1 as ->. apply String.eqb_neq in E0.
      by case_decide.
Qed.

Lemma dict_set_keys {V} (k : string) (v : V) (d : list (string * V)) :
  (dict_set k v d).*1 = if decide (k ∈ d.*1) then d.*1 else d.*1 ++ [k].
Proof.
  induction d as [|[k0 v0] d IH].
  - simpl. destruct (decide (k ∈ [])) as [Hin|Hin]; [by apply elem_of_nil in Hin|done].
  - cbn [dict_set]. destruct (String.eqb k0 k) eqn:E0.
    + apply String.eqb_eq in E0 as ->. rewrite !fmap_cons. cbn [fst].
      destruct (decide (k ∈ k :: d.*1)) as [Hin|Hin]; [done|]. destruct Hin. by left.
    + apply String.eqb_neq in E0. rewrite !fmap_cons, IH. cbn [fst].
      destruct (decide (k ∈ d.*1)) as [Hin|Hin],
               (decide (k ∈ k0 :: d.*1)) as [Hin'|Hin']; try done.
      * destruct Hin'. by right.
      * apply elem_of_cons in Hin' as [->|Hin']; done.
Qed.

(** X2.  After [register_agent], the agent is the one found under its
    id, with status idle; every other id resolves as before; and the ids
    keep their order, the new one coming last, so that registering under
    an id that is taken replaces the agent in place. *)
Theorem register_agent_lookup `{H : Host} (agent : Agent) (orc : Orchestrator) (id : string) :
  let orc' := register_agent agent orc in
  dict_get id (agents orc')
  = (if decide (id = agent_id agent) then Some agent else dict_get id (agents orc))
  ∧ agent_status orc' !! id
    = (if decide (id = agent_id agent) then Some IDLE else agent_status orc !! id)
  ∧ (agents orc').*1
    = (if decide (agent_id agent ∈ (agents orc).*1) then (agents orc).*1
       else (agents orc).*1 ++ [agent_id agent]).
Proof.
  unfold register_agent. cbn [agents agent_status add_log set_board set_agent_status
                              set_agents fst snd].
  split; [apply dict_get_set|]. split; [|apply dict_set_keys].
  case_decide as Hid; [subst; apply lookup_insert_eq|]. by rewrite lookup_insert_ne.
Qed.

(** X3.  [find_agent_by_type] translates the logical name through its
    table (an unknown name stands for itself) and returns the id of the
    first registered agent that matches the translated type; it returns
    nothing exactly when no registered agent matches. *)
Theorem find_agent_by_type_first_match `{H : Host} (orc : Orchestrator) (type : string) :
  let target_type := default type (dict_get type type_mapping) in
  match find_agent_by_type orc type with
  | Some id =>
      ∃ before agent after,
        agents orc = before ++ (id, agent) :: after
        ∧ agent_matches target_type agent
        ∧ ∀ p, p ∈ before → ¬ agent_matches target_type p.2
  | None => ∀ p, p ∈ agents orc → ¬ agent_matches target_type p.2
  end.
Proof.
  intros target_type. unfold find_agent_by_type. fold target_type.
  assert (∀ agent : Agent,
            bool_decide (agent_type agent = Some target_type)
            || is_substring target_type (lower (agent_name agent)) = true
            ↔ agent_matches target_type agent) as Hm.
  { intros agent. unfold agent_matches.
    rewrite orb_true_iff, bool_decide_eq_true. done. }
  induction (agents orc) as [|[id agent] ags IH]; simpl.
  - intros p Hp. by apply elem_of_nil in Hp.
  - destruct (bool_decide _ || _) eqn:E; simpl.
    + exists [], agent, ags. split; [done|]. split; [by apply Hm|].
      intros p Hp. by apply elem_of_nil in Hp.
    + destruct (find _ ags) as [[id' agent']|] eqn:Hfind; simpl in *.
      * destruct IH as (before & a & after & -> & Ha & Hbefore).
        exists ((id, agent) :: before), a, after. split; [done|]. split; [done|].
        intros p [->|Hp]%elem_of_cons; [|by apply Hbefore].
        simpl. rewrite <- Hm, E. done.
      * intros p [->|Hp]%elem_of_cons; [|by apply IH].
        simpl. rewrite <- Hm, E. done.
Qed.

(** ** Planning *)

(** X4.  [create_master_execution_plan] returns a plan exactly when the
    request asks for n8n or for supabase; the plan then has the five
    phases in their fixed order, only the Services phase is parallel, the
    one parallel group is the list of its task ids, and the estimated
    duration is 1740 seconds whether one service or both are deployed
    (the parallel phase counts its longest task only).  For any other
    services list it raises the [ValueError] of [max]. *)
Theorem create_master_execution_plan_outcome {S : Type} (request : Request) (s : S) :
  let services := default [] (rq_services request) in
  if bool_decide ("n8n" ∈ services) || bool_decide ("supabase" ∈ services) then
    ∃ plan,
      create_master_execution_plan request s = (Return plan, s)
      ∧ pc_phase <$> pl_phases plan
        = [DeploymentPhase.INFRASTRUCTURE; DeploymentPhase.SERVICES;
           DeploymentPhase.CONFIGURATION; DeploymentPhase.VALIDATION;
           DeploymentPhase.REPORTING]
      ∧ pc_parallel_execution <$> pl_phases plan = [false; true; false; false; false]
      ∧ pl_parallel_groups plan = [tk_id <$> pc_tasks (plan_services_phase request)]
      ∧ pl_estimated_duration plan = 1740
  else
    create_master_execution_plan request s
    = (Raise (Exn PyValueError "max() arg is an empty sequence"), s).
Proof.
  intros services.
  destruct (bool_decide ("n8n" ∈ services)) eqn:E1,
           (bool_decide ("supabase" ∈ services)) eqn:E2; simpl.
  4:{ apply plan_without_services. unfold plan_services_phase. fold services.
      by rewrite E1, E2. }
  all: unfold create_master_execution_plan, estimate_total_duration, plan_services_phase;
    fold services; rewrite E1, E2; eexists; split; [reflexivity|]; by repeat split.
Qed.

(** ** Request validation *)

(** X5.  [process_client_data] accepts a request exactly when domain,
    email, project_name and server_ip are all present and not empty; it
    then fills in the default services n8n and supabase when the request
    names none.  Otherwise it raises a [ValueError], and in both cases it
    changes nothing. *)
Theorem process_client_data_required {S : Type} (request : Request) (s : S) :
  let complete := truthy (rq_domain request) && truthy (rq_email request)
                  && truthy (rq_project_name request) && truthy (rq_server_ip request) in
  match process_client_data request s with
  | (Return client_data, s') =>
      complete = true ∧ s' = s
      ∧ cd_services client_data = default ["n8n"; "supabase"] (rq_services request)
  | (Raise e, s') => complete = false ∧ s' = s ∧ exn_class e = PyValueError
  end.
Proof.
  unfold process_client_data. simpl. rewrite !filter_cons, filter_nil. simpl.
  destruct (truthy (rq_domain request)), (truthy (rq_email request)),
           (truthy (rq_project_name request)), (truthy (rq_server_ip request));
    simpl; by repeat split.
Qed.

Lemma slot_get_of {A} (value : option A) : slot_get (slot_of value) = value.
Proof. by destruct value. Qed.

Lemma slot_get_or_of {A} (d : A) (value : option A) : slot_get_or d (slot_of value) = value.
Proof. by destruct value. Qed.

(** X6.  What [validate_deployment_request] returns is a fixed point of
    it, whatever the date.  An absent project_name becomes the default,
    and a project_name that is present keeps what it held, [None] too.
    So when the request holds [None] under no key and its project_name is
    not empty, [process_client_data] accepts the validated request; and
    when the request holds [None] under project_name, the validated
    request does too, and [process_client_data] rejects it. *)
Theorem validate_deployment_request_then_process {S : Type} (today now today' now' : string)
    (request validated : RequestDict) (s : S) :
  validate_deployment_request today now request s = (Return validated, s) →
  validate_deployment_request today' now' validated s = (Return validated, s)
  ∧ rd_project_name validated
    = match rd_project_name request with
      | Absent => Holds ("project_" +:+ today)
      | slot => slot
      end
  ∧ (∀ given, request = request_dict given → rq_project_name given ≠ Some "" →
       ∃ accepted client_data,
         orchestrator_request validated = Some accepted
         ∧ process_client_data accepted s = (Return client_data, s))
  ∧ (rd_project_name request = HoldsNone →
     ∀ read, orchestrator_request validated = Some read →
             ∃ e, process_client_data read s = (Raise e, s)).
Proof.
  unfold validate_deployment_request at 1. simpl. rewrite !filter_cons, filter_nil. simpl.
  destruct (truthy (slot_get (rd_domain request))) eqn:Hd,
           (truthy (slot_get (rd_email request))) eqn:He,
           (truthy (slot_get (rd_server_ip request))) eqn:Hi; simpl; try done.
  intros [= <-]. split; [|split; [|split]].
  - unfold validate_deployment_request. simpl. rewrite !filter_cons, filter_nil. simpl.
    rewrite !slot_get_of, !slot_get_or_of, Hd, He, Hi. done.
  - by destruct (rd_project_name request).
  - intros given -> Hp. destruct given as [d e p c ip ssh cf sv cfg did].
    simpl in *. unfold orchestrator_request. simpl.
    assert (truthy (slot_get (slot_of (slot_get_or ("project_" +:+ today)
                                          (slot_if_present p)))) = true) as Hname.
    { destruct p as [[|ch p]|]; simpl; done. }
    destruct ssh, sv, cfg; simpl; eexists _, _; (split; [reflexivity|]);
      unfold process_client_data; simpl; rewrite !filter_cons, filter_nil; simpl;
      rewrite !slot_get_of in *; rewrite Hd, He, Hi, Hname; reflexivity.
  - intros Hnone read. unfold orchestrator_request. simpl. rewrite Hnone. simpl.
    destruct (slot_of (slot_get_or [] (rd_ssh_credentials request))),
             (slot_of (slot_get_or ["n8n"; "supabase"] (rd_services request))),
             (slot_of (slot_get_or [] (rd_configuration request)));
      intros [= <-]; unfold process_client_data; simpl;
      rewrite !filter_cons, filter_nil; simpl;
      rewrite !slot_get_of, Hd, He, Hi; simpl; by eexists.
Qed.

Lemma validate_deployment_request_then_process_witness :
  validate_deployment_request "20250102" "20250102_120000" Demo.validated_dict tt
  = (Return Demo.validated_dict, tt)
  ∧ rd_project_name Demo.validated_dict = Holds "project_20250101"
  ∧ (∀ given, request_dict Demo.scenario_request = request_dict given →
              rq_project_name given ≠ Some "" →
       ∃ accepted client_data,
         orchestrator_request Demo.validated_dict = Some accepted
         ∧ process_client_data accepted tt = (Return client_data, tt))
  ∧ (rd_project_name (request_dict Demo.scenario_request) = HoldsNone →
     ∀ read, orchestrator_request Demo.validated_dict = Some read →
             ∃ e, process_client_data read tt = (Raise e, tt)).
Proof.
  apply (validate_deployment_request_then_process "20250101" "20250101_000000"
           "20250102" "20250102_120000" (request_dict Demo.scenario_request)
           Demo.validated_dict tt).
  reflexivity.
Defined.

(** A request that holds [None] under project_name passes the
    validation of the team and fails that of the orchestrator. *)
Example project_name_none_is_kept :
  match validate_deployment_request "20250101" "20250101_000000"
          {| rd_domain := Holds "example.com"; rd_email := Holds "a@example.com";
             rd_project_name := HoldsNone; rd_client_name := Absent;
             rd_server_ip := Holds "10.0.0.5"; rd_ssh_credentials := Absent;
             rd_cloudflare_token := Absent; rd_services := Holds ["n8n"];
             rd_configuration := Absent; rd_deployment_id := Absent |} tt with
  | (Return validated, _) =>
      rd_project_name validated = HoldsNone
      ∧ match orchestrator_request validated with
        | Some read =>
            (process_client_data read tt).1
            = Raise (Exn PyValueError "Missing required fields: ['project_name']")
        | None => False
        end
  | _ => False
  end.
Proof. vm_compute. by split. Qed.

(** ** Status updates *)

(** X7.  [handle_status_update] with the value of any [AgentStatus]
    records exactly that status for the agent; with a string that is the
    value of none it raises [ValueError] and records nothing; without an
    agent id or a status it does nothing. *)
Theorem handle_status_update_outcome `{H : Host} (agent_id : string) (status : option string)
    (o : OState) :
  agent_id ≠ "" →
  (∀ st, handle_status_update (Some agent_id) (Some (agent_status_value st)) o
         = (Return tt, {| orch := set_agent_status agent_id st (orch o); env := env o |}))
  ∧ (∀ v, (∀ st, agent_status_value st ≠ v) → v ≠ "" →
          ∃ e, handle_status_update (Some agent_id) (Some v) o = (Raise e, o)
               ∧ exn_class e = PyValueError)
  ∧ handle_status_update (Some agent_id) None o = (Return tt, o)
  ∧ handle_status_update None status o = (Return tt, o).
Proof.
  intros Hid. assert (truthy (Some agent_id) = true) as Ht.
  { simpl. destruct (String.eqb_spec agent_id ""); done. }
  unfold handle_status_update. rewrite Ht. repeat split.
  - intros st. by destruct st.
  - intros v Hv Hne. assert (truthy (Some v) = true) as ->.
    { simpl. destruct (String.eqb_spec v ""); done. }
    cbn [andb default]. unfold agent_status_of_value.
    destruct (find _ _) as [st|] eqn:Hfind; [|by eexists].
    apply find_some in Hfind as [_ Heq]. apply String.eqb_eq in Heq. by destruct (Hv st).
Qed.

Lemma handle_status_update_outcome_witness :
  handle_status_update (H := Demo.host 1) (Some "dns_manager") (Some "waiting")
    (Demo.start 1 new_orchestrator)
  = (Return tt,
     {| orch := set_agent_status "dns_manager" WAITING (orch (Demo.start 1 new_orchestrator));
        env := env (Demo.start 1 new_orchestrator) |}).
Proof.
  destruct (handle_status_update_outcome (H := Demo.host 1) "dns_manager" None
              (Demo.start 1 new_orchestrator)) as [Hset _]; [discriminate|].
  exact (Hset WAITING).
Defined.

(** ** Deployed services of a report *)

(** X8.  [extract_deployed_services] lists a service exactly when some
    successful task of a successful phase names it: a task that succeeded
    in a phase that failed as a whole contributes nothing, and a task id
    names at most one service, the first of n8n, supabase, portainer,
    nginx or proxy it contains. *)
Theorem extract_deployed_services_spec `{H : Host} (final_report : FinalReport)
    (service : string) :
  service ∈ extract_deployed_services final_report
  ↔ ∃ phase phase_result task_id task_result,
      (phase, phase_result) ∈ fr_phase_results final_report
      ∧ pr_success phase_result = true
      ∧ pr_task_results phase_result !! task_id = Some task_result
      ∧ entry_success task_result = true
      ∧ deployed_service task_id = Some service.
Proof.
  unfold extract_deployed_services.
  set (inner := λ (task_id : string) (task_result : TaskEntry) (acc : gset string),
         if entry_success task_result then
           match deployed_service task_id with
           | Some service => {[service]} ∪ acc
           | None => acc
           end
         else acc).
  assert (∀ (m : gmap string TaskEntry) (acc : gset string),
    service ∈ map_fold inner acc m
    ↔ service ∈ acc ∨ ∃ task_id task_result,
        m !! task_id = Some task_result ∧ entry_success task_result = true
        ∧ deployed_service task_id = Some service) as Hinner.
  { intros m acc.
    apply (map_fold_weak_ind (λ r m, service ∈ r ↔ service ∈ acc ∨ ∃ task_id task_result,
        m !! task_id = Some task_result ∧ entry_success task_result = true
        ∧ deployed_service task_id = Some service)).
    - split; [by left|]. intros [?|(? & ? & Hl & _)]; [done|]. by rewrite lookup_empty in Hl.
    - intros i x m' r Hi IH. unfold inner at 1.
      assert ((∃ task_id task_result, <[i:=x]> m' !! task_id = Some task_result
                ∧ entry_success task_result = true ∧ deployed_service task_id = Some service)
              ↔ (entry_success x = true ∧ deployed_service i = Some service)
                ∨ ∃ task_id task_result, m' !! task_id = Some task_result
                ∧ entry_success task_result = true ∧ deployed_service task_id = Some service)
        as ->.
      { split.
        - intros (k & e & Hl & He & Hs). destruct (decide (k = i)) as [->|Hne].
          + rewrite lookup_insert_eq in Hl. injection Hl as <-. by left.
          + rewrite lookup_insert_ne in Hl by done. right. by exists k, e.
        - intros [[He Hs]|(k & e & Hl & He & Hs)].
          + exists i, x. by rewrite lookup_insert_eq.
          + exists k, e. rewrite lookup_insert_ne; [done|]. intros ->. congruence. }
      destruct (entry_success x) eqn:Hx.
      + destruct (deployed_service i) as [sv|] eqn:Hs.
        * rewrite elem_of_union, elem_of_singleton, IH. split.
          -- intros [->|[?|?]]; auto.
          -- intros [?|[[_ [= ->]]|?]]; auto.
        * rewrite IH. split; [intros [?|?]; auto|]. intros [?|[[_ ?]|?]]; auto. done.
      + rewrite IH. split; [intros [?|?]; auto|]. intros [?|[[? _]|?]]; auto. done. }
  assert (∀ (l : list (string * PhaseResult)) (acc : gset string),
    service ∈ foldl (λ deployed_services '(_, phase_result),
                       if pr_success phase_result
                       then map_fold inner deployed_services (pr_task_results phase_result)
                       else deployed_services) acc l
    ↔ service ∈ acc ∨ ∃ phase phase_result task_id task_result,
        (phase, phase_result) ∈ l ∧ pr_success phase_result = true
        ∧ pr_task_results phase_result !! task_id = Some task_result
        ∧ entry_success task_result = true ∧ deployed_service task_id = Some service)
    as Houter.
  { induction l as [|[phase pr] l IH]; intros acc; cbn [foldl].
    - split; [by left|]. intros [?|(? & ? & ? & ? & Hin & _)]; [done|].
      by apply elem_of_nil in Hin.
    - rewrite IH. split.
      + intros [Hacc|(ph & pr' & k & e & Hin & ?)].
        * destruct (pr_success pr) eqn:Hpr; [|by left].
          apply Hinner in Hacc as [?|(k & e & ?)]; [by left|].
          right. exists phase, pr, k, e. split; [apply elem_of_cons; by left|done].
        * right. exists ph, pr', k, e. split; [apply elem_of_cons; by right|done].
      + intros [Hacc|(ph & pr' & k & e & Hin & Hpr & Hrest)].
        * left. destruct (pr_success pr); [|done]. apply Hinner. by left.
        * apply elem_of_cons in Hin as [[= -> ->]|Hin].
          -- left. rewrite Hpr. apply Hinner. right. by exists k, e.
          -- right. by exists ph, pr', k, e. }
  rewrite Houter. split; [|by right]. intros [Hin|?]; [|done].
  by apply elem_of_empty in Hin.
Qed.

(** ** The decision history *)

Section DecisionFacts.
Context {D : Type}.
Implicit Types (st : Decisions (D := D)).

Lemma lastn_length {A} (n : nat) (l : list A) : length (lastn n l) = min n (length l).
Proof. unfold lastn. rewrite length_drop. lia. Qed.

Lemma lastn_snoc {A} (n : nat) (l : list A) (x : A) :
  0 < n → lastn n (lastn n l ++ [x]) = lastn n (l ++ [x]).
Proof.
  intros Hn. unfold lastn at 1 3. rewrite !length_app, lastn_length. cbn [length].
  unfold lastn. destruct (decide (length l ≤ n)) as [Hle|Hgt].
  - replace (length l - n) with 0 by lia. rewrite drop_0. f_equal. lia.
  - replace (n `min` length l + 1 - n) with 1 by lia.
    rewrite !drop_app_le by (rewrite ?length_drop; lia).
    rewrite drop_drop. do 2 f_equal. lia.
Qed.


Lemma capped {A} (n : nat) (l : list A) :
  0 < n → (if n <? length l then py_last n l else l) = lastn n l.
Proof.
  intros Hn. unfold py_last, lastn. destruct (Nat.ltb_spec n (length l)) as [Hlt|Hle].
  - destruct (Nat.eqb_spec n 0) as [->|]; [lia|done].
  - replace (length l - n) with 0 by lia. by rewrite drop_0.
Qed.

Lemma update_decision_history_eq (agent_id : string) (payload : D) st :
  update_decision_history agent_id payload st
  = let r := {| dr_agent_id := agent_id; dr_payload := payload |} in
    {| decision_history := lastn 100 (decision_history st ++ [r]);
       agent_contexts :=
         <[agent_id := lastn 20 (default [] (agent_contexts st !! agent_id) ++ [r])]>
           (agent_contexts st) |}.
Proof. unfold update_decision_history. cbv zeta. by rewrite !capped by lia. Qed.

Lemma records_of_other (events : list (string * D)) (a : string) :
  a ∉ events.*1 → filter (λ d, dr_agent_id d = a) (records events) = [].
Proof.
  induction events as [|e events IH]; [done|]. rewrite fmap_cons, not_elem_of_cons.
  intros [Hne Hnin]. unfold records. rewrite fmap_cons, filter_cons. fold (records events).
  cbn [dr_agent_id]. rewrite decide_False by done. auto.
Qed.

End DecisionFacts.

(** X9.  Recording any run of decisions from an empty history leaves, as
    the history, the last 100 decisions of the run, and as the context of
    each agent the last 20 decisions of that agent, both oldest first; an
    agent that made no decision has no context.  So the history never
    holds more than 100 records and a context never more than 20. *)
Theorem record_all_spec {D : Type} (events : list (string * D)) (a : string) :
  decision_history (record_all events) = lastn 100 (records events)
  ∧ agent_contexts (record_all events) !! a
    = (if decide (a ∈ events.*1)
       then Some (lastn 20 (filter (λ d, dr_agent_id d = a) (records events)))
       else None)
  ∧ length (decision_history (record_all events)) ≤ 100
  ∧ length (default [] (agent_contexts (record_all events) !! a)) ≤ 20.
Proof.
  assert (decision_history (record_all events) = lastn 100 (records events)
    ∧ ∀ a, agent_contexts (record_all events) !! a
    = (if decide (a ∈ events.*1)
       then Some (lastn 20 (filter (λ d, dr_agent_id d = a) (records events)))
       else None)) as [Hh Hc].
  { clear a. induction events as [|e events [IHh IHc]] using rev_ind.
    { split; [done|]. intros a. cbn. rewrite lookup_empty.
      destruct (decide _) as [Hin|]; [by apply elem_of_nil in Hin|done]. }
    unfold record_all. rewrite foldl_app. cbn [foldl]. fold (record_all events).
    rewrite update_decision_history_eq. cbv zeta. cbn [decision_history agent_contexts].
    unfold records. rewrite fmap_app. fold (records events). cbn [fmap list_fmap].
    set (r := {| dr_agent_id := e.1; dr_payload := e.2 |}).
    split; [by rewrite IHh, lastn_snoc by lia|].
    intros a. rewrite fmap_app, filter_app, filter_cons, filter_nil. cbn [dr_agent_id r].
    destruct (decide (e.1 = a)) as [<-|Hne].
    - rewrite decide_True by (apply elem_of_app; right; by left).
      rewrite lookup_insert_eq, IHc. f_equal.
      destruct (decide (e.1 ∈ events.*1)) as [Hin|Hnin]; cbn [default from_option id].
      + by rewrite lastn_snoc by lia.
      + by rewrite records_of_other.
    - rewrite lookup_insert_ne by done. rewrite IHc, app_nil_r.
      destruct (decide (a ∈ events.*1)) as [Hin|Hnin].
      + rewrite decide_True; [done|]. apply elem_of_app. by left.
      + rewrite decide_False; [done|]. rewrite elem_of_app. intros [?|Hin]; [done|].
        apply list_elem_of_singleton in Hin. done. }
  split; [done|]. split; [done|]. split.
  - rewrite Hh, lastn_length. lia.
  - rewrite Hc. destruct (decide _); cbn [default from_option id length]; [|lia].
    rewrite lastn_length. lia.
Qed.


(** ** The books of an agent *)

Section BookFacts.
Context `{H : Host} {C : Type}.
Implicit Types (s : AState (C := C)) (cb : option (Callback (C := C))).

Lemma keeps_ledger_stages task s r s' :
  process_task_stages task s = (r, s') → ledger (self s') = ledger (self s).
Proof.
  intros Hrun.
  assert (fixed (self s') = fixed (self s)) as Hfix
    by apply (keeps_run (λ s, fixed (self s)) _ _ _ _
                (keeps_process_task_stages _ (λ _ _ Hl _, Hl) task) Hrun).
  unfold fixed in Hfix. congruence.
Qed.

(** The [try] block either raises with the books untouched, or returns a
    success, with the task appended to [completed_tasks]. *)
Lemma process_task_try_books cb task task_id start_time s :
  callback_total cb →
  ∃ r s', process_task_try cb task task_id start_time s = (r, s') ∧
    match r with
    | Raise _ =>
        completed_tasks (self s') = completed_tasks (self s)
        ∧ failed_tasks (self s') = failed_tasks (self s)
    | Return tr =>
        tr_success tr = true ∧ status (self s') = COMPLETED
        ∧ completed_tasks (self s') = completed_tasks (self s) ++ [task]
        ∧ failed_tasks (self s') = failed_tasks (self s)
    end.
Proof.
  intros Hcb. unfold process_task_try. rewrite run_bind.
  destruct (process_task_stages task s) as [[e|[result report]] s1] eqn:Hstages;
    apply keeps_ledger_stages in Hstages; unfold ledger in Hstages;
    injection Hstages as _ Hc Hf _.
  - by eexists _, _.
  - rewrite run_bind, run_liftW.
    do 3 (rewrite run_bind, run_with_self; cbn [self peer world]).
    rewrite run_bind, run_gets_state, run_bind. cbn [self peer world].
    match goal with |- context [notify cb ?ev ?st] =>
      destruct (total_notify cb ev Hcb st) as ([] & s3 & Hn);
      pose proof (notify_self _ _ _ _ _ Hn) as Hself; rewrite Hn end.
    eexists _, _. split; [done|]. rewrite Hself. cbn. by rewrite Hc, Hf.
Qed.

(** The [except] block returns a failure, with the task appended to
    [failed_tasks] and the agent FAILED. *)
Lemma process_task_except_books cb task task_id start_time e s :
  callback_total cb →
  ∃ tr s',
    process_task_except cb task task_id start_time e s = (Return tr, s')
    ∧ tr_success tr = false ∧ status (self s') = FAILED
    ∧ completed_tasks (self s') = completed_tasks (self s)
    ∧ failed_tasks (self s') = failed_tasks (self s) ++ [task].
Proof.
  intros Hcb. unfold process_task_except. rewrite run_bind, run_liftW.
  do 3 (rewrite run_bind, run_with_self; cbn [self peer world]).
  rewrite run_bind, run_handle_task_failure, run_bind, run_gets_state, run_bind.
  cbn [self peer world].
  match goal with |- context [notify cb ?ev ?st] =>
    destruct (total_notify cb ev Hcb st) as ([] & s3 & Hn);
    pose proof (notify_self _ _ _ _ _ Hn) as Hself; rewrite Hn end.
  eexists _, _. split; [done|]. by rewrite Hself.
Qed.

Lemma process_task_books cb task s :
  callback_total cb →
  ∃ tr s', process_task cb task s = (Return tr, s')
    ∧ current_task (self s') = None
    ∧ status (self s') = (if tr_success tr then IDLE else FAILED)
    ∧ completed_tasks (self s')
      = completed_tasks (self s) ++ (if tr_success tr then [task] else [])
    ∧ failed_tasks (self s')
      = failed_tasks (self s) ++ (if tr_success tr then [] else [task]).
Proof.
  intros Hcb. unfold process_task.
  rewrite run_bind, run_liftW, run_bind, run_with_self, run_bind, run_liftW.
  cbn [self peer world]. unfold try_finally, try_except.
  match goal with |- context [process_task_try cb task ?id ?st ?s0] =>
    destruct (process_task_try_books cb task id st s0 Hcb) as (r & s1 & Htry & Hr);
    rewrite Htry end.
  cbn [self completed_tasks failed_tasks set_current_task] in Hr.
  destruct r as [e|tr].
  - destruct Hr as [Hc Hf].
    match goal with |- context [process_task_except cb task ?id ?st e s1] =>
      destruct (process_task_except_books cb task id st e s1 Hcb)
        as (tr & s2 & Hex & Htr & Hst & Hc2 & Hf2); rewrite Hex end.
    eexists _, _. split; [done|]. rewrite Htr. unfold process_task_finally.
    cbn [self status set_current_task]. rewrite decide_True by done.
    cbn. by rewrite Hst, Hc2, Hf2, Hc, Hf, app_nil_r.
  - destruct Hr as (Htr & Hst & Hc & Hf). eexists _, _. split; [done|].
    rewrite Htr. unfold process_task_finally. cbn [self status set_current_task].
    rewrite decide_False by (rewrite Hst; discriminate).
    cbn. by rewrite Hc, Hf, app_nil_r.
Qed.

Lemma calls_books cb s0 history s :
  callback_total cb →
  calls cb s0 history s →
  length (completed_tasks (self s))
  = length (completed_tasks (self s0)) + length (filter (λ r, tr_success r = true) history)
  ∧ length (failed_tasks (self s))
    = length (failed_tasks (self s0)) + length (filter (λ r, tr_success r = false) history)
  ∧ (status (self s) = FAILED ↔ status (self s0) = FAILED ∧ history = []
                               ∨ tr_success <$> last history = Some false).
Proof.
  intros Hcb Hcalls. induction Hcalls as [s|s0 s1 s1' s2 history task r _ IH Hself Hcall].
  - cbn. split; [lia|]. split; [lia|]. split; [by left|]. by intros [[? _]|?].
  - destruct IH as (IHc & IHf & _).
    destruct (process_task_books cb task s1' Hcb) as (tr & s' & Hrun & _ & Hst & Hc & Hf).
    rewrite Hcall in Hrun. injection Hrun as <- <-. rewrite Hself in Hc, Hf.
    rewrite Hc, Hf, Hst, !filter_app, !length_app, IHc, IHf, last_snoc.
    rewrite !filter_cons, !filter_nil. cbn [fmap option_fmap option_map].
    destruct (tr_success r); repeat case_decide; try done; cbn;
      (split; [lia|]); (split; [lia|]).
    + split; [done|]. intros [[_ Hnil]|?]; [by destruct history|done].
    + split; [by right|done].
Qed.

End BookFacts.

(** X11.  One call of [process_task] on an agent whose callback returns:
    the call returns, [current_task] is cleared, and the task is filed
    exactly once, at the end of [completed_tasks] with the agent left IDLE
    when the result says success, at the end of [failed_tasks] with the
    agent left FAILED when it says failure. *)
Theorem process_task_bookkeeping `{H : Host} {C : Type} (cb : option (Callback (C := C)))
    (task : TaskDict) (s : AState (C := C)) :
  callback_total cb →
  ∃ tr s', process_task cb task s = (Return tr, s')
    ∧ current_task (self s') = None
    ∧ status (self s') = (if tr_success tr then IDLE else FAILED)
    ∧ completed_tasks (self s')
      = completed_tasks (self s) ++ (if tr_success tr then [task] else [])
    ∧ failed_tasks (self s')
      = failed_tasks (self s) ++ (if tr_success tr then [] else [task]).
Proof. apply process_task_books. Qed.

(** A task on an agent whose capability raises twice. *)
Lemma process_task_bookkeeping_witness :
  ∃ tr s', process_task (C := unit) None (Demo.simple_task "t1")
             (Demo.standalone 1 (Demo.agent 1 "a" "A" None (Demo.fails_twice 1 "ok")))
           = (Return tr, s')
    ∧ current_task (self s') = None
    ∧ status (self s') = (if tr_success tr then IDLE else FAILED)
    ∧ completed_tasks (self s')
      = [] ++ (if tr_success tr then [Demo.simple_task "t1"] else [])
    ∧ failed_tasks (self s')
      = [] ++ (if tr_success tr then [] else [Demo.simple_task "t1"]).
Proof.
  exact (process_task_bookkeeping None (Demo.simple_task "t1")
           (Demo.standalone 1 (Demo.agent 1 "a" "A" None (Demo.fails_twice 1 "ok"))) I).
Defined.

(** X12.  The counters agree with the lists.  After any sequence of
    calls of [process_task] on an agent that started with empty lists and
    fresh metrics, [tasks_completed] is the length of [completed_tasks]
    and [tasks_failed] the length of [failed_tasks], and the agent is
    FAILED exactly when its last call returned a failure: a later success
    brings it back to IDLE. *)
Theorem counters_agree_with_lists `{H : Host} {C : Type} (cb : option (Callback (C := C)))
    (s0 s : AState (C := C)) (history : list TaskResult) :
  callback_total cb →
  metrics_of s0 = initial_metrics →
  completed_tasks (self s0) = [] → failed_tasks (self s0) = [] →
  status (self s0) = IDLE →
  calls cb s0 history s →
  tasks_completed (metrics_of s) = length (completed_tasks (self s))
  ∧ tasks_failed (metrics_of s) = length (failed_tasks (self s))
  ∧ (status (self s) = FAILED ↔ tr_success <$> last history = Some false).
Proof.
  intros Hcb Hinit Hc0 Hf0 Hst0 Hcalls.
  destruct (calls_metrics cb s0 history s Hcb Hinit Hcalls) as (Hm & Hn & _).
  destruct (calls_books cb s0 history s Hcb Hcalls) as (Hc & Hf & Hst).
  rewrite Hc0 in Hc. rewrite Hf0 in Hf. cbn [length] in Hc, Hf.
  split; [lia|]. split.
  - assert (length history
            = length (filter (λ r, tr_success r = true) history)
              + length (filter (λ r, tr_success r = false) history)) as Hsplit.
    { clear. induction history as [|r history IH]; [done|].
      rewrite !filter_cons. destruct (tr_success r); repeat case_decide; try done; cbn; lia. }
    lia.
  - rewrite Hst. split; [|by right]. intros [[Hs _]|?]; [|done]. by rewrite Hst0 in Hs.
Qed.

Lemma counters_agree_with_lists_witness :
  ∃ (s : AState (H := Demo.host 1) (C := unit)) (history : list TaskResult),
    calls None (Demo.standalone 1 (Demo.agent 1 "a" "A" None (Demo.fails_twice 1 "ok")))
      history s
    ∧ length history = 2
    ∧ tasks_completed (metrics_of s) = length (completed_tasks (self s))
    ∧ tasks_failed (metrics_of s) = length (failed_tasks (self s))
    ∧ (status (self s) = FAILED ↔ tr_success <$> last history = Some false).
Proof.
  set (s0 := Demo.standalone 1 (Demo.agent 1 "a" "A" None (Demo.fails_twice 1 "ok"))).
  destruct (total_process_task None (Demo.simple_task "t1") I s0) as (r1 & s1 & H1).
  destruct (total_process_task None (Demo.simple_task "t2") I s1) as (r2 & s2 & H2).
  assert (calls None s0 ([] ++ [r1] ++ [r2]) s2) as Hcalls.
  { rewrite app_assoc. eapply calls_more; [|reflexivity|exact H2].
    eapply calls_more; [apply calls_none|reflexivity|exact H1]. }
  exists s2, [r1; r2]. split; [exact Hcalls|]. split; [reflexivity|].
  exact (counters_agree_with_lists None s0 s2 _ I eq_refl eq_refl eq_refl eq_refl Hcalls).
Defined.

(** ** The monitoring loop *)

Section MonitoringFacts.
Context `{H : Host} {C : Type}.
Implicit Types (s : AState (C := C)) (cb : option (Callback (C := C))).

(** One step of the loop whose call returns at once. *)
Lemma monitor_step_returned step results s v :
  let t0 := (time_time (world s)).1 in
  let first := step_call (self s) step (time_time (world s)).2 in
  first.1 = Return v →
  let t1 := (time_time first.2).1 in
  monitor_step step results s
  = (Return (results ++ [ {| sr_step_id := step_id step; sr_success := true;
                             sr_result := Some v; sr_error := None;
                             sr_duration := nsub t1 t0; sr_recovered := false |} ]),
     {| self := append_log
                  {| le_timestamp := datetime_now_iso (time_time first.2).2;
                     le_agent_id := agent_id (self s);
                     le_description := "Step " +:+ str_of_nat (step_id step) +:+ " completed" |}
                  (self s);
        peer := peer s; world := (time_time first.2).2 |}).
Proof.
  intros t0 first Hfirst t1. unfold monitor_step.
  rewrite run_bind, run_liftW. cbn [self peer world]. unfold try_except at 1.
  rewrite run_bind, run_execute_step. cbn [self peer world]. fold first. rewrite Hfirst.
  rewrite run_bind, run_liftW. cbn [self peer world at_world].
  by rewrite run_bind, run_log_execution_step.
Qed.

(** What one step of the loop can do. *)
Lemma monitor_step_outcome step results s :
  match monitor_step step results s with
  | (Return results', _) =>
      ∃ entry, results' = results ++ [entry]
               ∧ sr_step_id entry = step_id step ∧ sr_success entry = true
  | (Raise e, _) => ∃ e0, e = unrecovered step e0
  end.
Proof.
  destruct (step_call (self s) step (time_time (world s)).2).1 as [e|v] eqn:Hfirst.
  - rewrite (monitor_step_raised step results s e Hfirst).
    destruct (step_call _ _ (asyncio_sleep _ _)).1; [by eexists|].
    eexists. by split.
  - rewrite (monitor_step_returned step results s v Hfirst). eexists. by split.
Qed.

Lemma monitor_steps_outcome steps results s :
  match monitor_steps steps results s with
  | (Return final, _) =>
      ∃ more, final = results ++ more
              ∧ sr_step_id <$> more = step_id <$> steps
              ∧ Forall (λ r, sr_success r = true) more
  | (Raise e, _) => ∃ step e0, step ∈ steps ∧ e = unrecovered step e0
  end.
Proof.
  revert results s. induction steps as [|step steps IH]; intros results s; simpl.
  - exists []. by rewrite app_nil_r.
  - rewrite run_bind. pose proof (monitor_step_outcome step results s) as Hstep.
    destruct (monitor_step step results s) as [[e|results1] s1].
    + destruct Hstep as [e0 ->]. exists step, e0. split; [by left|done].
    + destruct Hstep as (entry & -> & Hid & Hok).
      specialize (IH (results ++ [entry]) s1).
      destruct (monitor_steps steps (results ++ [entry]) s1) as [[e|final] s2].
      * destruct IH as (step' & e0 & Hin & ->). exists step', e0. split; [by right|done].
      * destruct IH as (more & -> & Hids & Hall). exists (entry :: more).
        rewrite <- app_assoc. split; [done|]. rewrite !fmap_cons, Hid, Hids.
        split; [done|]. by constructor.
Qed.

(** The four stages of [process_task] on an agent whose own validation
    leaves the key ['valid'] alone. *)
Lemma process_task_stages_outcome task s :
  (∀ result, av_valid (perform_agent_validation (self s) result) = None) →
  match process_task_stages task s with
  | (Return (result, report), _) =>
      er_steps_executed result = 1 ∧ er_steps_successful result = 1
      ∧ rp_success report = true
      ∧ v_errors (rp_validation_results report)
        = default [] (av_errors (perform_agent_validation (self s) result))
  | (Raise e, _) =>
      e = Exn PyZeroDivisionError "float division by zero"
      ∨ ∃ e0, e = Exn PyException ("Step 1 failed and could not be recovered: " +:+ exn_str e0)
  end.
Proof.
  intros Hvalid. unfold process_task_stages.
  rewrite run_bind, run_with_self, run_bind, run_gets_state.
  rewrite run_bind, run_log_execution_step, run_bind, run_with_self.
  cbn [self peer world].
  unfold execute_with_monitoring, create_execution_plan, generate_execution_steps.
  cbn [ep_steps ep_task_id monitor_steps].
  rewrite !run_bind.
  match goal with |- context [monitor_step ?st ?rs ?s0] =>
    pose proof (monitor_step_outcome st rs s0) as Hstep;
    destruct (monitor_step st rs s0) as [[e|results1] s1] eqn:Hrun end.
  { destruct Hstep as [e0 ->]. right. by exists e0. }
  destruct Hstep as (entry & -> & _ & Hok).
  apply (keeps_run (λ s, perform_agent_validation (self s))) in Hrun.
  2:{ apply keeps_monitor_step. intros s2 s2' Hfix _. unfold fixed, methods in Hfix.
      congruence. }
  cbn in Hrun. rewrite !run_ret_state. cbn [app].
  set (result := execution_summary (td_id task) [entry]).
  assert (er_steps_successful result = 1) as Hsucc.
  { unfold result, execution_summary. cbn [er_steps_successful].
    by rewrite filter_cons, decide_True. }
  rewrite run_bind, run_with_self, run_bind, run_gets_state. cbn [self peer world].
  change (perform_agent_validation (set_status VALIDATING (self s1)))
    with (perform_agent_validation (self s1)). rewrite Hrun.
  assert (validate_execution (perform_agent_validation (self s)) result
          = {| v_valid := true;
               v_errors := default [] (av_errors (perform_agent_validation (self s) result));
               v_warnings := default [] (av_warnings (perform_agent_validation (self s) result));
               v_checks_performed :=
                 default [] (av_checks_performed
                               (perform_agent_validation (self s) result)) |}) as ->.
  { unfold validate_execution. rewrite Hsucc. cbn. unfold validation_update.
    by rewrite Hvalid. }
  cbn [v_valid]. rewrite run_bind, run_ret_state, run_bind, run_with_self.
  unfold generate_task_report, calculate_performance_impact, py_div.
  destruct (is_zero (er_total_duration result)); cbn; [by left|done].
Qed.

End MonitoringFacts.

(** X13.  [execute_with_monitoring] is all or nothing.  When it returns,
    every step of the plan has an entry, in the order of the plan, every
    entry says success, and [steps_successful] equals [steps_executed]
    equals the number of steps; when it raises, the error is the one of an
    unrecovered step of the plan.  It never returns a result that records
    a failed step. *)
Theorem execute_with_monitoring_all_or_nothing `{H : Host} {C : Type} (plan : ExecutionPlan)
    (s : AState (C := C)) :
  match execute_with_monitoring plan s with
  | (Return result, _) =>
      er_plan_id result = ep_task_id plan
      ∧ sr_step_id <$> er_step_results result = step_id <$> ep_steps plan
      ∧ Forall (λ r, sr_success r = true) (er_step_results result)
      ∧ er_steps_executed result = length (ep_steps plan)
      ∧ er_steps_successful result = length (ep_steps plan)
  | (Raise e, _) => ∃ step e0, step ∈ ep_steps plan ∧ e = unrecovered step e0
  end.
Proof.
  unfold execute_with_monitoring. rewrite run_bind.
  pose proof (monitor_steps_outcome (ep_steps plan) [] s) as Hloop.
  destruct (monitor_steps (ep_steps plan) [] s) as [[e|final] s1]; [done|].
  destruct Hloop as (more & -> & Hids & Hall). rewrite run_ret_state. cbn.
  split; [done|]. split; [done|]. split; [done|].
  assert (length more = length (ep_steps plan)) as Hlen
    by (rewrite <- (length_fmap sr_step_id), Hids; apply length_fmap).
  split; [done|]. rewrite <- Hlen. f_equal.
  clear -Hall. induction Hall as [|r more Hr _ IH]; [done|].
  by rewrite filter_cons, decide_True, IH.
Qed.

(** X14.  The errors an agent's validation lists never fail a task.
    For an agent whose [perform_agent_validation] does not set the key
    ['valid'] (that of [BaseAgent] and that of [ServerSetupAgent]),
    [process_task] ends in success with a report that says success and
    carries whatever errors the validation listed, or in a failure whose
    error is that of the unrecovered step or the division by a zero
    duration; it never ends with "Validation failed". *)
Theorem validation_errors_never_fail_a_task `{H : Host} {C : Type}
    (cb : option (Callback (C := C))) (task : TaskDict) (s : AState (C := C)) :
  callback_total cb →
  (∀ result, av_valid (perform_agent_validation (self s) result) = None) →
  ∃ tr s', process_task cb task s = (Return tr, s') ∧
    match tr with
    | TaskSuccess result report _ =>
        er_steps_executed result = 1 ∧ er_steps_successful result = 1
        ∧ rp_success report = true
        ∧ v_errors (rp_validation_results report)
          = default [] (av_errors (perform_agent_validation (self s) result))
    | TaskFailure error _ _ =>
        error = "float division by zero"
        ∨ ∃ e0, error = "Step 1 failed and could not be recovered: " +:+ exn_str e0
    end.
Proof.
  intros Hcb Hvalid. unfold process_task.
  rewrite run_bind, run_liftW, run_bind, run_with_self, run_bind, run_liftW.
  cbn [self peer world]. unfold try_finally, try_except, process_task_try.
  rewrite run_bind.
  match goal with |- context [process_task_stages task ?s0] =>
    pose proof (process_task_stages_outcome task s0 Hvalid) as Hstages;
    destruct (process_task_stages task s0) as [[e|[result report]] s1] end.
  - unfold process_task_except. rewrite run_bind, run_liftW.
    do 3 (rewrite run_bind, run_with_self; cbn [self peer world]).
    rewrite run_bind, run_handle_task_failure, run_bind, run_gets_state, run_bind.
    cbn [self peer world].
    match goal with |- context [notify cb ?ev ?st] =>
      destruct (total_notify cb ev Hcb st) as ([] & s3 & ->) end.
    eexists _, _. split; [done|]. destruct Hstages as [->|[e0 ->]]; [by left|right; by eexists].
  - rewrite run_bind, run_liftW.
    do 3 (rewrite run_bind, run_with_self; cbn [self peer world]).
    rewrite run_bind, run_gets_state, run_bind. cbn [self peer world].
    match goal with |- context [notify cb ?ev ?st] =>
      destruct (total_notify cb ev Hcb st) as ([] & s3 & ->) end.
    by eexists _, _.
Qed.

(** A task of the server setup agent. *)
Lemma validation_errors_never_fail_a_task_witness :
  ∃ tr s',
    process_task (H := Demo.host 1) (C := unit) None (Demo.simple_task "t1")
      (Demo.standalone 1
         (Demo.server_setup_agent 1 (Demo.succeeds 1 "ok")))
    = (Return tr, s') ∧
    match tr with
    | TaskSuccess result report _ =>
        er_steps_executed result = 1 ∧ er_steps_successful result = 1
        ∧ rp_success report = true
        ∧ v_errors (rp_validation_results report)
          = default [] (av_errors (server_setup_perform_agent_validation result))
    | TaskFailure error _ _ =>
        error = "float division by zero"
        ∨ ∃ e0, error = "Step 1 failed and could not be recovered: " +:+ exn_str e0
    end.
Proof.
  exact (validation_errors_never_fail_a_task (H := Demo.host 1) (C := unit) None
           (Demo.simple_task "t1")
           (Demo.standalone 1
              (Demo.server_setup_agent 1 (Demo.succeeds 1 "ok"))) I (λ _, eq_refl)).
Defined.

(** The server setup agent, when its capability returns: the task
    succeeds, and its report lists the four errors of the agent's
    validation. *)
Example server_setup_task_succeeds_with_errors :
  match process_task (H := Demo.host 1) (C := unit) None (Demo.simple_task "t1")
          (Demo.standalone 1
             (Demo.server_setup_agent 1 (Demo.succeeds 1 "ok"))) with
  | (Return (TaskSuccess result report _), _) =>
      rp_success report = true
      ∧ v_errors (rp_validation_results report)
        = ["Docker installation failed"; "Portainer installation failed";
           "Nginx Proxy Manager installation failed"; "Overall system health check failed"]
  | _ => False
  end.
Proof. vm_compute. repeat split. Qed.

(** ** Sequential phases, for any list of tasks *)

Section SequentialFacts.
Context `{H : Host}.
Implicit Types (o : OState) (results : gmap string TaskEntry).

Lemma check_task_dependencies_dom task results dep :
  check_task_dependencies task results = true →
  dep ∈ default [] (tk_dependencies task) → dep ∈ dom results.
Proof.
  unfold check_task_dependencies. intros Hall Hdep.
  apply Is_true_true, forallb_True in Hall. rewrite Forall_forall in Hall.
  specialize (Hall dep Hdep). apply elem_of_dom.
  by destruct (results !! dep).
Qed.

Lemma sequential_tasks_outcome tasks results o :
  map_Forall (λ _ e, entry_success e = true) results →
  match sequential_tasks tasks results o with
  | (Return final, o') =>
      assigned (orchestrator_log (orch o'))
      = assigned (orchestrator_log (orch o)) ++ (tk_id <$> tasks)
      ∧ dom final = dom results ∪ list_to_set (tk_id <$> tasks)
      ∧ map_Forall (λ _ e, entry_success e = true) final
      ∧ ∀ i task dep, tasks !! i = Some task → dep ∈ default [] (tk_dependencies task) →
                      dep ∈ dom results ∨ dep ∈ tk_id <$> take i tasks
  | (Raise e, o') =>
      ∃ i task, tasks !! i = Some task
        ∧ ((e = dependencies_not_met task ∨ e = no_agent_found task)
           ∧ assigned (orchestrator_log (orch o'))
             = assigned (orchestrator_log (orch o)) ++ (tk_id <$> take i tasks)
           ∨ (∃ error, e = task_failed_error task error)
             ∧ assigned (orchestrator_log (orch o'))
               = assigned (orchestrator_log (orch o)) ++ (tk_id <$> take (S i) tasks))
  end.
Proof.
  revert results o. induction tasks as [|A rest IH]; intros results o Hok.
  { cbn. rewrite app_nil_r, (right_id_L ∅ (∪)). by repeat split. }
  rewrite sequential_tasks_cons.
  destruct (check_task_dependencies A results) eqn:Hdeps.
  2:{ exists 0, A. split; [done|]. left. cbn. rewrite app_nil_r. auto. }
  destruct (find_agent_by_type (orch o) (tk_agent A)) as [id|] eqn:Hfind.
  2:{ exists 0, A. split; [done|]. left. cbn. rewrite app_nil_r. auto. }
  destruct (truthy (Some id)).
  2:{ exists 0, A. split; [done|]. left. cbn. rewrite app_nil_r. auto. }
  destruct (find_agent_by_type_registered _ _ _ Hfind) as [agent Hagent].
  destruct (execute_agent_task_registered id agent A o Hagent) as (tr & o1 & -> & Hlog).
  destruct tr as [result report t|error error_report t].
  2:{ exists 0, A. split; [done|]. right. split; [by eexists|done]. }
  set (results1 := <[tk_id A := EntryResult (TaskSuccess result report t)]> results).
  assert (map_Forall (λ _ e, entry_success e = true) results1) as Hok1
    by by apply map_Forall_insert_2.
  specialize (IH results1 o1 Hok1).
  destruct (sequential_tasks rest results1 o1) as [[e|final] o2].
  - destruct IH as (i & task & Hi & Hcase). exists (S i), task. split; [done|].
    rewrite Hlog, <- !app_assoc in Hcase. destruct Hcase as [[He Hl]|[He Hl]]; auto.
  - destruct IH as (Hl & Hdom & Hfin & Hdep). rewrite Hlog, <- app_assoc in Hl.
    split; [done|]. split.
    { rewrite Hdom. unfold results1. rewrite dom_insert_L, fmap_cons. cbn [list_to_set].
      by rewrite (comm_L (∪) {[tk_id A]} (dom results)), <- (assoc_L (∪)). }
    split; [done|]. intros [|i] task dep Hi Hin.
    + injection Hi as <-. left. by eapply check_task_dependencies_dom.
    + destruct (Hdep i task dep Hi Hin) as [Hd|Hd].
      * unfold results1 in Hd. rewrite dom_insert_L in Hd.
        apply elem_of_union in Hd as [Hd|Hd]; [|by left].
        apply elem_of_singleton in Hd as ->. right. cbn. by left.
      * right. cbn. by right.
Qed.

End SequentialFacts.

(** X15.  A sequential phase over any list of tasks.  When it returns,
    its [success] is [True], every task was dispatched once, in order,
    every task has an entry and every entry is a success, and every
    dependency of a task is the id of an earlier task of the same phase:
    a dependency on a task of another phase is never met.  When it raises,
    the tasks before the one named in the error were dispatched in order,
    the named task was dispatched only if the error is that it failed,
    and no later task was. *)
Theorem sequential_phase_outcome `{H : Host} (deployment_id : string)
    (phase_config : PhaseConfig) (o : OState) :
  let tasks := pc_tasks phase_config in
  match execute_sequential_phase deployment_id phase_config o with
  | (Return pr, o') =>
      pr_success pr = true
      ∧ assigned (orchestrator_log (orch o'))
        = assigned (orchestrator_log (orch o)) ++ (tk_id <$> tasks)
      ∧ dom (pr_task_results pr) = list_to_set (tk_id <$> tasks)
      ∧ map_Forall (λ _ e, entry_success e = true) (pr_task_results pr)
      ∧ ∀ i task dep, tasks !! i = Some task → dep ∈ default [] (tk_dependencies task) →
                      dep ∈ tk_id <$> take i tasks
  | (Raise e, o') =>
      ∃ i task, tasks !! i = Some task
        ∧ ((e = dependencies_not_met task ∨ e = no_agent_found task)
           ∧ assigned (orchestrator_log (orch o'))
             = assigned (orchestrator_log (orch o)) ++ (tk_id <$> take i tasks)
           ∨ (∃ error, e = task_failed_error task error)
             ∧ assigned (orchestrator_log (orch o'))
               = assigned (orchestrator_log (orch o)) ++ (tk_id <$> take (S i) tasks))
  end.
Proof.
  intros tasks. unfold execute_sequential_phase. rewrite run_bind. fold tasks.
  pose proof (sequential_tasks_outcome tasks ∅ o (map_Forall_empty _)) as Hloop.
  destruct (sequential_tasks tasks ∅ o) as [[e|final] o']; [done|].
  destruct Hloop as (Hl & Hdom & Hfin & Hdep). cbn.
  split; [done|]. split; [done|]. split; [by rewrite Hdom, dom_empty_L, (left_id_L ∅ (∪))|].
  split; [done|]. intros i task dep Hi Hin.
  destruct (Hdep i task dep Hi Hin) as [Hd|Hd]; [|done].
  by rewrite dom_empty_L in Hd.
Qed.

(** ** The status board after a dispatch *)

Lemma dict_get_keys {V} (k : string) (d : list (string * V)) :
  is_Some (dict_get k d) ↔ k ∈ d.*1.
Proof.
  induction d as [|[k0 v0] d IH]; simpl.
  - split; [by intros [? ?]|]. intros Hin. by apply elem_of_nil in Hin.
  - rewrite elem_of_cons. destruct (String.eqb_spec k0 k) as [->|Hne].
    + split; [by left|by eexists].
    + rewrite IH. split; [by right|]. intros [->|?]; done.
Qed.

Lemma execute_agent_task_dispatch `{H : Host} (id : string) (agent : Agent)
    (task : Task) (o : OState) :
  dict_get id (agents (orch o)) = Some agent →
  ∃ tr o' agent',
    execute_agent_task id task o = (Return tr, o')
    ∧ agent_status (orch o') !! id = Some IDLE
    ∧ dict_get id (agents (orch o')) = Some agent'
    ∧ status agent' = (if tr_success tr then IDLE else FAILED)
    ∧ completed_tasks agent'
      = completed_tasks agent ++ (if tr_success tr then [task_dict task] else [])
    ∧ failed_tasks agent'
      = failed_tasks agent ++ (if tr_success tr then [] else [task_dict task])
    ∧ (agents (orch o')).*1 = (agents (orch o)).*1
    ∧ assigned (orchestrator_log (orch o'))
      = assigned (orchestrator_log (orch o)) ++ [tk_id task].
Proof.
  intros Hagent. unfold execute_agent_task. rewrite run_bind, run_gets_orch, Hagent.
  unfold log. rewrite run_bind, run_with_orch, run_bind, run_with_orch.
  cbn [orch env]. unfold try_except. rewrite run_bind. unfold call_process_task.
  cbn [orch env].
  match goal with |- context [process_task _ ?t ?st] =>
    destruct (process_task_books (Some handle_agent_callback) t st
                handle_agent_callback_total)
      as (tr & s' & Hrun & _ & Hst & Hc & Hf);
    destruct (process_task_board t st) as (tr2 & s2 & extra & Hrun2 & Hlog & Hextra);
    rewrite Hrun in Hrun2 |- *; injection Hrun2 as <- <- end.
  cbn [self peer snd] in Hc, Hf, Hlog. rewrite run_bind, run_with_orch. cbn [orch env].
  eexists tr, _, (self s'). split; [reflexivity|].
  cbn [orch agents agent_status orchestrator_log set_agent_status set_board set_agents
       add_log fst snd].
  split; [apply lookup_insert_eq|]. split; [by rewrite dict_get_set, decide_True|].
  split; [done|]. split; [done|]. split; [done|]. split.
  { rewrite dict_set_keys, decide_True; [done|]. apply dict_get_keys. by rewrite Hagent. }
  rewrite Hlog. cbn [orchestrator_log set_agent_status set_board add_log snd fst].
  rewrite !assigned_app, Hextra. simpl. by rewrite app_nil_r.
Qed.

(** X16.  After [execute_agent_task] on a registered agent, the
    orchestrator's status board shows the agent IDLE whether the task
    succeeded or failed, although the agent object it keeps in its
    registry is FAILED after a failure: the entry FAILED that the
    callback wrote is overwritten on return.  The registry keeps its keys
    and their order, and the agent under that key has the task filed as
    completed or as failed. *)
Theorem execute_agent_task_status_board `{H : Host} (id : string) (agent : Agent)
    (task : Task) (o : OState) :
  dict_get id (agents (orch o)) = Some agent →
  ∃ tr o' agent',
    execute_agent_task id task o = (Return tr, o')
    ∧ agent_status (orch o') !! id = Some IDLE
    ∧ dict_get id (agents (orch o')) = Some agent'
    ∧ status agent' = (if tr_success tr then IDLE else FAILED)
    ∧ completed_tasks agent'
      = completed_tasks agent ++ (if tr_success tr then [task_dict task] else [])
    ∧ failed_tasks agent'
      = failed_tasks agent ++ (if tr_success tr then [] else [task_dict task])
    ∧ (agents (orch o')).*1 = (agents (orch o)).*1.
Proof.
  intros Hagent.
  destruct (execute_agent_task_dispatch id agent task o Hagent)
    as (tr & o' & agent' & Hrun & Hboard & Hget & Hst & Hc & Hf & Hkeys & _).
  by exists tr, o', agent'.
Qed.

(** A task for an agent whose capability keeps raising. *)
Lemma execute_agent_task_status_board_witness :
  let agent := Demo.agent 1 "n8n_deployment" "N8N Deployment Agent" (Some "n8n_deployment")
                 (Demo.fails 1 "boom") in
  let task := Demo.demo_task "n8n_deployment" "n8n_agent" in
  let o := Demo.start 1 (register_agent agent new_orchestrator) in
  ∃ tr o' agent',
    execute_agent_task "n8n_deployment" task o = (Return tr, o')
    ∧ agent_status (orch o') !! "n8n_deployment" = Some IDLE
    ∧ dict_get "n8n_deployment" (agents (orch o')) = Some agent'
    ∧ status agent' = (if tr_success tr then IDLE else FAILED)
    ∧ completed_tasks agent'
      = completed_tasks agent ++ (if tr_success tr then [task_dict task] else [])
    ∧ failed_tasks agent'
      = failed_tasks agent ++ (if tr_success tr then [] else [task_dict task])
    ∧ (agents (orch o')).*1 = (agents (orch o)).*1.
Proof.
  intros agent task o.
  exact (execute_agent_task_status_board "n8n_deployment" agent task o eq_refl).
Defined.

(** There the task fails: the board says IDLE, the agent is FAILED. *)
Example failed_agent_shown_idle :
  match execute_agent_task "n8n_deployment" (Demo.demo_task "n8n_deployment" "n8n_agent")
          (Demo.start 1
             (register_agent
                (Demo.agent 1 "n8n_deployment" "N8N Deployment Agent" (Some "n8n_deployment")
                   (Demo.fails 1 "boom")) new_orchestrator)) with
  | (Return tr, o') =>
      tr_success tr = false
      ∧ agent_status (orch o') !! "n8n_deployment" = Some IDLE
      ∧ status <$> dict_get "n8n_deployment" (agents (orch o')) = Some FAILED
  | _ => False
  end.
Proof. vm_compute. repeat split. Qed.

(** ** What the phases leave alone *)

Section OrchestratorFrame.
Context `{H : Host} {X : Type} (f : OState → X).
Implicit Types (o : OState).

Hypothesis Hf : ∀ o o', quiet (orch o') = quiet (orch o) → f o' = f o.

Lemma okeeps_ret {A} (a : A) : okeeps f (mret a).
Proof. by intros o. Qed.

Lemma okeeps_raise {A} e : okeeps f (raise (A := A) e).
Proof. by intros o. Qed.

Lemma okeeps_bind {A B} (m : M OState A) (k : A → M OState B) :
  okeeps f m → (∀ a, okeeps f (k a)) → okeeps f (m ≫= k).
Proof.
  intros Hm Hk o. rewrite run_bind. specialize (Hm o).
  destruct (m o) as [[e|a] o1]; simpl in *; [done|]. by rewrite Hk.
Qed.

Lemma okeeps_try_except {A} (body : M OState A) handler :
  okeeps f body → (∀ e, okeeps f (handler e)) → okeeps f (try_except body handler).
Proof.
  intros Hb Hh o. unfold try_except. specialize (Hb o).
  destruct (body o) as [[e|a] o1]; simpl in *; [|done]. by rewrite Hh.
Qed.

Lemma okeeps_gets {A} (g : OState → A) : okeeps f (gets g).
Proof. by intros o. Qed.

Lemma okeeps_with_orch (g : Orchestrator → Orchestrator) :
  (∀ orc, quiet (g orc) = quiet orc) → okeeps f (with_orch g).
Proof. intros Hg o. apply Hf, Hg. Qed.

Lemma okeeps_log r : okeeps f (log r).
Proof. by apply okeeps_with_orch. Qed.

Lemma okeeps_liftOW {A} (g : World → A * World) : okeeps f (liftOW g).
Proof. intros o. unfold liftOW. destruct (g (env o)). by apply Hf. Qed.

Lemma okeeps_liftOE {A} (g : World → Exc A * World) : okeeps f (liftOE g).
Proof. intros o. unfold liftOE. destruct (g (env o)). by apply Hf. Qed.

Lemma okeeps_call_process_task id agent task : okeeps f (call_process_task id agent task).
Proof.
  intros o. unfold call_process_task. destruct (process_task _ _ _) as [r s']. by apply Hf.
Qed.

Lemma okeeps_execute_agent_task id task : okeeps f (execute_agent_task id task).
Proof.
  unfold execute_agent_task. apply okeeps_bind; [apply okeeps_gets|]. intros orc.
  destruct (dict_get id (agents orc)) as [agent|]; [|apply okeeps_raise].
  apply okeeps_bind; [apply okeeps_log|]. intros _.
  apply okeeps_bind; [by apply okeeps_with_orch|]. intros _.
  apply okeeps_try_except.
  - apply okeeps_bind; [apply okeeps_call_process_task|]. intros tr.
    apply okeeps_bind; [by apply okeeps_with_orch|]. intros _. apply okeeps_ret.
  - intros e. apply okeeps_bind; [by apply okeeps_with_orch|]. intros _. apply okeeps_raise.
Qed.

Lemma okeeps_gather coroutines : okeeps f (gather coroutines).
Proof.
  induction coroutines as [|[id task] coroutines IH]; simpl; [apply okeeps_ret|].
  apply okeeps_bind.
  - intros o. pose proof (okeeps_execute_agent_task id task o) as Hk.
    by destruct (execute_agent_task id task o).
  - intros r. apply okeeps_bind; [apply IH|]. intros rs. apply okeeps_ret.
Qed.

Lemma okeeps_execute_parallel_phase deployment_id phase_config :
  okeeps f (execute_parallel_phase deployment_id phase_config).
Proof.
  unfold execute_parallel_phase. apply okeeps_bind; [apply okeeps_gets|]. intros orc.
  apply okeeps_bind; [apply okeeps_gather|]. intros rs. apply okeeps_ret.
Qed.

Lemma okeeps_sequential_tasks tasks results : okeeps f (sequential_tasks tasks results).
Proof.
  revert results. induction tasks as [|task tasks IH]; intros results;
    cbn [sequential_tasks]; [apply okeeps_ret|].
  apply okeeps_bind.
  { destruct (check_task_dependencies task results); [apply okeeps_ret|apply okeeps_raise]. }
  intros _. apply okeeps_bind; [apply okeeps_gets|]. intros orc.
  destruct (find_agent_by_type orc (tk_agent task)) as [id|]; [|apply okeeps_raise].
  destruct (truthy (Some id)); [|apply okeeps_raise].
  apply okeeps_bind; [apply okeeps_execute_agent_task|].
  intros [result report t|error error_report t]; [apply IH|apply okeeps_raise].
Qed.

Lemma okeeps_execute_sequential_phase deployment_id phase_config :
  okeeps f (execute_sequential_phase deployment_id phase_config).
Proof.
  unfold execute_sequential_phase. apply okeeps_bind; [apply okeeps_sequential_tasks|].
  intros results. apply okeeps_ret.
Qed.

Lemma okeeps_run {A} (m : M OState A) o r o' : okeeps f m → m o = (r, o') → f o' = f o.
Proof. intros Hm Hr. specialize (Hm o). by rewrite Hr in Hm. Qed.

End OrchestratorFrame.

(** ** The phases of a deployment *)

Section PhaseFacts.
Context `{H : Host}.
Implicit Types (o : OState).

Lemma quiet_frame o o' : quiet (orch o') = quiet (orch o) → quiet (orch o') = quiet (orch o).
Proof. done. Qed.

Lemma dict_set_elem {V} (k k' : string) (v : V) (d : list (string * V)) :
  k' ∈ (dict_set k v d).*1 ↔ k' ∈ d.*1 ∨ k' = k.
Proof.
  rewrite dict_set_keys. case_decide as Hk.
  - split; [by left|]. by intros [?| ->].
  - by rewrite elem_of_app, list_elem_of_singleton.
Qed.

Lemma deployment_phases_outcome deployment_id phases results o :
  match deployment_phases deployment_id phases results o with
  | (Return final, o') =>
      current_phase (orch o') = default (current_phase (orch o)) (pc_phase <$> last phases)
      ∧ orchestrator_metrics (orch o') = orchestrator_metrics (orch o)
      ∧ ∀ k, k ∈ final.*1
             ↔ k ∈ results.*1 ∨ k ∈ (λ pc, DeploymentPhase.value (pc_phase pc)) <$> phases
  | (Raise e, o') =>
      orchestrator_metrics (orch o') = orchestrator_metrics (orch o)
      ∧ ∃ phase_config cause task,
          phase_config ∈ phases ∧ pc_parallel_execution phase_config = false
          ∧ e = phase_failed (pc_phase phase_config) cause
          ∧ current_phase (orch o') = pc_phase phase_config
          ∧ task ∈ pc_tasks phase_config
          ∧ (cause = dependencies_not_met task ∨ cause = no_agent_found task
             ∨ ∃ error, cause = task_failed_error task error)
  end.
Proof.
  revert results o. induction phases as [|pc phases IH]; intros results o.
  { cbn. split; [done|]. split; [done|]. intros k. rewrite elem_of_nil. tauto. }
  cbn [deployment_phases]. unfold with_deployment, log.
  do 3 rewrite run_bind, run_with_orch. cbn [orch env].
  rewrite run_bind. unfold try_except at 1. rewrite run_bind.
  set (o1 := {| orch := _; env := env o |}).
  assert (current_phase (orch o1) = pc_phase pc) as Hphase1 by done.
  assert (orchestrator_metrics (orch o1) = orchestrator_metrics (orch o)) as Hmetrics1 by done.
  clearbody o1.
  assert (∃ r o2,
    (if pc_parallel_execution pc then execute_parallel_phase deployment_id pc
     else execute_sequential_phase deployment_id pc) o1 = (r, o2)
    ∧ quiet (orch o2) = quiet (orch o1)
    ∧ match r with
      | Return _ => True
      | Raise e =>
          pc_parallel_execution pc = false
          ∧ ∃ task, task ∈ pc_tasks pc
                    ∧ (e = dependencies_not_met task ∨ e = no_agent_found task
                       ∨ ∃ error, e = task_failed_error task error)
      end) as (r & o2 & -> & Hq & Hr).
  { destruct (pc_parallel_execution pc) eqn:Hpar.
    - destruct (execute_parallel_phase_returns deployment_id pc o1) as (pr & o2 & Hrun).
      exists (Return pr), o2. split; [done|]. split; [|done].
      apply (okeeps_run (λ o, quiet (orch o)) _ _ _ _
               (okeeps_execute_parallel_phase _ quiet_frame deployment_id pc) Hrun).
    - destruct (execute_sequential_phase deployment_id pc o1) as [r o2] eqn:Hrun.
      exists r, o2. split; [done|]. split.
      { apply (okeeps_run (λ o, quiet (orch o)) _ _ _ _
                 (okeeps_execute_sequential_phase _ quiet_frame deployment_id pc) Hrun). }
      destruct r as [e|pr]; [|done]. split; [done|].
      pose proof (sequential_tasks_outcome (pc_tasks pc) ∅ o1 (map_Forall_empty _)) as Hseq.
      unfold execute_sequential_phase in Hrun. rewrite run_bind in Hrun.
      destruct (sequential_tasks (pc_tasks pc) ∅ o1) as [[e'|final] o2']; [|done].
      injection Hrun as <- <-. destruct Hseq as (i & task & Hi & Hcase).
      exists task. split; [by eapply list_elem_of_lookup_2|].
      destruct Hcase as [[[?|?] _]|[? _]]; auto. }
  unfold quiet in Hq. injection Hq as _ Hp2 Hm2.
  destruct r as [e|pr].
  - destruct Hr as (Hpar & task & Hin & Hcause).
    rewrite run_bind, run_with_orch. cbn.
    split; [congruence|]. exists pc, e, task. split; [by left|]. split; [done|].
    split; [done|]. split; [congruence|]. done.
  - do 2 rewrite run_bind, run_with_orch. cbn [orch env mret M_ret].
    match goal with |- context [deployment_phases _ _ ?r ?o3] =>
      specialize (IH r o3); destruct (deployment_phases deployment_id phases r o3)
        as [[e|final] o'] end; cbn [orch env current_phase orchestrator_metrics
                                    set_active_deployments set_board add_log] in IH.
    + destruct IH as (Hm & pc' & cause & task & Hin & Hrest).
      split; [congruence|]. exists pc', cause, task. split; [by right|exact Hrest].
    + destruct IH as (Hp & Hm & Hkeys). split.
      { rewrite Hp. destruct phases as [|pc' phases]; [cbn; congruence|].
        change (last (pc :: pc' :: phases)) with (last (pc' :: phases)).
        destruct (last (pc' :: phases)) eqn:Hlast; [done|]. by apply last_None in Hlast. }
      split; [congruence|]. intros k. rewrite Hkeys, dict_set_elem, fmap_cons, elem_of_cons.
      tauto.
Qed.

Local Abbreviation metrics_in := (λ o : OState, orchestrator_metrics (orch o)).

Lemma metrics_quiet o o' :
  quiet (orch o') = quiet (orch o)
  → orchestrator_metrics (orch o') = orchestrator_metrics (orch o).
Proof. unfold quiet. congruence. Qed.

Lemma okeeps_metrics_with_orch (g : Orchestrator → Orchestrator) :
  (∀ orc, orchestrator_metrics (g orc) = orchestrator_metrics orc)
  → okeeps metrics_in (with_orch g).
Proof. intros Hg o. apply Hg. Qed.

Lemma estimate_phases_state {S} (phases : list PhaseConfig) (total_duration : nat) (s : S) :
  (estimate_phases phases total_duration s).2 = s.
Proof.
  revert total_duration. induction phases as [|phase phases IH]; intros total_duration;
    [done|].
  cbn [estimate_phases]. rewrite run_bind.
  destruct (pc_parallel_execution phase); [|apply IH].
  unfold py_max. destruct (_ <$> pc_tasks phase); [done|apply IH].
Qed.

Lemma okeeps_initialize_deployment deployment_id request :
  okeeps metrics_in (initialize_deployment deployment_id request).
Proof.
  unfold initialize_deployment, create_client_data_file.
  apply okeeps_bind; [apply okeeps_gets|]. intros start_time. apply okeeps_bind.
  { intros o. unfold process_client_data. by destruct (_ <$> filter _ _). }
  intros client_data. apply okeeps_bind; [|intros _; apply okeeps_ret].
  apply okeeps_bind; [apply okeeps_liftOE, metrics_quiet|].
  intros _. apply okeeps_log, metrics_quiet.
Qed.

Lemma okeeps_create_master_execution_plan request :
  okeeps metrics_in (create_master_execution_plan request).
Proof.
  intros o. unfold create_master_execution_plan, estimate_total_duration.
  rewrite run_bind.
  match goal with |- context [estimate_phases ?ps ?n o] =>
    pose proof (estimate_phases_state ps n o) as Hs;
    destruct (estimate_phases ps n o) as [[e|d] o'] end; cbn in Hs; by subst.
Qed.

Lemma okeeps_execute_deployment_phases deployment_id plan :
  okeeps metrics_in (execute_deployment_phases deployment_id plan).
Proof.
  intros o. unfold execute_deployment_phases. rewrite run_bind, run_gets_orch.
  destruct (active_deployments (orch o) !! deployment_id); [|done].
  pose proof (deployment_phases_outcome deployment_id (pl_phases plan) [] o) as Hout.
  destruct (deployment_phases deployment_id (pl_phases plan) [] o) as [[e|final] o'].
  - by destruct Hout as [Hm _].
  - by destruct Hout as (_ & Hm & _).
Qed.

Lemma okeeps_generate_final_report deployment_id results :
  okeeps metrics_in (generate_final_report deployment_id results).
Proof.
  unfold generate_final_report. apply okeeps_bind; [apply okeeps_gets|]. intros orc.
  destruct (active_deployments orc !! deployment_id); [|apply okeeps_raise].
  apply okeeps_bind; [apply okeeps_liftOE, metrics_quiet|]. intros _. apply okeeps_ret.
Qed.

Lemma counts_success_bind {A} (m : M OState A) (k : A → M OState DeploymentResult) :
  okeeps metrics_in m → (∀ a, counts_success (k a)) → counts_success (m ≫= k).
Proof.
  intros Hm Hk o. rewrite run_bind. specialize (Hm o).
  destruct (m o) as [[e|a] o1]; cbn in Hm; [done|].
  specialize (Hk a o1). destruct (k a o1) as [[e|r] o2]; [congruence|].
  destruct Hk as [Hr [t Ht]]. split; [done|]. exists t. congruence.
Qed.

Lemma deploy_infrastructure_try_counts deployment_id start_time request :
  counts_success (deploy_infrastructure_try deployment_id start_time request).
Proof.
  unfold deploy_infrastructure_try.
  apply counts_success_bind; [apply okeeps_log, metrics_quiet|]. intros _.
  apply counts_success_bind; [apply okeeps_initialize_deployment|]. intros deployment.
  apply counts_success_bind; [by apply okeeps_metrics_with_orch|]. intros _.
  apply counts_success_bind; [apply okeeps_create_master_execution_plan|]. intros plan.
  apply counts_success_bind; [by apply okeeps_metrics_with_orch|]. intros _.
  apply counts_success_bind; [apply okeeps_execute_deployment_phases|]. intros result.
  apply counts_success_bind; [apply okeeps_generate_final_report|]. intros final_report.
  intros o. unfold log.
  rewrite run_bind, run_liftOW, run_bind, run_with_orch, run_bind, run_with_orch.
  cbn. split; [done|]. by eexists.
Qed.

End PhaseFacts.

(** X17.  Only a sequential phase can fail a deployment.  When
    [execute_deployment_phases] raises for a registered deployment, the
    error is "Deployment failed in phase ..." for a phase of the plan that
    is not parallel, that phase is the orchestrator's current phase, and
    the cause is the dependency, no-agent or task-failed error of one of
    its tasks; a parallel phase never ends a deployment, whatever its
    tasks do.  When it returns, every phase of the plan has its result
    under the phase's name and the current phase is the last one. *)
Theorem only_sequential_phases_fail `{H : Host} (deployment_id : string) (plan : Plan)
    (o : OState) :
  match execute_deployment_phases deployment_id plan o with
  | (Return results, o') =>
      current_phase (orch o')
      = default (current_phase (orch o)) (pc_phase <$> last (pl_phases plan))
      ∧ ∀ k, k ∈ results.*1
             ↔ k ∈ (λ pc, DeploymentPhase.value (pc_phase pc)) <$> pl_phases plan
  | (Raise e, o') =>
      (active_deployments (orch o) !! deployment_id = None
       ∧ e = Exn PyKeyError (repr_str deployment_id) ∧ o' = o)
      ∨ ∃ phase_config cause task,
          phase_config ∈ pl_phases plan ∧ pc_parallel_execution phase_config = false
          ∧ e = phase_failed (pc_phase phase_config) cause
          ∧ current_phase (orch o') = pc_phase phase_config
          ∧ task ∈ pc_tasks phase_config
          ∧ (cause = dependencies_not_met task ∨ cause = no_agent_found task
             ∨ ∃ error, cause = task_failed_error task error)
  end.
Proof.
  unfold execute_deployment_phases. rewrite run_bind, run_gets_orch.
  destruct (active_deployments (orch o) !! deployment_id); [|by left].
  pose proof (deployment_phases_outcome deployment_id (pl_phases plan) [] o) as Hout.
  destruct (deployment_phases deployment_id (pl_phases plan) [] o) as [[e|final] o'].
  - right. by destruct Hout as [_ Hout].
  - destruct Hout as (Hp & _ & Hkeys). split; [done|]. intros k. rewrite Hkeys.
    rewrite elem_of_nil. tauto.
Qed.

(** X18.  [deploy_infrastructure] never raises, and counts the
    deployment exactly once in the orchestrator's metrics: as a success
    when it returns [success: True], as a failure otherwise. *)
Theorem deploy_infrastructure_counted_once `{H : Host} (request : Request) (o : OState) :
  ∃ r o', deploy_infrastructure request o = (Return r, o')
    ∧ let m := orchestrator_metrics (orch o) in
      let m' := orchestrator_metrics (orch o') in
      total_deployments m' = S (total_deployments m)
      ∧ successful_deployments m'
        = successful_deployments m + (if dr_success r then 1 else 0)
      ∧ failed_deployments m' = failed_deployments m + (if dr_success r then 0 else 1).
Proof.
  unfold deploy_infrastructure. rewrite run_bind, run_liftOW, run_bind, run_liftOW.
  cbn [orch env]. unfold try_except.
  match goal with |- context [deploy_infrastructure_try ?id ?st request ?o1] =>
    pose proof (deploy_infrastructure_try_counts id st request o1) as Htry;
    destruct (deploy_infrastructure_try id st request o1) as [[e|r] o2] end;
    cbn [orch] in Htry.
  - unfold deploy_infrastructure_except, log.
    rewrite run_bind, run_liftOW, run_bind, run_with_orch, run_bind, run_gets_orch.
    rewrite run_bind, run_with_orch. eexists _, _. split; [reflexivity|].
    cbn. rewrite Htry. repeat split; lia.
  - destruct Htry as [Hr [t Ht]]. exists r, o2. split; [done|]. cbv zeta.
    rewrite Ht, Hr. cbn. repeat split; lia.
Qed.

(** ** A deployment that fails before its first phase *)

Lemma process_client_data_incomplete {S : Type} (request : Request) (s : S) :
  truthy (rq_domain request) && truthy (rq_email request)
  && truthy (rq_project_name request) && truthy (rq_server_ip request) = false →
  ∃ e, process_client_data request s = (Raise e, s).
Proof.
  unfold process_client_data. simpl. rewrite !filter_cons, filter_nil. simpl.
  destruct (truthy (rq_domain request)), (truthy (rq_email request)),
           (truthy (rq_project_name request)), (truthy (rq_server_ip request));
    simpl; intros Hc; try done; by eexists.
Qed.

(** X19.  [current_phase] is never reset.  A deployment whose request
    lacks a required field fails before any phase starts, and its failure
    report names as [phase_at_failure] whatever phase the orchestrator
    was left in, by [__init__] or by the deployment before.  Nothing is
    dispatched, and no deployment is registered. *)
Theorem early_failure_reports_stale_phase `{H : Host} (request : Request) (o : OState) :
  truthy (rq_domain request) && truthy (rq_email request)
  && truthy (rq_project_name request) && truthy (rq_server_ip request) = false →
  ∃ id t error error_report o',
    deploy_infrastructure request o = (Return (DeploymentFailure id t error error_report), o')
    ∧ phase_at_failure error_report = DeploymentPhase.value (current_phase (orch o))
    ∧ active_deployments (orch o') = active_deployments (orch o)
    ∧ agents (orch o') = agents (orch o)
    ∧ assigned (orchestrator_log (orch o')) = assigned (orchestrator_log (orch o)).
Proof.
  intros Hmissing. unfold deploy_infrastructure.
  rewrite run_bind, run_liftOW, run_bind, run_liftOW. cbn [orch env].
  unfold try_except, deploy_infrastructure_try, log, initialize_deployment.
  rewrite run_bind, run_with_orch, run_bind, run_bind, run_gets_orch, run_bind.
  match goal with |- context [process_client_data request ?o1] =>
    destruct (process_client_data_incomplete request o1 Hmissing) as [e ->] end.
  unfold deploy_infrastructure_except, log.
  rewrite run_bind, run_liftOW, run_bind, run_with_orch, run_bind, run_gets_orch.
  rewrite run_bind, run_with_orch. eexists _, _, _, _, _. split; [reflexivity|].
  cbn. by rewrite !assigned_app, !app_nil_r.
Qed.

(** The scenario request, which lacks project_name, on an orchestrator
    left in the Reporting phase. *)
Lemma early_failure_reports_stale_phase_witness :
  let o := Demo.start 1 (set_current_phase DeploymentPhase.REPORTING
                           (Demo.team 1 (Demo.succeeds 1 "n8n") (Demo.succeeds 1 "dns"))) in
  ∃ id t error error_report o',
    deploy_infrastructure Demo.scenario_request o
    = (Return (DeploymentFailure id t error error_report), o')
    ∧ phase_at_failure error_report = "reporting"
    ∧ active_deployments (orch o') = active_deployments (orch o)
    ∧ agents (orch o') = agents (orch o)
    ∧ assigned (orchestrator_log (orch o')) = assigned (orchestrator_log (orch o)).
Proof.
  intros o. exact (early_failure_reports_stale_phase Demo.scenario_request o eq_refl).
Defined.

(** After a deployment that succeeded, a deployment that fails its
    validation reports "reporting" as the phase at failure. *)
Example second_deployment_reports_reporting :
  match deploy_infrastructure Demo.validated_request
          (Demo.start 1 (Demo.team 1 (Demo.succeeds 1 "n8n") (Demo.succeeds 1 "dns"))) with
  | (Return first, o1) =>
      match deploy_infrastructure Demo.scenario_request o1 with
      | (Return (DeploymentFailure _ _ error error_report), _) =>
          dr_success first = true
          ∧ error = "Missing required fields: ['project_name']"
          ∧ phase_at_failure error_report = "reporting"
      | _ => False
      end
  | _ => False
  end.
Proof. vm_compute. repeat split. Qed.

(** ** A callback that raises *)

Lemma update_performance_metrics_counts `{H : Host} (success : bool) (t : Num)
    (m : Metrics) :
  tasks_completed (update_performance_metrics success t m)
  = tasks_completed m + (if success then 1 else 0)
  ∧ tasks_failed (update_performance_metrics success t m)
    = tasks_failed m + (if success then 0 else 1).
Proof.
  unfold update_performance_metrics. destruct success, (0 <? _); cbn; lia.
Qed.

(** X20.  When the callback raises on the completion of a task that
    succeeded, [process_task] turns the success into a failure carrying
    the callback's error, after the success was recorded: the task is in
    [completed_tasks] and in [failed_tasks], and the call is counted both
    in [tasks_completed] and in [tasks_failed]. *)
Theorem raising_callback_counts_twice `{H : Host} {C : Type} (f : Callback (C := C))
    (task : TaskDict) (s : AState (C := C)) (e : exn) :
  (∀ agent id result report t cw,
     ∃ cw', f (task_completed agent id result report t) cw = (Raise e, cw')) →
  (∀ agent id error error_report t cw,
     ∃ cw', f (task_failed agent id error error_report t) cw = (Return tt, cw')) →
  match process_task None task s with
  | (Return (TaskSuccess _ _ _), _) => True
  | _ => False
  end →
  ∃ error_report t s',
    process_task (Some f) task s = (Return (TaskFailure (exn_str e) error_report t), s')
    ∧ status (self s') = FAILED
    ∧ completed_tasks (self s') = completed_tasks (self s) ++ [task]
    ∧ failed_tasks (self s') = failed_tasks (self s) ++ [task]
    ∧ tasks_completed (metrics_of s') = S (tasks_completed (metrics_of s))
    ∧ tasks_failed (metrics_of s') = S (tasks_failed (metrics_of s)).
Proof.
  intros Hcompleted Hfailed. unfold process_task.
  rewrite !run_bind, !run_liftW, !run_bind, !run_with_self, !run_bind, !run_liftW.
  cbn [self peer world]. unfold try_finally, try_except, process_task_try.
  rewrite !run_bind.
  match goal with |- context [process_task_stages task ?s0] =>
    destruct (process_task_stages task s0) as [[e0|[result report]] s1] eqn:Hstages end.
  { unfold process_task_except. rewrite run_bind, run_liftW.
    do 3 (rewrite run_bind, run_with_self; cbn [self peer world]).
    rewrite run_bind, run_handle_task_failure, run_bind, run_gets_state, run_bind.
    by cbn. }
  intros _. apply keeps_ledger_stages in Hstages. unfold ledger in Hstages.
  cbn [self performance_metrics completed_tasks failed_tasks current_task set_current_task]
    in Hstages. injection Hstages as Hm Hc Hf _.
  rewrite run_bind, run_liftW.
  do 3 (rewrite run_bind, run_with_self; cbn [self peer world]).
  rewrite run_bind, run_gets_state, run_bind. cbn [self peer world].
  unfold notify at 1. cbn [self peer world].
  match goal with |- context [f (task_completed ?a ?i ?r ?rp ?t) ?cw] =>
    destruct (Hcompleted a i r rp t cw) as [[c1 w1] ->] end.
  unfold process_task_except. rewrite run_bind, run_liftW.
  do 3 (rewrite run_bind, run_with_self; cbn [self peer world]).
  rewrite run_bind, run_handle_task_failure, run_bind, run_gets_state, run_bind.
  cbn [self peer world]. unfold notify. cbn [self peer world].
  match goal with |- context [f (task_failed ?a ?i ?er ?erp ?t) ?cw] =>
    destruct (Hfailed a i er erp t cw) as [[c2 w2] ->] end.
  eexists _, _, _. split; [reflexivity|].
  unfold process_task_finally, metrics_of. cbn [self status set_current_task set_status
    append_failed append_completed set_metrics]. rewrite decide_True by done.
  cbn [status completed_tasks failed_tasks performance_metrics set_current_task set_status
       append_failed append_completed set_metrics].
  rewrite Hc, Hf, Hm. split; [done|]. split; [done|]. split; [done|].
  match goal with |- context [update_performance_metrics false ?t2
                                (update_performance_metrics true ?t1 ?m)] =>
    destruct (update_performance_metrics_counts true t1 m) as [Hc1 Hf1];
    destruct (update_performance_metrics_counts false t2
                (update_performance_metrics true t1 m)) as [Hc2 Hf2] end.
  rewrite Hc2, Hf2, Hc1, Hf1. lia.
Qed.

(** A callback that raises on completions only, on an agent whose
    capability returns. *)
Lemma raising_callback_counts_twice_witness :
  let f : Callback (H := Demo.host 1) (C := unit) :=
    λ ev cw, match ev with
             | task_completed _ _ _ _ _ => (Raise (Exn PyException "listener down"), cw)
             | task_failed _ _ _ _ _ => (Return tt, cw)
             end in
  let s := Demo.standalone 1 (Demo.agent 1 "a" "A" None (Demo.succeeds 1 "ok")) in
  ∃ error_report t s',
    process_task (Some f) (Demo.simple_task "t1") s
    = (Return (TaskFailure "listener down" error_report t), s')
    ∧ status (self s') = FAILED
    ∧ completed_tasks (self s') = [] ++ [Demo.simple_task "t1"]
    ∧ failed_tasks (self s') = [] ++ [Demo.simple_task "t1"]
    ∧ tasks_completed (metrics_of s') = 1
    ∧ tasks_failed (metrics_of s') = 1.
Proof.
  intros f s.
  apply (raising_callback_counts_twice f (Demo.simple_task "t1") s
           (Exn PyException "listener down")).
  - intros. by eexists.
  - intros. by eexists.
  - vm_compute. exact I.
Defined.

(** ** Parallel phases, for any list of tasks *)

Section ParallelFacts.
Context `{H : Host}.
Implicit Types (o : OState).

Lemma gather_dispatch coroutines o :
  Forall (λ c, c.1 ∈ (agents (orch o)).*1) coroutines →
  ∃ results o',
    gather coroutines o = (Return (Return <$> results), o')
    ∧ length results = length coroutines
    ∧ assigned (orchestrator_log (orch o'))
      = assigned (orchestrator_log (orch o)) ++ (tk_id <$> coroutines.*2)
    ∧ (agents (orch o')).*1 = (agents (orch o)).*1.
Proof.
  revert o. induction coroutines as [|[id task] coroutines IH]; intros o Hreg.
  { exists [], o. cbn. by rewrite app_nil_r. }
  apply Forall_cons in Hreg as [Hid Hreg]. cbn [fst] in Hid.
  apply dict_get_keys in Hid as [agent Hagent].
  destruct (execute_agent_task_dispatch id agent task o Hagent)
    as (tr & o1 & agent' & Hrun & _ & _ & _ & _ & _ & Hkeys & Hlog).
  cbn [gather]. rewrite run_bind, Hrun, run_bind.
  destruct (IH o1) as (results & o2 & -> & Hlen & Hlog2 & Hkeys2).
  { by rewrite Hkeys. }
  exists (tr :: results), o2. split; [done|]. split; [cbn; by rewrite Hlen|].
  split; [|congruence]. rewrite Hlog2, Hlog, <- app_assoc. by rewrite !fmap_cons.
Qed.

Lemma task_coroutines_spec orc tasks :
  Forall (λ c, c.1 ∈ (agents orc).*1) (task_coroutines orc tasks)
  ∧ (task_coroutines orc tasks).*2 `sublist_of` tasks
  ∧ ∀ task, task ∈ (task_coroutines orc tasks).*2 ↔ task ∈ tasks ∧ resolves orc task.
Proof.
  unfold task_coroutines. induction tasks as [|task tasks (IHreg & IHsub & IHin)].
  { split; [done|]. split; [done|]. intros task. cbn. rewrite elem_of_nil. tauto. }
  cbn [omap list_omap].
  destruct (find_agent_by_type orc (tk_agent task)) as [id|] eqn:Hfind.
  1: destruct (truthy (Some id)) eqn:Hid.
  - rewrite fmap_cons. cbn [snd]. split.
    { constructor; [|done]. cbn [fst]. apply dict_get_keys.
      by eapply find_agent_by_type_registered. }
    split; [by constructor|]. intros task'. rewrite !elem_of_cons, IHin.
    split; [|tauto]. intros [->|?]; [|tauto]. split; [by left|]. by exists id.
  - split; [done|]. split; [by constructor|]. intros task'. rewrite elem_of_cons, IHin.
    split; [tauto|]. intros [[->|?] Hres]; [|done].
    destruct Hres as (id' & Hfind' & Hid'). congruence.
  - split; [done|]. split; [by constructor|]. intros task'. rewrite elem_of_cons, IHin.
    split; [tauto|]. intros [[->|?] Hres]; [|done].
    destruct Hres as (id' & Hfind' & Hid'). congruence.
Qed.

Lemma zip_fst_take {A B} (l : list A) (k : list B) : (zip l k).*1 = take (length k) l.
Proof.
  revert k. induction l as [|x l IH]; intros [|y k]; cbn; try done. by rewrite IH.
Qed.

Lemma execute_parallel_phase_outcome deployment_id phase_config o :
  let tasks := pc_tasks phase_config in
  let dispatched := (task_coroutines (orch o) tasks).*2 in
  ∃ pr o',
    execute_parallel_phase deployment_id phase_config o = (Return pr, o')
    ∧ assigned (orchestrator_log (orch o'))
      = assigned (orchestrator_log (orch o)) ++ (tk_id <$> dispatched)
    ∧ dom (pr_task_results pr) = list_to_set (tk_id <$> take (length dispatched) tasks)
    ∧ (∀ k entry, pr_task_results pr !! k = Some entry → ∃ tr, entry = EntryResult tr).
Proof.
  intros tasks dispatched. unfold execute_parallel_phase.
  rewrite run_bind, run_gets_orch, run_bind. fold tasks.
  destruct (task_coroutines_spec (orch o) tasks) as (Hreg & _ & _).
  destruct (gather_dispatch _ o Hreg) as (results & o' & -> & Hlen & Hlog & _).
  eexists _, o'. split; [reflexivity|]. split; [done|].
  cbn [pr_task_results]. unfold collect_results. split.
  - rewrite store_dom, dom_empty_L, (right_id_L ∅ (∪)). f_equal.
    transitivity (tk_id <$> (zip tasks (Return <$> results)).*1);
      [by rewrite <- list_fmap_compose|].
    rewrite zip_fst_take. do 2 f_equal. unfold dispatched. by rewrite !length_fmap.
  - intros k entry Hk. apply store_origin in Hk as [(task & r & Hin & _ & <-)|Hk].
    2:{ by rewrite lookup_empty in Hk. }
    apply elem_of_zip_r, list_elem_of_fmap in Hin as (tr & -> & _). by exists tr.
Qed.

Lemma dispatched_length orc tasks o results o' :
  dispatched orc tasks o results o' → length results = length tasks.
Proof. induction 1; cbn; congruence. Qed.

(** What [execute_agent_task] returns is what the agent's [process_task]
    returned. *)
Lemma execute_agent_task_agent_result id agent task o r o1 :
  dict_get id (agents (orch o)) = Some agent →
  execute_agent_task id task o = (Return r, o1) →
  (process_task (Some handle_agent_callback) (task_dict task)
     (agent_call id agent task o)).1 = Return r.
Proof.
  intros Hagent. unfold execute_agent_task. rewrite run_bind, run_gets_orch, Hagent.
  unfold log. rewrite run_bind, run_with_orch, run_bind, run_with_orch.
  cbn [orch env]. unfold try_except. rewrite run_bind. unfold call_process_task.
  cbn [orch env]. unfold agent_call.
  destruct (process_task _ _ _) as [[e|r'] s'].
  - by rewrite run_bind, run_with_orch.
  - rewrite run_bind, run_with_orch. by intros [= <- _].
Qed.

(** When every task resolves, [gather] runs one dispatch for each task,
    in the order of the tasks, and collects what the agents returned. *)
Lemma gather_dispatched orc tasks o :
  (∀ task, task ∈ tasks → resolves orc task) →
  (agents (orch o)).*1 = (agents orc).*1 →
  ∃ results o',
    gather (task_coroutines orc tasks) o = (Return (Return <$> results), o')
    ∧ dispatched orc tasks o results o'
    ∧ assigned (orchestrator_log (orch o'))
      = assigned (orchestrator_log (orch o)) ++ (tk_id <$> tasks).
Proof.
  revert o. induction tasks as [|task tasks IH]; intros o Hres Hkeys.
  { exists [], o. cbn. rewrite app_nil_r. split; [done|]. split; [constructor|done]. }
  destruct (Hres task) as (id & Hfind & Hid); [by left|].
  unfold task_coroutines. cbn [omap list_omap]. rewrite Hfind, Hid.
  fold (task_coroutines orc tasks).
  assert (is_Some (dict_get id (agents (orch o)))) as [agent Hagent].
  { apply dict_get_keys. rewrite Hkeys. apply dict_get_keys.
    by eapply find_agent_by_type_registered. }
  destruct (execute_agent_task_dispatch id agent task o Hagent)
    as (r & o1 & agent' & Hrun & _ & _ & _ & _ & _ & Hkeys1 & Hlog).
  cbn [gather]. rewrite run_bind, Hrun, run_bind.
  destruct (IH o1) as (results & o2 & -> & Hdisp & Hlog2).
  { intros t Ht. apply Hres. by right. }
  { by rewrite Hkeys1. }
  exists (r :: results), o2. split; [done|]. split.
  { econstructor; [done|exact Hagent| |done|done].
    by eapply execute_agent_task_agent_result. }
  rewrite Hlog2, Hlog, <- app_assoc. by rewrite fmap_cons.
Qed.

End ParallelFacts.

(** X21.  A parallel phase over any list of tasks.  It always returns.
    The tasks it dispatches are those whose agent is found, in the order
    of the phase; the others are skipped without an error.  The results
    are filed under the ids of the first tasks of the phase, as many as
    were dispatched, so under ids of skipped tasks when a skipped task
    comes before a dispatched one.  No entry is the error entry the code
    prepares for an exception: a dispatched task never raises. *)
Theorem parallel_phase_outcome `{H : Host} (deployment_id : string)
    (phase_config : PhaseConfig) (o : OState) :
  let tasks := pc_tasks phase_config in
  let dispatched := (task_coroutines (orch o) tasks).*2 in
  ∃ pr o',
    execute_parallel_phase deployment_id phase_config o = (Return pr, o')
    ∧ dispatched `sublist_of` tasks
    ∧ (∀ task, task ∈ dispatched ↔ task ∈ tasks ∧ resolves (orch o) task)
    ∧ assigned (orchestrator_log (orch o'))
      = assigned (orchestrator_log (orch o)) ++ (tk_id <$> dispatched)
    ∧ dom (pr_task_results pr) = list_to_set (tk_id <$> take (length dispatched) tasks)
    ∧ (∀ k entry, pr_task_results pr !! k = Some entry → ∃ tr, entry = EntryResult tr).
Proof.
  intros tasks dispatched.
  destruct (execute_parallel_phase_outcome deployment_id phase_config o)
    as (pr & o' & Hrun & Hlog & Hdom & Hentries).
  destruct (task_coroutines_spec (orch o) tasks) as (_ & Hsub & Hin).
  by exists pr, o'.
Qed.

(** ** A task that takes no measurable time *)

Section InstantTask.
Context `{H : Host} {C : Type}.
Implicit Types (s : AState (C := C)) (cb : option (Callback (C := C))).

Lemma process_task_stages_instant task s v :
  let a := self s in
  let cap := execute_primary_function a (default [] (td_parameters task)) in
  let t0 := (time_time (world s)).1 in
  let first := cap (time_time (world s)).2 in
  first.1 = Return v →
  let t1 := (time_time first.2).1 in
  (∀ result, av_valid (perform_agent_validation a result) = None) →
  is_zero (py_sum [nsub t1 t0]) = true →
  ∃ s', process_task_stages task s
        = (Raise (Exn PyZeroDivisionError "float division by zero"), s').
Proof.
  intros a cap t0 first Hfirst t1 Hvalid Hzero. unfold process_task_stages.
  rewrite run_bind, run_with_self, run_bind, run_gets_state.
  rewrite run_bind, run_log_execution_step, run_bind, run_with_self.
  cbn [self peer world].
  unfold execute_with_monitoring, create_execution_plan, generate_execution_steps.
  cbn [ep_steps ep_task_id monitor_steps].
  rewrite !run_bind.
  match goal with |- context [monitor_step ?st ?rs ?s0] =>
    pose proof (monitor_step_returned st rs s0 v) as Hstep end.
  cbn [self peer world] in Hstep.
  change (step_call _ _) with cap in Hstep.
  specialize (Hstep Hfirst). fold first t0 t1 in Hstep.
  rewrite Hstep. clear Hstep. rewrite !run_ret_state. cbn [app].
  set (result := execution_summary _ _).
  assert (er_steps_successful result = 1) as Hsucc.
  { unfold result, execution_summary. cbn [er_steps_successful].
    by rewrite filter_cons, decide_True. }
  rewrite run_bind, run_with_self, run_bind, run_gets_state. cbn [self peer world].
  change (perform_agent_validation _) with (perform_agent_validation a).
  assert (v_valid (validate_execution (perform_agent_validation a) result) = true) as ->.
  { unfold validate_execution. rewrite Hsucc. cbn. unfold validation_update.
    by rewrite Hvalid. }
  rewrite run_bind, run_ret_state, run_bind, run_with_self.
  unfold generate_task_report, calculate_performance_impact, py_div.
  change (er_total_duration result) with (py_sum [nsub t1 t0]). rewrite Hzero.
  by eexists.
Qed.

End InstantTask.

(** X22.  A task whose step returns at once, on a clock that shows no
    time between the start and the end of the step, fails: the report
    divides 300 by the measured duration, so [process_task] returns
    [success: False] with "float division by zero" and leaves the agent
    FAILED, although the capability ran and returned. *)
Theorem instant_task_fails `{H : Host} {C : Type} (cb : option (Callback (C := C)))
    (task : TaskDict) (s : AState (C := C)) (v : Value) :
  callback_total cb →
  (∀ result, av_valid (perform_agent_validation (self s) result) = None) →
  let w := (time_time (uuid4 (world s)).2).2 in
  let first := execute_primary_function (self s) (default [] (td_parameters task))
                 (time_time w).2 in
  first.1 = Return v →
  is_zero (py_sum [nsub (time_time first.2).1 (time_time w).1]) = true →
  ∃ error_report t s',
    process_task cb task s
    = (Return (TaskFailure "float division by zero" error_report t), s')
    ∧ status (self s') = FAILED.
Proof.
  intros Hcb Hvalid w first Hfirst Hzero. unfold process_task.
  rewrite run_bind, run_liftW, run_bind, run_with_self, run_bind, run_liftW.
  cbn [self peer world]. fold w.
  unfold try_finally, try_except, process_task_try. rewrite run_bind.
  match goal with |- context [process_task_stages task ?s0] =>
    destruct (process_task_stages_instant task s0 v Hfirst Hvalid Hzero) as [s1 ->] end.
  match goal with |- context [process_task_except cb task ?id ?st ?e s1] =>
    destruct (process_task_except_metrics cb task id st e s1 Hcb)
      as (er & t & s2 & -> & Hst & _) end.
  eexists _, _, _. split; [reflexivity|].
  unfold process_task_finally. cbn [self status set_current_task].
  by rewrite decide_True.
Qed.

(** On a clock that stands still. *)
Lemma instant_task_fails_witness :
  ∃ error_report t s',
    process_task (H := Demo.host 0) (C := unit) None (Demo.simple_task "t1")
      (Demo.standalone 0 (Demo.agent 0 "a" "A" None (Demo.succeeds 0 "ok")))
    = (Return (TaskFailure "float division by zero" error_report t), s')
    ∧ status (self s') = FAILED.
Proof.
  apply (instant_task_fails (H := Demo.host 0) (C := unit) None (Demo.simple_task "t1")
           (Demo.standalone 0 (Demo.agent 0 "a" "A" None (Demo.succeeds 0 "ok"))) "ok" I).
  - intros result. reflexivity.
  - reflexivity.
  - reflexivity.
Defined.

(** ** The estimated duration of a plan *)

Lemma foldl_max_list (x : nat) (l : list nat) : foldl Nat.max x l = x `max` max_list l.
Proof.
  revert x. induction l as [|y l IH]; intros x; simpl; [lia|]. rewrite IH. lia.
Qed.

Lemma foldl_sum_list (x : nat) (l : list nat) : foldl Nat.add x l = x + sum_list l.
Proof.
  revert x. induction l as [|y l IH]; intros x; simpl; [lia|]. rewrite IH. lia.
Qed.

Lemma sum_list_append (l k : list nat) : sum_list (l ++ k) = sum_list l + sum_list k.
Proof. induction l as [|y l IH]; simpl; lia. Qed.

Lemma max_list_le_sum_list (l : list nat) : max_list l ≤ sum_list l.
Proof. induction l as [|y l IH]; simpl; lia. Qed.

Lemma estimate_phases_spec {S : Type} (phases : list PhaseConfig) (total_duration : nat)
    (s : S) :
  estimate_phases phases total_duration s
  = if existsb (λ phase, pc_parallel_execution phase && (length (pc_tasks phase) =? 0)) phases
    then (Raise (Exn PyValueError "max() arg is an empty sequence"), s)
    else (Return (total_duration + sum_list (phase_estimate <$> phases)), s).
Proof.
  revert total_duration. induction phases as [|phase phases IH]; intros total_duration.
  { cbn. by rewrite Nat.add_0_r. }
  cbn [estimate_phases existsb fmap list_fmap sum_list]. rewrite run_bind.
  unfold phase_estimate at 1. unfold task_estimates.
  destruct (pc_parallel_execution phase); cbn [andb orb].
  - destruct (pc_tasks phase) as [|task tasks]; [done|]. cbn [length Nat.eqb orb].
    rewrite fmap_cons. cbn [py_max mret M_ret]. rewrite IH.
    destruct (existsb _ phases); [done|]. rewrite foldl_max_list. simpl.
    do 2 f_equal. lia.
  - cbn [mret M_ret]. rewrite IH. destruct (existsb _ phases); [done|].
    rewrite foldl_sum_list. simpl. do 2 f_equal. lia.
Qed.

(** X23.  [estimate_total_duration] raises [ValueError] exactly when
    some parallel phase of the plan has no task.  Otherwise it returns
    the sum over the phases of the longest task of a parallel phase and
    of all tasks of a sequential one, which is at most the sum of all
    estimated task durations; a task without an estimate counts as 0. *)
Theorem estimate_total_duration_spec {S : Type} (phases : list PhaseConfig) (s : S) :
  estimate_total_duration phases s
  = (if existsb (λ phase, pc_parallel_execution phase && (length (pc_tasks phase) =? 0))
                phases
     then (Raise (Exn PyValueError "max() arg is an empty sequence"), s)
     else (Return (sum_list (phase_estimate <$> phases)), s))
  ∧ sum_list (phase_estimate <$> phases)
    ≤ sum_list (phases ≫= task_estimates).
Proof.
  split; [apply estimate_phases_spec|].
  induction phases as [|phase phases IH]; [done|].
  rewrite fmap_cons, bind_cons, sum_list_append. simpl.
  assert (phase_estimate phase ≤ sum_list (task_estimates phase)); [|lia].
  unfold phase_estimate. destruct (pc_parallel_execution phase); [|done].
  apply max_list_le_sum_list.
Qed.

(** C7.  In a parallel phase whose tasks all resolve to agents (and have
    distinct ids), the phase returns, whatever the individual outcomes
    are.  Every task was dispatched once, in the order of the phase, to
    the agent found for it, and under the id of each task the result map
    holds the very dictionary that the task's agent returned: the
    [success: True] result of a task that succeeded, the
    [{success: False, error, ...}] result of a task that failed.  The map
    has exactly the task ids as keys, and the [success] flag of the phase
    is the conjunction of the [success] of the results.  A failed sibling
    changes no other entry. *)
Theorem parallel_fan_in `{H : Host} (deployment_id : string) (phase_config : PhaseConfig)
    (o : OState) :
  let tasks := pc_tasks phase_config in
  (∀ task, task ∈ tasks → resolves (orch o) task) →
  NoDup (tk_id <$> tasks) →
  ∃ results pr o',
    execute_parallel_phase deployment_id phase_config o = (Return pr, o')
    ∧ dispatched (orch o) tasks o results o'
    ∧ length results = length tasks
    ∧ assigned (orchestrator_log (orch o'))
      = assigned (orchestrator_log (orch o)) ++ (tk_id <$> tasks)
    ∧ pr_success pr = forallb tr_success results
    ∧ dom (pr_task_results pr) = list_to_set (tk_id <$> tasks)
    ∧ (∀ i task r, tasks !! i = Some task → results !! i = Some r →
                   pr_task_results pr !! tk_id task = Some (EntryResult r))
    ∧ (∀ task entry, task ∈ tasks → pr_task_results pr !! tk_id task = Some entry →
         match entry with
         | EntryResult (TaskSuccess _ _ _) => entry_success entry = true
         | EntryResult (TaskFailure _ _ _) => entry_success entry = false
         | EntryError _ => False
         end).
Proof.
  intros tasks Hres Hnd.
  destruct (gather_dispatched (orch o) tasks o Hres eq_refl)
    as (results & o' & Hgather & Hdisp & Hlog).
  pose proof (dispatched_length _ _ _ _ _ Hdisp) as Hlen.
  assert (length (Return (A := TaskResult) <$> results) = length tasks) as Hlen'
    by by rewrite length_fmap.
  pose proof (zip_keys tasks (Return <$> results) Hlen') as Hkeys.
  assert (∀ i task r, tasks !! i = Some task → results !! i = Some r →
            collect_results tasks (Return <$> results) !! tk_id task
            = Some (EntryResult r)) as Hentries.
  { intros i task r Htask Hr. unfold collect_results.
    change (EntryResult r) with (entry_of (Return r)).
    eapply store_lookup; [by rewrite Hkeys|].
    rewrite lookup_zip_with, Htask. simpl. by rewrite list_lookup_fmap, Hr. }
  eexists results, _, o'. unfold execute_parallel_phase. fold tasks.
  rewrite run_bind, run_gets_orch, run_bind. cbn [orch]. rewrite Hgather.
  split; [reflexivity|]. cbn [pr_success pr_task_results].
  split; [done|]. split; [done|]. split; [done|]. split.
  { rewrite all_success_collect by done. clear.
    induction results as [|r results IH]; [done|]. cbn. by rewrite IH. }
  split.
  { unfold collect_results. by rewrite store_dom, Hkeys, dom_empty_L, (right_id_L ∅ (∪)). }
  split; [done|]. intros task entry Hin Hentry.
  apply list_elem_of_lookup in Hin as [i Hi].
  destruct (lookup_lt_is_Some_2 results i) as [r Hr].
  { rewrite Hlen. by eapply lookup_lt_Some. }
  rewrite (Hentries i task r Hi Hr) in Hentry. injection Hentry as <-. by destruct r.
Qed.

(** Three tasks for three registered agents. *)
Lemma parallel_fan_in_witness :
  let tasks := pc_tasks Demo.fan_out_phase in
  let o : OState (H := Demo.host 1) :=
    Demo.start 1 (Demo.team 1 (Demo.fails 1 "boom") (Demo.succeeds 1 "dns")) in
  ∃ results pr o',
    execute_parallel_phase "d" Demo.fan_out_phase o = (Return pr, o')
    ∧ dispatched (orch o) tasks o results o'
    ∧ length results = length tasks
    ∧ assigned (orchestrator_log (orch o'))
      = assigned (orchestrator_log (orch o)) ++ (tk_id <$> tasks)
    ∧ pr_success pr = forallb tr_success results
    ∧ dom (pr_task_results pr) = list_to_set (tk_id <$> tasks)
    ∧ (∀ i task r, tasks !! i = Some task → results !! i = Some r →
                   pr_task_results pr !! tk_id task = Some (EntryResult r))
    ∧ (∀ task entry, task ∈ tasks → pr_task_results pr !! tk_id task = Some entry →
         match entry with
         | EntryResult (TaskSuccess _ _ _) => entry_success entry = true
         | EntryResult (TaskFailure _ _ _) => entry_success entry = false
         | EntryError _ => False
         end).
Proof.
  intros tasks o. apply (parallel_fan_in (H := Demo.host 1) "d" Demo.fan_out_phase o).
  - intros task Hin. unfold tasks in Hin. simpl in Hin.
    repeat (apply elem_of_cons in Hin as [->|Hin]);
      [eexists; split; vm_compute; reflexivity ..|by apply elem_of_nil in Hin].
  - apply (bool_decide_unpack _). vm_compute. exact I.
Defined.
